(** * A shallow embedding of [downloader.py] (multi-downloader)

    The file models [FileDownloader]: its size probe, its look at the
    local files, its connectivity check, the resumable transfer loop of
    [download_file] and the batch driver [download_files].

    - The two directories are finite maps from file name to content, the
      [progress_bars] dictionary is a finite map from file name to the
      counter [n] of the bar.
    - Everything the program does to the outside (requests, sleeps, log
      records, bar updates) is appended to a trace.
    - The network is an oracle: what a request returns or raises is a
      function of the url, of how many requests of that kind were sent
      before, and of the [Range] header.
    - Python exceptions are values of [exn]; a function that can raise
      returns a [result].  The two [while] loops take fuel.
    - The thread pool of [download_files] is modelled by its workers: a
      task is started when a worker is free, a task that has not ended
      keeps its worker, and the events of one task are recorded together
      (the tasks of a batch write to different files when the file names
      differ). *)

From Stdlib Require Import ZArith Lia Strings.Byte Strings.Ascii Strings.String.
From stdpp Require Import base option list gmap strings.

Local Open Scope Z_scope.

(** ** Exceptions

    The classes the [except] clauses of the source tell apart, from
    [requests.exceptions], [urllib3.exceptions] and the builtins. *)
Inductive exn : Type :=
| ConnectionError          (* requests.ConnectionError *)
| ConnectTimeout           (* requests.ConnectTimeout(ConnectionError, Timeout) *)
| ReadTimeout              (* requests.ReadTimeout(Timeout) *)
| HTTPError                (* requests.HTTPError, from raise_for_status *)
| ChunkedEncodingError     (* requests.exceptions.ChunkedEncodingError *)
| OtherRequestException    (* any other requests.RequestException *)
| ProtocolError            (* urllib3.exceptions.ProtocolError *)
| IncompleteRead           (* urllib3.exceptions.IncompleteRead *)
| KeyError
| ValueError
| OSError.

(** [isinstance(e, requests.ConnectionError)] *)
Definition is_ConnectionError (e : exn) : bool :=
  match e with
  | ConnectionError | ConnectTimeout => true
  | _ => false
  end.

(** [isinstance(e, requests.RequestException)] *)
Definition is_RequestException (e : exn) : bool :=
  match e with
  | ConnectionError | ConnectTimeout | ReadTimeout | HTTPError
  | ChunkedEncodingError | OtherRequestException => true
  | _ => false
  end.

(** [isinstance(e, (requests.ConnectionError, ProtocolError, IncompleteRead))],
    the first [except] clause of [download_file]. *)
Definition is_connection_lost (e : exn) : bool :=
  match e with
  | ProtocolError | IncompleteRead => true
  | _ => is_ConnectionError e
  end.

(** What can go wrong with the streaming request, by cause, and the
    exception [requests] raises for it: a network problem such as a DNS
    failure is reported as [ConnectionError]; a timeout while connecting as
    [ConnectTimeout]; a timeout while waiting for the response as
    [ReadTimeout]; an error status is turned into [HTTPError] by
    [raise_for_status]; while the body is read, [iter_content] catches
    urllib3's [ProtocolError] (a connection reset) and [IncompleteRead] (a
    body shorter than announced) and raises [ChunkedEncodingError] in
    their place, and raises [ConnectionError] for a read that times
    out. *)
Inductive fetch_failure : Type :=
| DnsFailure
| ConnectionRefused
| TimeoutConnecting
| TimeoutAwaitingResponse
| ErrorStatus
| ResetInBody
| TruncatedBody
| TimeoutInBody.

Definition raised_for (c : fetch_failure) : exn :=
  match c with
  | DnsFailure => ConnectionError
  | ConnectionRefused => ConnectionError
  | TimeoutConnecting => ConnectTimeout
  | TimeoutAwaitingResponse => ReadTimeout
  | ErrorStatus => HTTPError
  | ResetInBody => ChunkedEncodingError
  | TruncatedBody => ChunkedEncodingError
  | TimeoutInBody => ConnectionError
  end.

Inductive result (A : Type) : Type :=
| Ret (a : A)
| Raise (e : exn)
| OutOfFuel.
Arguments Ret {A} a.
Arguments Raise {A} e.
Arguments OutOfFuel {A}.

(** ** The network oracle *)

(** The text of a header as [int] sees it: the number it parses to, or
    a text it raises [ValueError] for. *)
Inductive header_value : Type :=
| Digits (n : Z)
| Garbage.

(** Reply to [requests.head(url, timeout=10)]: the call raises, or it
    returns a response with a status and, if the server sent one, a
    [Content-Length] header. *)
Inductive head_response : Type :=
| HeadRaises (e : exn)
| HeadResponse (status : Z) (content_length : option header_value).

(** Reply to [requests.get(url, headers=headers, stream=True, timeout=30)]:
    the call raises, or it returns a response whose body yields [chunks]
    and then either ends or breaks with an exception. *)
Inductive get_response : Type :=
| GetRaises (e : exn)
| GetResponse (status : Z) (chunks : list (list byte)) (broken : option exn).

(** Reply to [requests.get(SAFE_URL, timeout=5)]. *)
Inductive ping_response : Type :=
| PingAnswered
| PingRaises (e : exn).

Record network : Type := Network {
  head_reply : string → nat → head_response;
  get_reply : string → nat → option Z → get_response;
  ping_reply : nat → ping_response
}.

(** ** Trace *)

Inductive log_level : Type := INFO | WARNING | ERROR.

Inductive message : Type :=
| MsgSizeFailed (url : string) (e : exn)
| MsgStarting (filename : string) (total_size start_bytes : Z)
| MsgAlreadyDownloaded (filename : string)
| MsgNoResume (filename : string)
| MsgCompleted (filename : string)
| MsgConnectionLost (filename : string) (retries max_retries : Z)
| MsgNoInternet
| MsgError (filename : string) (e : exn) (retries max_retries : Z)
| MsgExceeded (filename : string)
| MsgWorker (e : exn).

Inductive open_mode : Type := ab | wb.

Inductive event : Type :=
| EvHead (url : string)
| EvGet (url : string) (range : option Z)
| EvPing
| EvSleep (seconds : Z)
| EvLog (level : log_level) (msg : message)
| EvOpen (filename : string) (mode : open_mode)
| EvReplace (filename : string)
| EvBarCreate (filename : string) (total initial : Z)
| EvBarUpdate (filename : string) (delta : Z)
| EvBarRefresh (filename : string) (n : Z)
| EvBarClose (filename : string)
| EvSubmit (url : string).

Definition is_head (url : string) (e : event) : bool :=
  match e with EvHead u => bool_decide (u = url) | _ => false end.

Definition is_get (url : string) (e : event) : bool :=
  match e with EvGet u _ => bool_decide (u = url) | _ => false end.

Definition is_ping (e : event) : bool :=
  match e with EvPing => true | _ => false end.

Definition heads_sent (url : string) (t : list event) : nat :=
  length (List.filter (is_head url) t).

Definition gets_sent (url : string) (t : list event) : nat :=
  length (List.filter (is_get url) t).

Definition pings_sent (t : list event) : nat :=
  length (List.filter is_ping t).

(** ** The world: the two directories, the bars, the trace *)

Record world : Type := World {
  temp_dir : gmap string (list byte);
  download_dir : gmap string (list byte);
  progress_bars : gmap string Z;
  trace : list event
}.

Definition emit (e : event) (w : world) : world :=
  World (temp_dir w) (download_dir w) (progress_bars w) (trace w ++ [e]).

Definition set_temp_dir (d : gmap string (list byte)) (w : world) : world :=
  World d (download_dir w) (progress_bars w) (trace w).

Definition set_download_dir (d : gmap string (list byte)) (w : world) : world :=
  World (temp_dir w) d (progress_bars w) (trace w).

Definition set_progress_bars (b : gmap string Z) (w : world) : world :=
  World (temp_dir w) (download_dir w) b (trace w).

Definition size_of (content : list byte) : Z := Z.of_nat (length content).

(** [open(temp_path, mode)]: [wb] truncates, [ab] keeps what is there;
    both create the file. *)
Definition open_file (filename : string) (mode : open_mode) (w : world) : world :=
  let content :=
    match mode with
    | wb => []
    | ab => default [] (temp_dir w !! filename)
    end in
  emit (EvOpen filename mode) (set_temp_dir (<[filename := content]> (temp_dir w)) w).

(** [file.write(chunk)] *)
Definition file_write (filename : string) (chunk : list byte) (w : world) : world :=
  set_temp_dir
    (<[filename := default [] (temp_dir w !! filename) ++ chunk]> (temp_dir w)) w.

(** [os.replace(temp_path, final_path)]; [None] when there is no
    temporary file to move (Python raises [FileNotFoundError]). *)
Definition os_replace (filename : string) (w : world) : option world :=
  match temp_dir w !! filename with
  | Some content =>
      Some (emit (EvReplace filename)
              (set_download_dir (<[filename := content]> (download_dir w))
                 (set_temp_dir (delete filename (temp_dir w)) w)))
  | None => None
  end.

(** [progress_bar.update(n)] *)
Definition bar_update (filename : string) (delta : Z) (w : world) : world :=
  emit (EvBarUpdate filename delta)
    (set_progress_bars (alter (Z.add delta) filename (progress_bars w)) w).

(** [progress_bar.n = n; progress_bar.refresh()] *)
Definition bar_set (filename : string) (n : Z) (w : world) : world :=
  emit (EvBarRefresh filename n)
    (set_progress_bars (alter (λ _, n) filename (progress_bars w)) w).

(** [os.path.basename(url)]: what follows the last slash. *)
Fixpoint basename_from (acc : string) (s : string) : string :=
  match s with
  | EmptyString => acc
  | String c rest =>
      if Ascii.eqb c "/"%char then basename_from EmptyString rest
      else basename_from (acc +:+ String c EmptyString) rest
  end.

Definition basename (url : string) : string := basename_from EmptyString url.

(** ** FileDownloader *)

Record FileDownloader : Type := {
  retry_delay : Z;
  max_retries : Z
}.

(** The defaults of [__init__]. *)
Definition RETRY_DELAY : Z := 5.
Definition MAX_RETRIES : Z := 10.
Definition default_downloader : FileDownloader :=
  {| retry_delay := RETRY_DELAY; max_retries := MAX_RETRIES |}.

(** The locals of [download_file] its loop assigns to.  [headers] is
    either [{}] or [{"Range": "bytes=<offset>-"}]. *)
Record frame : Type := Frame {
  start_bytes : Z;
  headers : option Z;
  retries : Z
}.

(** Which [return] of [download_file] was taken: the early one of line 82,
    the one after the move of line 111, or the end of the function after
    the loop. *)
Inductive exit : Type := AlreadyDownloaded | Completed | Failed.

(** [response.raise_for_status()] raises for 4xx and 5xx. *)
Definition is_error_status (status : Z) : bool :=
  (400 <=? status) && (status <? 600).

(** Where one turn of the loop of [download_file] leaves the control:
    back at the loop condition, or out of the function. *)
Inductive step : Type :=
| Next (fr : frame) (w : world)
| Stop (r : result exit) (fr : frame) (w : world).

Section Downloader.

Context (net : network) (self : FileDownloader).

Definition _log (msg : message) (level : log_level) (w : world) : world :=
  emit (EvLog level msg) w.

(** [time.sleep(seconds)]; [None] when the length is negative (Python
    raises [ValueError]). *)
Definition sleep (seconds : Z) (w : world) : option world :=
  if seconds <? 0 then None else Some (emit (EvSleep seconds) w).

(** [int(text)] *)
Definition int (text : header_value) : result Z :=
  match text with
  | Digits n => Ret n
  | Garbage => Raise ValueError
  end.

Definition _get_file_size (url : string) (w : world) : result Z * world :=
  let reply := head_reply net url (heads_sent url (trace w)) in
  let w := emit (EvHead url) w in
  match reply with
  | HeadRaises e =>
      if is_RequestException e
      then (Ret 0, _log (MsgSizeFailed url e) WARNING w)
      else (Raise e, w)
  | HeadResponse status content_length =>
      if is_error_status status
      then (Ret 0, _log (MsgSizeFailed url HTTPError) WARNING w)
      else
        match content_length with
        | Some text => (int text, w)
        | None => (Ret 0, w)
        end
  end.

Definition _get_existing_download_size
    (filename : string) (in_temp : bool) (w : world) : Z :=
  match (if in_temp then temp_dir w else download_dir w) !! filename with
  | Some content => size_of content
  | None => 0
  end.

Definition _check_internet (w : world) : result bool * world :=
  let reply := ping_reply net (pings_sent (trace w)) in
  let w := emit EvPing w in
  match reply with
  | PingAnswered => (Ret true, w)
  | PingRaises e =>
      if is_ConnectionError e then (Ret false, w) else (Raise e, w)
  end.

(** The condition of line 77. *)
Definition already_downloaded (filename : string) (total_size : Z) (w : world) : bool :=
  bool_decide (is_Some (download_dir w !! filename))
  && (_get_existing_download_size filename false w =? total_size).

(** The [for chunk in response.iter_content(...)] loop, lines 99 to 104. *)
Fixpoint write_chunks
    (filename : string) (chunks : list (list byte)) (fr : frame) (w : world)
    : frame * world :=
  match chunks with
  | [] => (fr, w)
  | chunk :: rest =>
      match chunk with
      | [] => write_chunks filename rest fr w
      | _ :: _ =>
          let w := file_write filename chunk w in
          let fr := Frame (start_bytes fr + size_of chunk) (headers fr) (retries fr) in
          let w := bar_update filename (size_of chunk) w in
          write_chunks filename rest fr w
      end
  end.

(** Lines 91 to 94: the server ignored the [Range] header. *)
Definition renegotiate
    (filename : string) (status : Z) (fr : frame) (w : world) : frame * world :=
  if (0 <? start_bytes fr) && negb (status =? 206)
  then (Frame 0 None (retries fr), _log (MsgNoResume filename) INFO w)
  else (fr, w).

(** Lines 97 to 104: open the temporary file and write the chunks. *)
Definition stream_body
    (filename : string) (chunks : list (list byte)) (fr : frame) (w : world)
    : frame * world :=
  let mode := if 0 <? start_bytes fr then ab else wb in
  write_chunks filename chunks fr (open_file filename mode w).

(** Lines 106 to 110: move the file, log, set the bar. *)
Definition finalize (filename : string) (total_size : Z) (w : world)
    : result unit * world :=
  match os_replace filename w with
  | Some w =>
      (Ret tt, bar_set filename total_size (_log (MsgCompleted filename) INFO w))
  | None => (Raise OSError, w)
  end.

(** The body of the [try], lines 89 to 111.  The locals it assigned to
    before raising stay assigned. *)
Definition try_fetch
    (url filename : string) (total_size : Z) (fr : frame) (w : world)
    : result unit * frame * world :=
  let reply := get_reply net url (gets_sent url (trace w)) (headers fr) in
  let w := emit (EvGet url (headers fr)) w in
  match reply with
  | GetRaises e => (Raise e, fr, w)
  | GetResponse status chunks broken =>
      if is_error_status status then (Raise HTTPError, fr, w)
      else
        let '(fr, w) := renegotiate filename status fr w in
        match progress_bars w !! filename with
        | None => (Raise KeyError, fr, w)
        | Some _ =>
            let '(fr, w) := stream_body filename chunks fr w in
            match broken with
            | Some e => (Raise e, fr, w)
            | None =>
                let '(r, w) := finalize filename total_size w in
                (r, fr, w)
            end
        end
  end.

(** The loop of lines 114 to 116. *)
Fixpoint wait_for_internet (fuel : nat) (w : world) : result unit * world :=
  match fuel with
  | O => (OutOfFuel, w)
  | S fuel =>
      match _check_internet w with
      | (Ret true, w) => (Ret tt, w)
      | (Ret false, w) =>
          let w := _log MsgNoInternet WARNING w in
          match sleep (retry_delay self) w with
          | Some w => wait_for_internet fuel w
          | None => (Raise ValueError, w)
          end
      | (Raise e, w) => (Raise e, w)
      | (OutOfFuel, w) => (OutOfFuel, w)
      end
  end.

(** The first [except] clause, lines 113 to 118. *)
Definition on_connection_lost
    (fuel : nat) (filename : string) (fr : frame) (w : world)
    : result unit * frame * world :=
  let w := _log (MsgConnectionLost filename (retries fr) (max_retries self)) WARNING w in
  match wait_for_internet fuel w with
  | (Ret _, w) =>
      let start := _get_existing_download_size filename true w in
      (Ret tt, Frame start (Some start) (retries fr), w)
  | (Raise e, w) => (Raise e, fr, w)
  | (OutOfFuel, w) => (OutOfFuel, fr, w)
  end.

(** The second [except] clause, lines 120 to 122. *)
Definition on_request_exception
    (filename : string) (e : exn) (fr : frame) (w : world)
    : result unit * frame * world :=
  let fr := Frame (start_bytes fr) (headers fr) (retries fr + 1) in
  let w := _log (MsgError filename e (retries fr) (max_retries self)) ERROR w in
  match sleep (retry_delay self) w with
  | Some w => (Ret tt, fr, w)
  | None => (Raise ValueError, fr, w)
  end.

(** The two [except] clauses: where the control goes after an exception
    of the [try] body. *)
Definition handle_exception
    (fuel : nat) (filename : string) (e : exn) (fr : frame) (w : world) : step :=
  if is_connection_lost e then
    match on_connection_lost fuel filename fr w with
    | (Ret _, fr, w) => Next fr w
    | (Raise e', fr, w) => Stop (Raise e') fr w
    | (OutOfFuel, fr, w) => Stop OutOfFuel fr w
    end
  else if is_RequestException e then
    match on_request_exception filename e fr w with
    | (Ret _, fr, w) => Next fr w
    | (Raise e', fr, w) => Stop (Raise e') fr w
    | (OutOfFuel, fr, w) => Stop OutOfFuel fr w
    end
  else Stop (Raise e) fr w.

(** One turn of the loop: the [try] statement of lines 88 to 122. *)
Definition loop_body
    (fuel : nat) (url filename : string) (total_size : Z) (fr : frame) (w : world)
    : step :=
  match try_fetch url filename total_size fr w with
  | (Ret _, fr, w) => Stop (Ret Completed) fr w
  | (Raise e, fr, w) => handle_exception fuel filename e fr w
  | (OutOfFuel, fr, w) => Stop OutOfFuel fr w
  end.

(** The [while retries <= self.max_retries] loop and the line after it. *)
Fixpoint download_loop
    (fuel : nat) (url filename : string) (total_size : Z) (fr : frame) (w : world)
    : result exit * frame * world :=
  match fuel with
  | O => (OutOfFuel, fr, w)
  | S fuel =>
      if retries fr <=? max_retries self then
        match loop_body fuel url filename total_size fr w with
        | Next fr w => download_loop fuel url filename total_size fr w
        | Stop r fr w => (r, fr, w)
        end
      else (Ret Failed, fr, _log (MsgExceeded filename) ERROR w)
  end.

(** Lines 84 and 85. *)
Definition initial_frame (start : Z) : frame :=
  Frame start (if 0 <? start then Some start else None) 0.

Definition download_file (fuel : nat) (url : string) (w : world) : result exit * world :=
  let filename := basename url in
  match _get_file_size url w with
  | (Ret total_size, w) =>
      let start := _get_existing_download_size filename true w in
      let w := _log (MsgStarting filename total_size start) INFO w in
      if already_downloaded filename total_size w then
        let w := _log (MsgAlreadyDownloaded filename) INFO w in
        match progress_bars w !! filename with
        | Some _ => (Ret AlreadyDownloaded, bar_set filename total_size w)
        | None => (Raise KeyError, w)
        end
      else
        let '(r, _, w) :=
          download_loop fuel url filename total_size (initial_frame start) w in
        (r, w)
  | (Raise e, w) => (Raise e, w)
  | (OutOfFuel, w) => (OutOfFuel, w)
  end.

(** Line 127: the sizes, by file name. *)
Fixpoint probe_sizes
    (urls : list string) (file_sizes : gmap string Z) (w : world)
    : result (gmap string Z) * world :=
  match urls with
  | [] => (Ret file_sizes, w)
  | url :: rest =>
      match _get_file_size url w with
      | (Ret n, w) => probe_sizes rest (<[basename url := n]> file_sizes) w
      | (Raise e, w) => (Raise e, w)
      | (OutOfFuel, w) => (OutOfFuel, w)
      end
  end.

(** Lines 129 to 143: one bar per file name, starting at the size of the
    temporary file. *)
Fixpoint make_bars
    (urls : list string) (file_sizes : gmap string Z) (bars : gmap string Z) (w : world)
    : gmap string Z * world :=
  match urls with
  | [] => (bars, w)
  | url :: rest =>
      let filename := basename url in
      let initial := _get_existing_download_size filename true w in
      make_bars rest file_sizes (<[filename := initial]> bars)
        (emit (EvBarCreate filename (default 0 (file_sizes !! filename)) initial) w)
  end.

(** The pool of lines 145 to 156 while its tasks are gone through:
    [stuck] counts the workers held by a task that has not ended, [fault]
    is the exception with which the main thread left the loop of lines 151
    to 156, if it did. *)
Record pool : Type := Pool {
  stuck : Z;
  fault : option exn
}.

(** Lines 146 to 156, task by task in the order of submission.  Every url
    is submitted.  Its task is started if a worker is or becomes free,
    that is if fewer than [max_workers] tasks before it have not ended; a
    task out of fuel has not ended and keeps its worker.  What a task
    raised is raised again by [future.result()], logged, and followed by
    the sleep of line 156; if that sleep raises, the main thread leaves
    the loop, and the tasks still to come are run all the same by the
    workers (the [with] block waits for them) without anyone asking for
    their results. *)
Fixpoint run_tasks
    (fuel : nat) (max_workers : Z) (urls : list string) (p : pool) (w : world)
    : pool * world :=
  match urls with
  | [] => (p, w)
  | url :: rest =>
      let w := emit (EvSubmit url) w in
      if stuck p <? max_workers then
        match download_file fuel url w with
        | (Ret _, w) => run_tasks fuel max_workers rest p w
        | (Raise e, w) =>
            match fault p with
            | Some _ => run_tasks fuel max_workers rest p w
            | None =>
                let w := _log (MsgWorker e) ERROR w in
                match sleep (retry_delay self) w with
                | Some w => run_tasks fuel max_workers rest p w
                | None =>
                    run_tasks fuel max_workers rest (Pool (stuck p) (Some ValueError)) w
                end
            end
        | (OutOfFuel, w) =>
            run_tasks fuel max_workers rest (Pool (stuck p + 1) (fault p)) w
        end
      else run_tasks fuel max_workers rest p w
  end.

(** Lines 145 to 156: [ThreadPoolExecutor(max_workers=max_workers)] raises
    [ValueError] unless [max_workers] is positive; the [with] block is
    left when every task has ended, with the exception of the main thread
    if there is one. *)
Definition run_pool
    (fuel : nat) (max_workers : Z) (urls : list string) (w : world)
    : result unit * world :=
  if max_workers <=? 0 then (Raise ValueError, w)
  else
    let '(p, w) := run_tasks fuel max_workers urls (Pool 0 None) w in
    if 0 <? stuck p then (OutOfFuel, w)
    else
      match fault p with
      | Some e => (Raise e, w)
      | None => (Ret tt, w)
      end.

(** The keys of a dictionary filled in this order. *)
Fixpoint dict_keys (seen : list string) (names : list string) : list string :=
  match names with
  | [] => seen
  | name :: rest =>
      if bool_decide (name ∈ seen) then dict_keys seen rest
      else dict_keys (seen ++ [name]) rest
  end.

(** Lines 158 and 159. *)
Definition close_bars (urls : list string) (w : world) : world :=
  foldl (λ w filename, emit (EvBarClose filename) w) w
    (dict_keys [] (basename <$> urls)).

Definition download_files
    (fuel : nat) (urls : list string) (max_workers : Z) (w : world)
    : result unit * world :=
  match probe_sizes urls ∅ w with
  | (Ret file_sizes, w) =>
      let '(bars, w) := make_bars urls file_sizes ∅ w in
      let w := set_progress_bars bars w in
      match run_pool fuel max_workers urls w with
      | (Ret _, w) => (Ret tt, close_bars urls w)
      | (Raise e, w) => (Raise e, w)
      | (OutOfFuel, w) => (OutOfFuel, w)
      end
  | (Raise e, w) => (Raise e, w)
  | (OutOfFuel, w) => (OutOfFuel, w)
  end.

End Downloader.

(** The constants of the module and [main]: a downloader with the default
    settings run on [URLS]. *)
Definition MAX_WORKERS : Z := 5.

Definition URLS : list string :=
  [ "https://storage.googleapis.com/public_test_access_ae/output_20sec.mp4";
    "https://storage.googleapis.com/public_test_access_ae/output_30sec.mp4";
    "https://storage.googleapis.com/public_test_access_ae/output_40sec.mp4";
    "https://storage.googleapis.com/public_test_access_ae/output_50sec.mp4";
    "https://storage.googleapis.com/public_test_access_ae/output_60sec.mp4" ].

Definition main (net : network) (fuel : nat) (w : world) : result unit * world :=
  download_files net default_downloader fuel URLS MAX_WORKERS w.

(** ** Vocabulary of the statements *)

(** The exception with which an attempt whose reply is [r] leaves the
    [try] body: raised by [requests.get], by [raise_for_status], or by the
    body while it is read (which takes the bar of the file to be in
    [progress_bars]; the lookup raises [KeyError] first otherwise). *)
Definition attempt_raises (r : get_response) (e : exn) : Prop :=
  match r with
  | GetRaises e' => e' = e
  | GetResponse status _ broken =>
      if is_error_status status then e = HTTPError else broken = Some e
  end.

(** An attempt that streams to its end. *)
Definition attempt_succeeds (r : get_response) : Prop :=
  match r with
  | GetRaises _ => False
  | GetResponse status _ broken => is_error_status status = false ∧ broken = None
  end.

(** Caught by the second [except] clause: a [RequestException] the first
    clause did not take. *)
Definition retry_counted (e : exn) : bool :=
  is_RequestException e && negb (is_connection_lost e).

(** Every attempt at [url] loses the connection: it leaves the [try]
    body with an exception of the first [except] clause. *)
Definition connection_lost_always (net : network) (url : string) : Prop :=
  ∀ i h, ∃ e, attempt_raises (get_reply net url i h) e ∧ is_connection_lost e = true.

(** The connectivity probe either is answered or fails with a
    [ConnectionError]; it raises nothing else. *)
Definition pings_never_escape (net : network) : Prop :=
  ∀ i, match ping_reply net i with
       | PingAnswered => True
       | PingRaises e => is_ConnectionError e = true
       end.

(** However long the outage, a later probe is answered. *)
Definition connectivity_returns (net : network) : Prop :=
  ∀ i, ∃ j, (i ≤ j)%nat ∧ ping_reply net j = PingAnswered.

(** The offset of the [Range] header never runs ahead of [start_bytes]. *)
Definition offset_within (fr : frame) : Prop :=
  match headers fr with
  | Some offset => offset <= start_bytes fr
  | None => True
  end.

(** A target with nothing wrong: the size probe raises at most a
    [RequestException] and its [Content-Length], if it is read, is a
    number; every GET streams to its end. *)
Definition healthy (net : network) (url : string) : Prop :=
  (∀ i, match head_reply net url i with
        | HeadRaises e => is_RequestException e = true
        | HeadResponse status content_length =>
            is_error_status status = true ∨ content_length ≠ Some Garbage
        end)
  ∧ ∀ i h, attempt_succeeds (get_reply net url i h).

(** Neither a GET nor the submission of a task. *)
Definition quiet (e : event) : bool :=
  match e with EvGet _ _ | EvSubmit _ => false | _ => true end.

Definition no_submit (e : event) : bool :=
  match e with EvSubmit _ => false | _ => true end.

(** The urls handed to the pool, in order. *)
Fixpoint submitted (t : list event) : list string :=
  match t with
  | [] => []
  | EvSubmit url :: rest => url :: submitted rest
  | _ :: rest => submitted rest
  end.

(** The [Range] offsets (or [None] for no header) of the requests for
    [url] in a trace, in order. *)
Fixpoint ranges_sent (url : string) (t : list event) : list (option Z) :=
  match t with
  | [] => []
  | EvGet u h :: rest =>
      if bool_decide (u = url) then h :: ranges_sent url rest
      else ranges_sent url rest
  | _ :: rest => ranges_sent url rest
  end.

(** The events of the chunk loop: one bar update per non-empty chunk. *)
Fixpoint chunk_updates (filename : string) (chunks : list (list byte)) : list event :=
  match chunks with
  | [] => []
  | [] :: rest => chunk_updates filename rest
  | chunk :: rest => EvBarUpdate filename (size_of chunk) :: chunk_updates filename rest
  end.

(** The successive values of the counter of the bar of [filename], from
    [n], as the events of a trace reach the bar. *)
Fixpoint bar_values (filename : string) (n : Z) (t : list event) : list Z :=
  match t with
  | [] => []
  | EvBarUpdate f delta :: rest =>
      if bool_decide (f = filename)
      then (n + delta) :: bar_values filename (n + delta) rest
      else bar_values filename n rest
  | EvBarRefresh f n' :: rest =>
      if bool_decide (f = filename)
      then n' :: bar_values filename n' rest
      else bar_values filename n rest
  | _ :: rest => bar_values filename n rest
  end.

(** A list of counter values that never goes down, starting from [n]. *)
Fixpoint nondecreasing_from (n : Z) (values : list Z) : Prop :=
  match values with
  | [] => True
  | v :: rest => n <= v ∧ nondecreasing_from v rest
  end.

(** The states in which the loop of [download_file] evaluates its
    condition: the first one, and those a turn of the loop returns to. *)
Inductive at_loop_head (net : network) (self : FileDownloader)
    (url filename : string) (total_size : Z) : frame → world → Prop :=
| head_first start w :
    at_loop_head net self url filename total_size (initial_frame start) w
| head_again fuel fr w fr' w' :
    at_loop_head net self url filename total_size fr w →
    retries fr <= max_retries self →
    loop_body net self fuel url filename total_size fr w = Next fr' w' →
    at_loop_head net self url filename total_size fr' w'.

Definition step_frame (s : step) : frame :=
  match s with Next fr _ | Stop _ fr _ => fr end.

Definition step_world (s : step) : world :=
  match s with Next _ w | Stop _ _ w => w end.

(** ** Scenarios

    Concrete servers, downloaders and worlds on which the statements
    below are evaluated. *)

Definition body (n : nat) : list byte := repeat x00 n.

Definition video : string := "https://host.example/media/video.mp4".

(** A downloader that gives up after two retries. *)
Definition impatient : FileDownloader := {| retry_delay := 5; max_retries := 2 |}.

(** No file anywhere, a bar at 0 for [video.mp4]. *)
Definition fresh_world : world :=
  World ∅ ∅ {[ "video.mp4" := 0 ]} [].

(** A server of a 10-byte file that answers every GET with status 500. *)
Definition server_always_500 : network :=
  Network (λ _ _, HeadResponse 200 (Some (Digits 10)))
          (λ _ _ _, GetResponse 500 [] None)
          (λ _, PingAnswered).

(** A server whose host cannot be reached while the network is up: every
    GET raises [ConnectionError], every connectivity probe is answered. *)
Definition server_unreachable : network :=
  Network (λ _ _, HeadResponse 200 (Some (Digits 10)))
          (λ _ _ _, GetRaises (raised_for DnsFailure))
          (λ _, PingAnswered).

(** A server that sends no [Content-Length]: the size stays unknown. *)
Definition server_unknown_size : network :=
  Network (λ _ _, HeadResponse 200 None)
          (λ _ _ _, GetResponse 200 [body 5] None)
          (λ _, PingAnswered).

(** An empty [video.mp4] sits in the download directory. *)
Definition world_with_empty_final : world :=
  World ∅ {[ "video.mp4" := [] ]} {[ "video.mp4" := 0 ]} [].

(** The temporary file holds 4 of the 10 bytes; the bar stands at 4. *)
Definition world_with_partial : world :=
  World {[ "video.mp4" := body 4 ]} ∅ {[ "video.mp4" := 4 ]} [].

(** A server of a 10-byte file that ignores [Range] and always sends the
    whole body with status 200, in two chunks. *)
Definition server_no_resume : network :=
  Network (λ _ _, HeadResponse 200 (Some (Digits 10)))
          (λ _ _ _, GetResponse 200 [body 5; body 5] None)
          (λ _, PingAnswered).

(** All 10 bytes are in the temporary file, nothing in the download
    directory. *)
Definition world_with_whole_temp : world :=
  World {[ "video.mp4" := body 10 ]} ∅ {[ "video.mp4" := 10 ]} [].

(** A server of a 10-byte file that turns every request down with
    416 Range Not Satisfiable. *)
Definition server_range_unsatisfiable : network :=
  Network (λ _ _, HeadResponse 200 (Some (Digits 10)))
          (λ _ _ _, GetResponse 416 [] None)
          (λ _, PingAnswered).

(** A server of a 10-byte file that honours [Range]: 206 and the bytes
    from the offset on, or 200 and the whole body. *)
Definition honest_reply (range : option Z) : get_response :=
  match range with
  | Some offset => GetResponse 206 [body (Z.to_nat (10 - offset))] None
  | None => GetResponse 200 [body 10] None
  end.

Definition server_honest : network :=
  Network (λ _ _, HeadResponse 200 (Some (Digits 10)))
          (λ _ _ range, honest_reply range)
          (λ _, PingAnswered).

(** The same server behind a connection that is reset on the first
    request, before any byte arrives. *)
Definition server_reset_once : network :=
  Network (λ _ _, HeadResponse 200 (Some (Digits 10)))
          (λ _ i range, match i with
                        | O => GetRaises ConnectionError
                        | S _ => honest_reply range
                        end)
          (λ _, PingAnswered).

(** The same server, whose first response is cut short after 2 bytes:
    [iter_content] raises [ChunkedEncodingError]. *)
Definition server_breaks_once : network :=
  Network (λ _ _, HeadResponse 200 (Some (Digits 10)))
          (λ _ i range, match i with
                        | O => GetResponse 206 [body 2] (Some (raised_for TruncatedBody))
                        | S _ => honest_reply range
                        end)
          (λ _, PingAnswered).

(** The same server, whose first response stalls after 2 bytes until the
    read times out: [iter_content] raises [ConnectionError]. *)
Definition server_stalls_once : network :=
  Network (λ _ _, HeadResponse 200 (Some (Digits 10)))
          (λ _ i range, match i with
                        | O => GetResponse 206 [body 2] (Some (raised_for TimeoutInBody))
                        | S _ => honest_reply range
                        end)
          (λ _, PingAnswered).

(** A server of a 10-byte file every response of which is cut short after
    2 bytes. *)
Definition server_truncates : network :=
  Network (λ _ _, HeadResponse 200 (Some (Digits 10)))
          (λ _ _ range,
             GetResponse (match range with Some _ => 206 | None => 200 end) [body 2]
               (Some (raised_for TruncatedBody)))
          (λ _, PingAnswered).

(** A downloader whose delay between retries is negative. *)
Definition hasty : FileDownloader := {| retry_delay := -1; max_retries := 2 |}.

(** A batch of three: a target the server always answers with 500, the
    10-byte video from an honest server, and a target whose request raises
    an [OSError]. *)
Definition refused : string := "https://host.example/media/refused.mp4".
Definition faulty : string := "https://host.example/media/faulty.mp4".

Definition server_mixed : network :=
  Network (λ _ _, HeadResponse 200 (Some (Digits 10)))
          (λ url _ range,
             if String.eqb url refused then GetResponse 500 [] None
             else if String.eqb url faulty then GetRaises OSError
             else honest_reply range)
          (λ _, PingAnswered).

Definition empty_world : world := World ∅ ∅ ∅ [].

(** The honest server, except that its answer to HEAD for [faulty.mp4]
    carries a [Content-Length] that is no number. *)
Definition server_one_bad_length : network :=
  Network (λ url _, if String.eqb url faulty then HeadResponse 200 (Some Garbage)
                    else HeadResponse 200 (Some (Digits 10)))
          (λ _ _ range, honest_reply range)
          (λ _, PingAnswered).

(** The honest server, except that the host of [refused.mp4] cannot be
    reached while the network is up: its task never ends. *)
Definition server_one_unreachable : network :=
  Network (λ _ _, HeadResponse 200 (Some (Digits 10)))
          (λ url _ range,
             if String.eqb url refused then GetRaises (raised_for DnsFailure)
             else honest_reply range)
          (λ _, PingAnswered).

(** What is kept under the name [g] is the same in [w'] as in [w]: the
    temporary file, the final file, the bar. *)
Definition same_at (g : string) (w w' : world) : Prop :=
  temp_dir w' !! g = temp_dir w !! g
  ∧ download_dir w' !! g = download_dir w !! g
  ∧ progress_bars w' !! g = progress_bars w !! g.

(** No slash in a string. *)
Fixpoint slash_free (s : string) : bool :=
  match s with
  | EmptyString => true
  | String c rest => negb (Ascii.eqb c "/"%char) && slash_free rest
  end.

(** A server whose answer to HEAD carries a [Content-Length] that is no
    number: [int] raises [ValueError] inside [_get_file_size]. *)
Definition server_bad_length : network :=
  Network (λ _ _, HeadResponse 200 (Some Garbage))
          (λ _ _ range, honest_reply range)
          (λ _, PingAnswered).

(** The events of [k] failed connectivity probes: probe, warning, sleep. *)
Fixpoint polling (k : nat) (delay : Z) : list event :=
  match k with
  | O => []
  | S k => EvPing :: EvLog WARNING MsgNoInternet :: EvSleep delay :: polling k delay
  end.

(** The events of [k] requests turned down with an error status, the
    retry counter standing at [retries] before the first: request, error
    record with the new count, sleep. *)
Fixpoint refusals (self : FileDownloader) (url filename : string) (range : option Z)
    (k : nat) (retries : Z) : list event :=
  match k with
  | O => []
  | S k =>
      EvGet url range
      :: EvLog ERROR (MsgError filename HTTPError (retries + 1) (max_retries self))
      :: EvSleep (retry_delay self)
      :: refusals self url filename range k (retries + 1)
  end.

(** The urls of the HEAD requests in a trace, in order. *)
Fixpoint heads_of (t : list event) : list string :=
  match t with
  | [] => []
  | EvHead url :: rest => url :: heads_of rest
  | _ :: rest => heads_of rest
  end.

(** A network that is down for the first two connectivity probes. *)
Definition server_down_twice : network :=
  Network (λ _ _, HeadResponse 200 (Some (Digits 10)))
          (λ _ _ _, GetRaises ConnectionError)
          (λ i, match i with
                | O | S O => PingRaises ConnectionError
                | _ => PingAnswered
                end).

(** A connection that is reset, and a connectivity probe that times out
    while reading. *)
Definition server_probe_times_out : network :=
  Network (λ _ _, HeadResponse 200 (Some (Digits 10)))
          (λ _ _ _, GetRaises ConnectionError)
          (λ _, PingRaises ReadTimeout).

(** A size probe that times out. *)
Definition server_head_times_out : network :=
  Network (λ _ _, HeadRaises ReadTimeout)
          (λ _ _ range, honest_reply range)
          (λ _, PingAnswered).

(** A downloader that allows no attempt at all. *)
Definition forbidding : FileDownloader := {| retry_delay := 5; max_retries := -1 |}.

(** Beside the partial [video.mp4], another target has a temporary file,
    a final file and a bar. *)
Definition world_with_neighbour : world :=
  World {[ "video.mp4" := body 4; "other.mp4" := body 3 ]}
        {[ "other.mp4" := body 7 ]}
        {[ "video.mp4" := 4; "other.mp4" := 3 ]} [].

(** The partial [video.mp4] without any bar. *)
Definition world_without_bar : world :=
  World {[ "video.mp4" := body 4 ]} ∅ ∅ [].

(** ** Facts about the primitives *)

Section Facts.

Context (net : network) (self : FileDownloader).

Lemma gets_sent_app url t1 t2 :
  gets_sent url (t1 ++ t2) = (gets_sent url t1 + gets_sent url t2)%nat.
Proof. unfold gets_sent. by rewrite List.filter_app, length_app. Qed.

Lemma gets_sent_quiet url t :
  forallb quiet t = true → gets_sent url t = 0%nat.
Proof.
  unfold gets_sent. induction t as [|e t IH]; [done|].
  cbn [forallb]. intros [He Ht]%andb_prop.
  destruct e; try discriminate He; cbn; auto.
Qed.

Lemma trace_emit e w : trace (emit e w) = trace w ++ [e].
Proof. done. Qed.

Lemma write_chunks_trace filename chunks fr w :
  trace (write_chunks filename chunks fr w).2
  = trace w ++ chunk_updates filename chunks.
Proof.
  revert fr w. induction chunks as [|chunk rest IH]; intros fr w.
  - cbn. by rewrite app_nil_r.
  - destruct chunk as [|b chunk].
    + cbn. apply IH.
    + cbn [write_chunks chunk_updates]. rewrite IH. cbn. by rewrite <- app_assoc.
Qed.

Lemma size_of_app (a b : list byte) : size_of (a ++ b) = size_of a + size_of b.
Proof. unfold size_of. rewrite length_app. lia. Qed.

Lemma size_of_nonneg (a : list byte) : 0 <= size_of a.
Proof. unfold size_of. lia. Qed.

Lemma write_chunks_frame filename chunks fr w :
  (write_chunks filename chunks fr w).1
  = Frame (start_bytes fr + size_of (concat chunks)) (headers fr) (retries fr).
Proof.
  revert fr w. induction chunks as [|chunk rest IH]; intros fr w.
  - destruct fr. cbn. f_equal. unfold size_of. cbn. lia.
  - destruct chunk as [|b chunk].
    + cbn. apply IH.
    + cbn [write_chunks concat]. cbn zeta. rewrite IH. cbn [start_bytes headers retries].
      f_equal. rewrite size_of_app. lia.
Qed.

Lemma write_chunks_temp filename chunks fr w content :
  temp_dir w !! filename = Some content →
  temp_dir (write_chunks filename chunks fr w).2 !! filename
  = Some (content ++ concat chunks).
Proof.
  revert fr w content. induction chunks as [|chunk rest IH]; intros fr w content Hc.
  - cbn. by rewrite app_nil_r.
  - destruct chunk as [|b chunk].
    + cbn. by apply IH.
    + cbn [write_chunks concat]. cbn zeta. erewrite IH.
      * by rewrite <- app_assoc.
      * cbn. rewrite Hc. cbn. by rewrite lookup_insert_eq.
Qed.

Lemma write_chunks_temp_other filename chunks fr w g :
  g ≠ filename →
  temp_dir (write_chunks filename chunks fr w).2 !! g = temp_dir w !! g.
Proof.
  intros Hne. revert fr w. induction chunks as [|chunk rest IH]; intros fr w; [done|].
  destruct chunk as [|b chunk]; [apply IH|].
  cbn [write_chunks]. cbn zeta. rewrite IH. cbn. by rewrite lookup_insert_ne.
Qed.

Lemma write_chunks_download_dir filename chunks fr w :
  download_dir (write_chunks filename chunks fr w).2 = download_dir w.
Proof.
  revert fr w. induction chunks as [|chunk rest IH]; intros fr w; [done|].
  destruct chunk as [|b chunk]; [apply IH|].
  cbn [write_chunks]. cbn zeta. by rewrite IH.
Qed.

Lemma write_chunks_bar filename chunks fr w g :
  progress_bars (write_chunks filename chunks fr w).2 !! g
  = if decide (g = filename)
    then Z.add (size_of (concat chunks)) <$> progress_bars w !! g
    else progress_bars w !! g.
Proof.
  revert fr w. induction chunks as [|chunk rest IH]; intros fr w.
  - cbn. case_decide; [|done]. destruct (progress_bars w !! g); cbn; [|done].
    f_equal.
  - destruct chunk as [|b chunk]; [apply IH|].
    cbn [write_chunks concat]. cbn zeta. rewrite IH. cbn [bar_update emit set_progress_bars file_write set_temp_dir progress_bars].
    case_decide as Hg.
    + subst g. rewrite lookup_alter_eq. destruct (progress_bars w !! filename); cbn; [|done].
      f_equal. change (b :: chunk ++ concat rest) with ((b :: chunk) ++ concat rest).
      rewrite size_of_app. lia.
    + by rewrite lookup_alter_ne.
Qed.

Lemma chunk_updates_quiet filename chunks :
  forallb quiet (chunk_updates filename chunks) = true.
Proof.
  induction chunks as [|chunk rest IH]; [done|]. by destruct chunk.
Qed.

Lemma renegotiate_bars filename status fr w :
  progress_bars (renegotiate filename status fr w).2 = progress_bars w.
Proof. unfold renegotiate. by case_match. Qed.

Lemma renegotiate_dirs filename status fr w :
  temp_dir (renegotiate filename status fr w).2 = temp_dir w
  ∧ download_dir (renegotiate filename status fr w).2 = download_dir w.
Proof. unfold renegotiate. by case_match. Qed.

Lemma renegotiate_retries filename status fr w :
  retries (renegotiate filename status fr w).1 = retries fr.
Proof. unfold renegotiate. by case_match. Qed.

Lemma renegotiate_trace filename status fr w :
  ∃ ev, trace (renegotiate filename status fr w).2 = trace w ++ ev
        ∧ forallb quiet ev = true.
Proof.
  unfold renegotiate. case_match.
  - by exists [EvLog INFO (MsgNoResume filename)].
  - exists []. by rewrite app_nil_r.
Qed.

Lemma stream_body_trace filename chunks fr w :
  trace (stream_body filename chunks fr w).2
  = trace w ++ EvOpen filename (if 0 <? start_bytes fr then ab else wb)
                 :: chunk_updates filename chunks.
Proof.
  unfold stream_body. rewrite write_chunks_trace. cbn. by rewrite <- app_assoc.
Qed.

Lemma stream_body_frame filename chunks fr w :
  (stream_body filename chunks fr w).1
  = Frame (start_bytes fr + size_of (concat chunks)) (headers fr) (retries fr).
Proof. apply write_chunks_frame. Qed.

Lemma stream_body_temp filename chunks fr w :
  temp_dir (stream_body filename chunks fr w).2 !! filename
  = Some ((if 0 <? start_bytes fr then default [] (temp_dir w !! filename) else [])
          ++ concat chunks).
Proof.
  unfold stream_body. apply write_chunks_temp.
  destruct (0 <? start_bytes fr); cbn; by rewrite lookup_insert_eq.
Qed.

Lemma stream_body_temp_other filename chunks fr w g :
  g ≠ filename →
  temp_dir (stream_body filename chunks fr w).2 !! g = temp_dir w !! g.
Proof.
  intros Hne. unfold stream_body. rewrite write_chunks_temp_other by done.
  cbn. by rewrite lookup_insert_ne.
Qed.

Lemma stream_body_download_dir filename chunks fr w :
  download_dir (stream_body filename chunks fr w).2 = download_dir w.
Proof. unfold stream_body. by rewrite write_chunks_download_dir. Qed.

Lemma stream_body_bar filename chunks fr w g :
  progress_bars (stream_body filename chunks fr w).2 !! g
  = if decide (g = filename)
    then Z.add (size_of (concat chunks)) <$> progress_bars w !! g
    else progress_bars w !! g.
Proof. unfold stream_body. by rewrite write_chunks_bar. Qed.

Lemma finalize_moves filename total_size w content :
  temp_dir w !! filename = Some content →
  ∃ w', finalize filename total_size w = (Ret tt, w')
    ∧ temp_dir w' = delete filename (temp_dir w)
    ∧ download_dir w' = <[filename := content]> (download_dir w)
    ∧ progress_bars w' = alter (λ _, total_size) filename (progress_bars w)
    ∧ trace w' = trace w ++ [EvReplace filename; EvLog INFO (MsgCompleted filename);
                             EvBarRefresh filename total_size].
Proof.
  intros Hc. unfold finalize, os_replace. rewrite Hc. eexists. split; [done|].
  cbn. by rewrite <- !app_assoc.
Qed.

(** The [try] body when the response arrives with a good status and the
    bar is there: renegotiate, stream, and finalize unless the body broke. *)
Lemma try_fetch_response url filename total_size fr w status chunks broken :
  get_reply net url (gets_sent url (trace w)) (headers fr)
  = GetResponse status chunks broken →
  is_error_status status = false →
  is_Some (progress_bars w !! filename) →
  let s1 := renegotiate filename status fr (emit (EvGet url (headers fr)) w) in
  let s2 := stream_body filename chunks s1.1 s1.2 in
  try_fetch net url filename total_size fr w
  = match broken with
    | Some e => (Raise e, s2.1, s2.2)
    | None => ((finalize filename total_size s2.2).1, s2.1,
               (finalize filename total_size s2.2).2)
    end.
Proof.
  intros Hr Hs [n Hn]. cbn zeta. unfold try_fetch. rewrite Hr, Hs.
  destruct (renegotiate filename status fr (emit (EvGet url (headers fr)) w))
    as [fr1 w1] eqn:E1.
  assert (progress_bars w1 = progress_bars w) as Hb.
  { change w1 with (fr1, w1).2. rewrite <- E1. by rewrite renegotiate_bars. }
  rewrite Hb, Hn. cbn [fst snd].
  destruct (stream_body filename chunks fr1 w1) as [fr2 w2].
  destruct broken; [done|]. cbn [fst snd]. by destruct (finalize _ _ _).
Qed.

Lemma try_fetch_raises url filename total_size fr w e :
  attempt_raises (get_reply net url (gets_sent url (trace w)) (headers fr)) e →
  is_Some (progress_bars w !! filename) →
  (try_fetch net url filename total_size fr w).1.1 = Raise e.
Proof.
  intros Ha Hb.
  destruct (get_reply net url (gets_sent url (trace w)) (headers fr))
    as [e'|status chunks broken] eqn:Hr.
  - unfold try_fetch. rewrite Hr. cbn in *. by subst.
  - cbn in Ha. destruct (is_error_status status) eqn:Hs.
    + unfold try_fetch. rewrite Hr, Hs. by subst.
    + rewrite (try_fetch_response _ _ _ _ _ _ _ _ Hr Hs Hb). by subst.
Qed.

Lemma finalize_trace filename total_size w :
  ∃ ev, trace (finalize filename total_size w).2 = trace w ++ ev
        ∧ forallb quiet ev = true.
Proof.
  unfold finalize, os_replace. destruct (temp_dir w !! filename).
  - exists [EvReplace filename; EvLog INFO (MsgCompleted filename);
            EvBarRefresh filename total_size].
    cbn. by rewrite <- !app_assoc.
  - exists []. by rewrite app_nil_r.
Qed.

Lemma finalize_bars filename total_size w :
  dom (progress_bars (finalize filename total_size w).2) = dom (progress_bars w).
Proof.
  unfold finalize, os_replace. destruct (temp_dir w !! filename); [|done].
  cbn. by rewrite dom_alter_L.
Qed.

Lemma write_chunks_bars_dom filename chunks fr w :
  dom (progress_bars (write_chunks filename chunks fr w).2) = dom (progress_bars w).
Proof.
  revert fr w. induction chunks as [|chunk rest IH]; intros fr w; [done|].
  destruct chunk as [|b chunk]; [apply IH|].
  cbn [write_chunks]. cbn zeta. rewrite IH. cbn. by rewrite dom_alter_L.
Qed.

Lemma stream_body_bars_dom filename chunks fr w :
  dom (progress_bars (stream_body filename chunks fr w).2) = dom (progress_bars w).
Proof. unfold stream_body. by rewrite write_chunks_bars_dom. Qed.

(** Picks the stages of [try_fetch] apart. *)
Ltac try_fetch_cases url filename total_size fr w :=
  unfold try_fetch;
  destruct (get_reply net url (gets_sent url (trace w)) (headers fr))
    as [?e|?status ?chunks ?broken] eqn:?Hreply;
  [|destruct (is_error_status status) eqn:?Hstatus;
    [|let fr1 := fresh "fr1" in
      let w1 := fresh "w1" in
      let E1 := fresh "E1" in
      destruct (renegotiate filename status fr (emit (EvGet url (headers fr)) w))
        as [fr1 w1] eqn:E1;
      destruct (progress_bars w1 !! filename) eqn:?Hbar;
      [let fr2 := fresh "fr2" in
       let w2 := fresh "w2" in
       let E2 := fresh "E2" in
       destruct (stream_body filename chunks fr1 w1) as [fr2 w2] eqn:E2;
       destruct broken as [?e|];
       [|let r := fresh "r" in
         let w3 := fresh "w3" in
         let E3 := fresh "E3" in
         destruct (finalize filename total_size w2) as [r w3] eqn:E3]|]]].

Lemma try_fetch_retries url filename total_size fr w :
  retries (try_fetch net url filename total_size fr w).1.2 = retries fr.
Proof.
  try_fetch_cases url filename total_size fr w; cbn [fst snd]; try done.
  all: pose proof (renegotiate_retries filename status fr
                     (emit (EvGet url (headers fr)) w)) as H1;
    rewrite E1 in H1; cbn [fst] in H1; try done.
  all: pose proof (stream_body_frame filename chunks fr1 w1) as H2;
    rewrite E2 in H2; cbn [fst] in H2; by subst fr2.
Qed.

Lemma try_fetch_trace url filename total_size fr w :
  ∃ ev, trace (try_fetch net url filename total_size fr w).2
        = trace w ++ EvGet url (headers fr) :: ev
        ∧ forallb quiet ev = true.
Proof.
  try_fetch_cases url filename total_size fr w; cbn [fst snd].
  1,2: by exists [].
  all: destruct (renegotiate_trace filename status fr
                   (emit (EvGet url (headers fr)) w)) as (ev1 & H1 & Hq1);
    rewrite E1 in H1; cbn [snd] in H1; rewrite trace_emit in H1.
  3: { exists ev1. by rewrite H1, <- app_assoc. }
  all: pose proof (stream_body_trace filename chunks fr1 w1) as H2;
    rewrite E2 in H2; cbn [snd] in H2.
  - eexists. rewrite H2, H1, <- !app_assoc. split; [done|].
    rewrite forallb_app, Hq1. cbn. apply chunk_updates_quiet.
  - destruct (finalize_trace filename total_size w2) as (ev3 & H3 & Hq3).
    rewrite E3 in H3; cbn [snd] in H3.
    eexists. rewrite H3, H2, H1, <- !app_assoc. split; [done|].
    rewrite forallb_app, Hq1. cbn. rewrite forallb_app, Hq3, chunk_updates_quiet. done.
Qed.

Lemma try_fetch_bars_dom url filename total_size fr w :
  dom (progress_bars (try_fetch net url filename total_size fr w).2)
  = dom (progress_bars w).
Proof.
  try_fetch_cases url filename total_size fr w; cbn [fst snd]; try done.
  all: pose proof (renegotiate_bars filename status fr
                     (emit (EvGet url (headers fr)) w)) as H1;
    rewrite E1 in H1; cbn [snd] in H1.
  3: { by rewrite H1. }
  all: pose proof (stream_body_bars_dom filename chunks fr1 w1) as H2;
    rewrite E2 in H2; cbn [snd] in H2.
  - by rewrite H2, H1.
  - pose proof (finalize_bars filename total_size w2) as H3.
    rewrite E3 in H3; cbn [snd] in H3. by rewrite H3, H2, H1.
Qed.

Lemma try_fetch_gets url filename total_size fr w :
  gets_sent url (trace (try_fetch net url filename total_size fr w).2)
  = S (gets_sent url (trace w)).
Proof.
  destruct (try_fetch_trace url filename total_size fr w) as (ev & -> & Hq).
  rewrite gets_sent_app. change (EvGet url (headers fr) :: ev)
    with ([EvGet url (headers fr)] ++ ev).
  rewrite gets_sent_app, (gets_sent_quiet _ _ Hq).
  unfold gets_sent at 2. cbn. rewrite bool_decide_eq_true_2 by done. cbn. lia.
Qed.

(** The [try] body from the response to its end, spelled out: whether it
    restarts, what the temporary file holds, where the bar stands. *)
Lemma try_fetch_streamed url filename total_size fr w status chunks broken n :
  get_reply net url (gets_sent url (trace w)) (headers fr)
  = GetResponse status chunks broken →
  is_error_status status = false →
  progress_bars w !! filename = Some n →
  let restart := (0 <? start_bytes fr) && negb (status =? 206) in
  let start := if restart then 0 else start_bytes fr in
  let kept := if 0 <? start then default [] (temp_dir w !! filename) else [] in
  let t := try_fetch net url filename total_size fr w in
  t.1.2 = Frame (start + size_of (concat chunks))
            (if restart then None else headers fr) (retries fr)
  ∧ trace t.2
    = trace w ++ [EvGet url (headers fr)]
        ++ (if restart then [EvLog INFO (MsgNoResume filename)] else [])
        ++ [EvOpen filename (if 0 <? start then ab else wb)]
        ++ chunk_updates filename chunks
        ++ match broken with
           | None => [EvReplace filename; EvLog INFO (MsgCompleted filename);
                      EvBarRefresh filename total_size]
           | Some _ => []
           end
  ∧ match broken with
    | Some e =>
        t.1.1 = Raise e
        ∧ temp_dir t.2 !! filename = Some (kept ++ concat chunks)
        ∧ download_dir t.2 = download_dir w
        ∧ progress_bars t.2 !! filename = Some (size_of (concat chunks) + n)
    | None =>
        t.1.1 = Ret tt
        ∧ temp_dir t.2 !! filename = None
        ∧ download_dir t.2 !! filename = Some (kept ++ concat chunks)
        ∧ progress_bars t.2 !! filename = Some total_size
    end.
Proof.
  intros Hr Hs Hn. cbn zeta.
  rewrite (try_fetch_response url filename total_size fr w status chunks broken Hr Hs)
    by eauto.
  set (w0 := emit (EvGet url (headers fr)) w).
  assert (∃ fr1 w1 ev1,
    renegotiate filename status fr w0 = (fr1, w1)
    ∧ fr1 = Frame (if (0 <? start_bytes fr) && negb (status =? 206) then 0
                   else start_bytes fr)
              (if (0 <? start_bytes fr) && negb (status =? 206) then None
               else headers fr) (retries fr)
    ∧ ev1 = (if (0 <? start_bytes fr) && negb (status =? 206)
             then [EvLog INFO (MsgNoResume filename)] else [])
    ∧ trace w1 = trace w ++ [EvGet url (headers fr)] ++ ev1
    ∧ temp_dir w1 = temp_dir w ∧ download_dir w1 = download_dir w
    ∧ progress_bars w1 = progress_bars w) as (fr1 & w1 & ev1 & -> & Hfr1 & Hev1 & Ht1 & Htmp & Hdl & Hb).
  { unfold renegotiate. destruct ((0 <? start_bytes fr) && negb (status =? 206)).
    - eexists _, _, _. split; [done|]. subst w0. cbn. rewrite <- app_assoc. done.
    - eexists _, _, _. split; [done|]. subst w0. cbn. by destruct fr. }
  cbn [fst snd].
  pose proof (stream_body_frame filename chunks fr1 w1) as Hf2.
  pose proof (stream_body_trace filename chunks fr1 w1) as Ht2.
  pose proof (stream_body_temp filename chunks fr1 w1) as Htmp2.
  pose proof (stream_body_download_dir filename chunks fr1 w1) as Hdl2.
  pose proof (stream_body_bar filename chunks fr1 w1 filename) as Hb2.
  rewrite decide_True in Hb2 by done.
  destruct (stream_body filename chunks fr1 w1) as [fr2 w2]. cbn [fst snd] in *.
  assert (start_bytes fr1 = if (0 <? start_bytes fr) && negb (status =? 206) then 0
                            else start_bytes fr) as Hstart by (by subst fr1).
  rewrite Hstart, Htmp in *. rewrite Hb, Hn in Hb2. cbn in Hb2.
  assert (fr2 = Frame
    ((if (0 <? start_bytes fr) && negb (status =? 206) then 0 else start_bytes fr)
     + size_of (concat chunks))
    (if (0 <? start_bytes fr) && negb (status =? 206) then None else headers fr)
    (retries fr)) as Hfr2.
  { rewrite Hf2. by subst fr1. }
  destruct broken as [e|].
  - cbn [fst snd]. split; [done|]. split.
    + rewrite Ht2, Ht1, Hev1, app_nil_r, <- !app_assoc. done.
    + by rewrite Hdl2, Hdl.
  - destruct (finalize_moves filename total_size w2 _ Htmp2)
      as (w3 & -> & Htmp3 & Hdl3 & Hb3 & Ht3).
    cbn [fst snd]. split; [done|]. split.
    + rewrite Ht3, Ht2, Ht1, Hev1, <- !app_assoc. done.
    + rewrite Htmp3, Hdl3, Hb3, lookup_delete_eq, lookup_insert_eq, lookup_alter_eq, Hb2.
      done.
Qed.

Lemma chunk_updates_nondecreasing filename chunks n :
  nondecreasing_from n (bar_values filename n (chunk_updates filename chunks))
  ∧ Forall (λ v, n <= v) (bar_values filename n (chunk_updates filename chunks)).
Proof.
  revert n. induction chunks as [|chunk rest IH]; intros n; [done|].
  destruct chunk as [|b chunk]; [apply IH|].
  cbn [chunk_updates bar_values]. rewrite bool_decide_eq_true_2 by done.
  pose proof (size_of_nonneg (b :: chunk)) as Hsz.
  destruct (IH (n + size_of (b :: chunk))) as [IH1 IH2].
  split; [split; [lia|done]|].
  constructor; [lia|]. eapply Forall_impl; [exact IH2|]. cbn. intros; lia.
Qed.

(** *** The connectivity gate *)

Lemma sleep_some seconds w :
  0 <= seconds → sleep seconds w = Some (emit (EvSleep seconds) w).
Proof. intros H. unfold sleep. by rewrite (proj2 (Z.ltb_ge _ _)) by lia. Qed.

Lemma sleep_none seconds w : seconds < 0 → sleep seconds w = None.
Proof. intros H. unfold sleep. by rewrite (proj2 (Z.ltb_lt _ _)) by lia. Qed.

Lemma sleep_inv seconds w w' :
  sleep seconds w = Some w' → 0 <= seconds ∧ w' = emit (EvSleep seconds) w.
Proof.
  unfold sleep. destruct (Z.ltb_spec seconds 0); [done|]. intros [= <-]. by split.
Qed.

Lemma pings_sent_app t1 t2 :
  pings_sent (t1 ++ t2) = (pings_sent t1 + pings_sent t2)%nat.
Proof. unfold pings_sent. by rewrite List.filter_app, length_app. Qed.

Lemma wait_for_internet_store fuel w :
  let w' := (wait_for_internet net self fuel w).2 in
  temp_dir w' = temp_dir w ∧ download_dir w' = download_dir w
  ∧ progress_bars w' = progress_bars w.
Proof.
  cbn zeta. revert w. induction fuel as [|fuel IH]; intros w; [done|].
  cbn [wait_for_internet]. unfold _check_internet.
  destruct (ping_reply net (pings_sent (trace w))) as [|e]; [done|].
  destruct (is_ConnectionError e); [|done].
  cbn zeta. unfold sleep. destruct (retry_delay self <? 0); [done|].
  destruct (IH (emit (EvSleep (retry_delay self))
                  (_log MsgNoInternet WARNING (emit EvPing w))))
    as (-> & -> & ->). done.
Qed.

Lemma wait_for_internet_trace fuel w :
  ∃ ev, trace (wait_for_internet net self fuel w).2 = trace w ++ ev
        ∧ forallb quiet ev = true.
Proof.
  revert w. induction fuel as [|fuel IH]; intros w.
  { exists []. by rewrite app_nil_r. }
  cbn [wait_for_internet]. unfold _check_internet.
  destruct (ping_reply net (pings_sent (trace w))) as [|e].
  { by exists [EvPing]. }
  destruct (is_ConnectionError e); [|by exists [EvPing]].
  cbn zeta. unfold sleep. destruct (retry_delay self <? 0).
  { exists [EvPing; EvLog WARNING MsgNoInternet]. cbn. rewrite <- !app_assoc. done. }
  destruct (IH (emit (EvSleep (retry_delay self))
                  (_log MsgNoInternet WARNING (emit EvPing w))))
    as (ev & -> & Hq).
  exists ([EvPing; EvLog WARNING MsgNoInternet; EvSleep (retry_delay self)] ++ ev).
  cbn. rewrite <- !app_assoc. done.
Qed.

(** The gate opens as soon as a probe is answered: with [k] failed probes
    ahead and then an answer, any fuel above [k] is enough, and the world
    it leaves does not depend on the fuel.  The sleep between two probes
    takes a delay that is not negative. *)
Lemma wait_for_internet_returns k w :
  (k = 0%nat ∨ 0 <= retry_delay self) →
  (∀ j, (j < k)%nat → ∃ e, ping_reply net (pings_sent (trace w) + j) = PingRaises e
                           ∧ is_ConnectionError e = true) →
  ping_reply net (pings_sent (trace w) + k) = PingAnswered →
  ∃ w', ∀ fuel, (k < fuel)%nat → wait_for_internet net self fuel w = (Ret tt, w').
Proof.
  revert w. induction k as [|k IH]; intros w Hdelay Hdown Hup.
  - exists (emit EvPing w). intros fuel Hfuel.
    destruct fuel as [|fuel]; [lia|]. cbn [wait_for_internet]. unfold _check_internet.
    rewrite Nat.add_0_r in Hup. by rewrite Hup.
  - destruct Hdelay as [|Hdelay]; [done|].
    destruct (Hdown 0%nat) as (e & He & Hc); [lia|].
    rewrite Nat.add_0_r in He.
    destruct (IH (emit (EvSleep (retry_delay self))
                    (_log MsgNoInternet WARNING (emit EvPing w))))
      as (w' & Hw').
    + by right.
    + intros j Hj. destruct (Hdown (S j)) as (e' & He' & Hc'); [lia|].
      exists e'. split; [|done]. rewrite <- He'. f_equal.
      unfold _log. rewrite !trace_emit, !pings_sent_app. cbn. lia.
    + rewrite <- Hup. f_equal.
      unfold _log. rewrite !trace_emit, !pings_sent_app. cbn. lia.
    + exists w'. intros fuel Hfuel. destruct fuel as [|fuel]; [lia|].
      cbn [wait_for_internet]. unfold _check_internet. rewrite He, Hc.
      cbn zeta. rewrite sleep_some by done. apply Hw'. lia.
Qed.

(** When the gate opens, the last thing that happened is an answered probe. *)
Lemma wait_for_internet_answered fuel w w' :
  wait_for_internet net self fuel w = (Ret tt, w') →
  ∃ t, trace w' = t ++ [EvPing] ∧ ping_reply net (pings_sent t) = PingAnswered.
Proof.
  revert w. induction fuel as [|fuel IH]; intros w; [done|].
  cbn [wait_for_internet]. unfold _check_internet.
  destruct (ping_reply net (pings_sent (trace w))) as [|e] eqn:Hp.
  - intros [= <-]. by exists (trace w).
  - destruct (is_ConnectionError e); [|done].
    cbn zeta. destruct (sleep _ _); [apply IH|done].
Qed.

Lemma wait_for_internet_no_escape fuel w :
  0 <= retry_delay self →
  pings_never_escape net →
  ∀ e, (wait_for_internet net self fuel w).1 ≠ Raise e.
Proof.
  intros Hdelay Hp. revert w. induction fuel as [|fuel IH]; intros w e; [done|].
  cbn [wait_for_internet]. unfold _check_internet.
  specialize (Hp (pings_sent (trace w))).
  destruct (ping_reply net (pings_sent (trace w))) as [|e']; [done|].
  rewrite Hp. cbn zeta. rewrite sleep_some by done. apply IH.
Qed.

Lemma first_answer i :
  pings_never_escape net → connectivity_returns net →
  ∃ k, ping_reply net (i + k) = PingAnswered
       ∧ ∀ j, (j < k)%nat → ∃ e, ping_reply net (i + j) = PingRaises e
                                 ∧ is_ConnectionError e = true.
Proof.
  intros Hesc Hret. destruct (Hret i) as (j & Hij & Hj).
  assert (∃ d, j = (i + d)%nat) as [d ->] by (exists (j - i)%nat; lia).
  clear Hij. revert i Hj. induction d as [|d IH]; intros i Hj.
  - exists 0%nat. split; [done|]. intros; lia.
  - destruct (ping_reply net i) as [|e] eqn:Hi.
    + exists 0%nat. rewrite Nat.add_0_r. split; [done|]. intros; lia.
    + destruct (IH (S i)) as (k & Hk & Hlt).
      { rewrite <- Hj. f_equal. lia. }
      exists (S k). split.
      { rewrite <- Hk. f_equal. lia. }
      intros [|j'] Hj'.
      * exists e. rewrite Nat.add_0_r. split; [done|].
        specialize (Hesc i). by rewrite Hi in Hesc.
      * destruct (Hlt j') as (e' & He' & Hc'); [lia|].
        exists e'. split; [|done]. rewrite <- He'. f_equal. lia.
Qed.

Lemma on_connection_lost_frame fuel filename fr w :
  let '(r, fr', w') := on_connection_lost net self fuel filename fr w in
  retries fr' = retries fr
  ∧ (r = Ret tt →
     start_bytes fr' = _get_existing_download_size filename true w'
     ∧ headers fr' = Some (_get_existing_download_size filename true w')).
Proof.
  unfold on_connection_lost.
  destruct (wait_for_internet net self fuel _) as [[[]|e|] w']; cbn; by split.
Qed.

Lemma on_connection_lost_store fuel filename fr w :
  let w' := (on_connection_lost net self fuel filename fr w).2 in
  temp_dir w' = temp_dir w ∧ download_dir w' = download_dir w
  ∧ progress_bars w' = progress_bars w.
Proof.
  cbn zeta. unfold on_connection_lost.
  pose proof (wait_for_internet_store fuel
    (_log (MsgConnectionLost filename (retries fr) (max_retries self)) WARNING w)) as H.
  cbn zeta in H.
  destruct (wait_for_internet net self fuel _) as [[[]|e|] w']; cbn in *; done.
Qed.

Lemma on_connection_lost_trace fuel filename fr w :
  ∃ ev, trace (on_connection_lost net self fuel filename fr w).2 = trace w ++ ev
        ∧ forallb quiet ev = true.
Proof.
  unfold on_connection_lost.
  destruct (wait_for_internet_trace fuel
    (_log (MsgConnectionLost filename (retries fr) (max_retries self)) WARNING w))
    as (ev & H & Hq).
  destruct (wait_for_internet net self fuel _) as [[[]|e|] w']; cbn in *;
    rewrite H, <- app_assoc; eexists; (split; [done|]); done.
Qed.

(** *** One turn of the loop *)

Lemma retry_counted_classes e :
  retry_counted e = true →
  is_connection_lost e = false ∧ is_RequestException e = true.
Proof. unfold retry_counted. by destruct e. Qed.

Lemma handle_exception_counts fuel filename e fr w :
  retry_counted e = true →
  0 <= retry_delay self →
  handle_exception net self fuel filename e fr w
  = Next (Frame (start_bytes fr) (headers fr) (retries fr + 1))
      (emit (EvSleep (retry_delay self))
         (_log (MsgError filename e (retries fr + 1) (max_retries self)) ERROR w)).
Proof.
  intros [Hc Hr]%retry_counted_classes Hdelay. unfold handle_exception.
  rewrite Hc, Hr. unfold on_request_exception. by rewrite sleep_some.
Qed.

(** With a negative delay the sleep of line 122 raises, and the
    [ValueError] leaves the function. *)
Lemma handle_exception_bad_delay fuel filename e fr w :
  retry_counted e = true →
  retry_delay self < 0 →
  handle_exception net self fuel filename e fr w
  = Stop (Raise ValueError) (Frame (start_bytes fr) (headers fr) (retries fr + 1))
      (_log (MsgError filename e (retries fr + 1) (max_retries self)) ERROR w).
Proof.
  intros [Hc Hr]%retry_counted_classes Hdelay. unfold handle_exception.
  rewrite Hc, Hr. unfold on_request_exception. by rewrite sleep_none.
Qed.

Lemma handle_exception_trace fuel filename e fr w :
  ∃ ev, trace (step_world (handle_exception net self fuel filename e fr w))
        = trace w ++ ev
        ∧ forallb quiet ev = true.
Proof.
  unfold handle_exception. destruct (is_connection_lost e).
  - destruct (on_connection_lost_trace fuel filename fr w) as (ev & H & Hq).
    destruct (on_connection_lost net self fuel filename fr w) as [[[[]|e'|] fr'] w'];
      cbn in *; eauto.
  - destruct (is_RequestException e).
    + unfold on_request_exception, sleep. destruct (retry_delay self <? 0); cbn.
      * eauto.
      * rewrite <- app_assoc. eauto.
    + exists []. by rewrite app_nil_r.
Qed.

Lemma handle_exception_store fuel filename e fr w :
  let w' := step_world (handle_exception net self fuel filename e fr w) in
  temp_dir w' = temp_dir w ∧ download_dir w' = download_dir w
  ∧ progress_bars w' = progress_bars w.
Proof.
  cbn zeta. unfold handle_exception. destruct (is_connection_lost e).
  - pose proof (on_connection_lost_store fuel filename fr w) as H. cbn zeta in H.
    by destruct (on_connection_lost net self fuel filename fr w) as [[[[]|e'|] fr'] w'].
  - destruct (is_RequestException e); [|done].
    unfold on_request_exception, sleep. by destruct (retry_delay self <? 0).
Qed.

Lemma loop_body_trace fuel url filename total_size fr w :
  ∃ ev, trace (step_world (loop_body net self fuel url filename total_size fr w))
        = trace w ++ EvGet url (headers fr) :: ev
        ∧ forallb quiet ev = true.
Proof.
  unfold loop_body.
  destruct (try_fetch_trace url filename total_size fr w) as (ev & H & Hq).
  destruct (try_fetch net url filename total_size fr w) as [[[[]|e|] fr1] w1];
    cbn [fst snd] in H; cbn [step_world]; eauto.
  destruct (handle_exception_trace fuel filename e fr1 w1) as (ev' & H' & Hq').
  exists (ev ++ ev'). rewrite H', H, <- app_assoc. split; [done|].
  by rewrite forallb_app, Hq, Hq'.
Qed.

Lemma loop_body_bars_dom fuel url filename total_size fr w :
  dom (progress_bars (step_world (loop_body net self fuel url filename total_size fr w)))
  = dom (progress_bars w).
Proof.
  unfold loop_body.
  pose proof (try_fetch_bars_dom url filename total_size fr w) as H.
  destruct (try_fetch net url filename total_size fr w) as [[[[]|e|] fr1] w1];
    cbn [fst snd] in H; cbn [step_world]; try done.
  destruct (handle_exception_store fuel filename e fr1 w1) as (_ & _ & ->). done.
Qed.

Lemma loop_body_gets fuel url filename total_size fr w :
  gets_sent url (trace (step_world (loop_body net self fuel url filename total_size fr w)))
  = S (gets_sent url (trace w)).
Proof.
  destruct (loop_body_trace fuel url filename total_size fr w) as (ev & -> & Hq).
  rewrite gets_sent_app. change (EvGet url (headers fr) :: ev)
    with ([EvGet url (headers fr)] ++ ev).
  rewrite gets_sent_app, (gets_sent_quiet _ _ Hq).
  unfold gets_sent at 2. cbn. rewrite bool_decide_eq_true_2 by done. cbn. lia.
Qed.

(** A failure of the counted kind: the turn ends back at the loop
    condition with one more retry. *)
Lemma loop_body_counts fuel url filename total_size fr w e :
  attempt_raises (get_reply net url (gets_sent url (trace w)) (headers fr)) e →
  retry_counted e = true →
  is_Some (progress_bars w !! filename) →
  0 <= retry_delay self →
  let t := try_fetch net url filename total_size fr w in
  loop_body net self fuel url filename total_size fr w
  = Next (Frame (start_bytes t.1.2) (headers t.1.2) (retries fr + 1))
      (emit (EvSleep (retry_delay self))
         (_log (MsgError filename e (retries fr + 1) (max_retries self)) ERROR t.2)).
Proof.
  intros Ha Hc Hb Hdelay. cbn zeta. unfold loop_body.
  pose proof (try_fetch_raises url filename total_size fr w e Ha Hb) as Hr.
  pose proof (try_fetch_retries url filename total_size fr w) as Hn.
  destruct (try_fetch net url filename total_size fr w) as [[r fr1] w1].
  cbn [fst snd] in *. subst r. rewrite handle_exception_counts by done. by rewrite Hn.
Qed.

Lemma loop_body_bad_delay fuel url filename total_size fr w e :
  attempt_raises (get_reply net url (gets_sent url (trace w)) (headers fr)) e →
  retry_counted e = true →
  is_Some (progress_bars w !! filename) →
  retry_delay self < 0 →
  let t := try_fetch net url filename total_size fr w in
  loop_body net self fuel url filename total_size fr w
  = Stop (Raise ValueError)
      (Frame (start_bytes t.1.2) (headers t.1.2) (retries fr + 1))
      (_log (MsgError filename e (retries fr + 1) (max_retries self)) ERROR t.2).
Proof.
  intros Ha Hc Hb Hdelay. cbn zeta. unfold loop_body.
  pose proof (try_fetch_raises url filename total_size fr w e Ha Hb) as Hr.
  pose proof (try_fetch_retries url filename total_size fr w) as Hn.
  destruct (try_fetch net url filename total_size fr w) as [[r fr1] w1].
  cbn [fst snd] in *. subst r. rewrite handle_exception_bad_delay by done. by rewrite Hn.
Qed.

(** *** The whole loop *)

Lemma quiet_no_submit ev : forallb quiet ev = true → forallb no_submit ev = true.
Proof.
  induction ev as [|e ev IH]; [done|]. cbn [forallb]. intros [He Ht]%andb_prop.
  rewrite IH by done. by destruct e.
Qed.

Lemma download_loop_trace fuel url filename total_size fr w :
  ∃ ev, trace (download_loop net self fuel url filename total_size fr w).2
        = trace w ++ ev
        ∧ forallb no_submit ev = true.
Proof.
  revert fr w. induction fuel as [|fuel IH]; intros fr w.
  { exists []. by rewrite app_nil_r. }
  cbn [download_loop]. destruct (retries fr <=? max_retries self).
  - destruct (loop_body_trace fuel url filename total_size fr w) as (ev & H & Hq).
    apply quiet_no_submit in Hq.
    destruct (loop_body net self fuel url filename total_size fr w) as [fr1 w1|r fr1 w1];
      cbn [step_world] in H.
    + destruct (IH fr1 w1) as (ev' & -> & Hq'). rewrite H, <- app_assoc.
      eexists. split; [done|]. cbn. by rewrite forallb_app, Hq, Hq'.
    + cbn [snd]. eauto.
  - cbn. eauto.
Qed.

Lemma download_loop_bars_dom fuel url filename total_size fr w :
  dom (progress_bars (download_loop net self fuel url filename total_size fr w).2)
  = dom (progress_bars w).
Proof.
  revert fr w. induction fuel as [|fuel IH]; intros fr w; [done|].
  cbn [download_loop]. destruct (retries fr <=? max_retries self); [|done].
  pose proof (loop_body_bars_dom fuel url filename total_size fr w) as H.
  destruct (loop_body net self fuel url filename total_size fr w) as [fr1 w1|r fr1 w1];
    cbn [step_world] in H; [|done].
  by rewrite IH.
Qed.

Lemma bar_stays (w w' : world) (filename : string) :
  dom (progress_bars w') = dom (progress_bars w) →
  is_Some (progress_bars w !! filename) →
  is_Some (progress_bars w' !! filename).
Proof. intros Hd. rewrite <- !elem_of_dom. by rewrite Hd. Qed.

(** A target all of whose attempts fail in the counted way: the loop ends
    at the line after it, after as many requests as retries were left. *)
Lemma download_loop_exhausts url filename total_size :
  0 <= retry_delay self →
  (∀ i h, ∃ e, attempt_raises (get_reply net url i h) e ∧ retry_counted e = true) →
  ∀ (n fuel : nat) fr w,
    is_Some (progress_bars w !! filename) →
    retries fr + Z.of_nat n = max_retries self + 1 →
    (n < fuel)%nat →
    ∃ fr' w',
      download_loop net self fuel url filename total_size fr w = (Ret Failed, fr', w')
      ∧ retries fr' = max_retries self + 1
      ∧ gets_sent url (trace w') = (gets_sent url (trace w) + n)%nat.
Proof.
  intros Hdelay Hfail n. induction n as [|n IH]; intros fuel fr w Hb Hr Hfuel.
  - destruct fuel as [|fuel]; [lia|]. cbn [download_loop].
    rewrite (proj2 (Z.leb_gt _ _)) by lia.
    eexists _, _. split; [done|]. split; [lia|].
    unfold _log. rewrite trace_emit, gets_sent_app. by cbn.
  - destruct fuel as [|fuel]; [lia|]. cbn [download_loop].
    rewrite (proj2 (Z.leb_le _ _)) by lia.
    destruct (Hfail (gets_sent url (trace w)) (headers fr)) as (e & Ha & Hc).
    pose proof (loop_body_gets fuel url filename total_size fr w) as Hg.
    pose proof (loop_body_bars_dom fuel url filename total_size fr w) as Hd.
    rewrite (loop_body_counts fuel _ _ _ _ _ _ Ha Hc Hb Hdelay) in *.
    cbn [step_world] in Hg, Hd.
    edestruct IH as (fr' & w' & -> & Hr' & Hg'); [| |shelve|].
    + eapply bar_stays; [exact Hd|done].
    + cbn. lia.
    + eexists _, _. split; [done|]. split; [done|]. rewrite Hg', Hg. lia.
  Unshelve. lia.
Qed.

(** With less fuel than retries left, the same target is still in the
    loop. *)
Lemma download_loop_pending url filename total_size :
  0 <= retry_delay self →
  (∀ i h, ∃ e, attempt_raises (get_reply net url i h) e ∧ retry_counted e = true) →
  ∀ (n fuel : nat) fr w,
    is_Some (progress_bars w !! filename) →
    retries fr + Z.of_nat n = max_retries self + 1 →
    (fuel ≤ n)%nat →
    (download_loop net self fuel url filename total_size fr w).1.1 = OutOfFuel.
Proof.
  intros Hdelay Hfail n. induction n as [|n IH]; intros fuel fr w Hb Hr Hfuel.
  - by replace fuel with 0%nat by lia.
  - destruct fuel as [|fuel]; [done|]. cbn [download_loop].
    rewrite (proj2 (Z.leb_le _ _)) by lia.
    destruct (Hfail (gets_sent url (trace w)) (headers fr)) as (e & Ha & Hc).
    pose proof (loop_body_bars_dom fuel url filename total_size fr w) as Hd.
    rewrite (loop_body_counts fuel _ _ _ _ _ _ Ha Hc Hb Hdelay) in *.
    cbn [step_world] in Hd. apply IH.
    + eapply bar_stays; [exact Hd|done].
    + cbn. lia.
    + lia.
Qed.

(** *** A target that only ever loses the connection *)

Lemma on_connection_lost_no_escape fuel filename fr w :
  0 <= retry_delay self →
  pings_never_escape net →
  ∀ e, (on_connection_lost net self fuel filename fr w).1.1 ≠ Raise e.
Proof.
  intros Hdelay Hp e. unfold on_connection_lost.
  pose proof (wait_for_internet_no_escape fuel
    (_log (MsgConnectionLost filename (retries fr) (max_retries self)) WARNING w)
    Hdelay Hp) as H.
  destruct (wait_for_internet net self fuel _) as [[[]|e'|] w']; cbn in *; done.
Qed.

Lemma loop_body_reconnects fuel url filename total_size fr w e :
  attempt_raises (get_reply net url (gets_sent url (trace w)) (headers fr)) e →
  is_connection_lost e = true →
  is_Some (progress_bars w !! filename) →
  let t := try_fetch net url filename total_size fr w in
  loop_body net self fuel url filename total_size fr w
  = match on_connection_lost net self fuel filename t.1.2 t.2 with
    | (Ret _, fr, w) => Next fr w
    | (Raise e', fr, w) => Stop (Raise e') fr w
    | (OutOfFuel, fr, w) => Stop OutOfFuel fr w
    end.
Proof.
  intros Ha Hc Hb. cbn zeta. unfold loop_body.
  pose proof (try_fetch_raises url filename total_size fr w e Ha Hb) as Hr.
  destruct (try_fetch net url filename total_size fr w) as [[r fr1] w1].
  cbn [fst snd] in *. subst r. unfold handle_exception. by rewrite Hc.
Qed.

Lemma loop_body_turn fuel url filename total_size fr w fr' w' :
  connection_lost_always net url →
  is_Some (progress_bars w !! filename) →
  loop_body net self fuel url filename total_size fr w = Next fr' w' →
  retries fr' = retries fr
  ∧ start_bytes fr' = _get_existing_download_size filename true w'
  ∧ headers fr' = Some (_get_existing_download_size filename true w')
  ∧ ∃ t, trace w' = t ++ [EvPing] ∧ ping_reply net (pings_sent t) = PingAnswered.
Proof.
  intros Hlost Hb.
  destruct (Hlost (gets_sent url (trace w)) (headers fr)) as (e & Ha & Hc).
  rewrite (loop_body_reconnects fuel _ _ _ _ _ _ Ha Hc Hb).
  pose proof (try_fetch_retries url filename total_size fr w) as Hn.
  destruct (try_fetch net url filename total_size fr w) as [[r fr1] w1].
  cbn [fst snd] in *. unfold on_connection_lost.
  destruct (wait_for_internet net self fuel _) as [[[]|e'|] w2] eqn:Hw; try done.
  intros [= <- <-]. cbn [retries start_bytes headers]. repeat split; try done.
  by eapply wait_for_internet_answered.
Qed.

(** A turn that hands back to the loop condition leaves the temporary
    directory as the [try] body left it. *)
Lemma loop_body_temp fuel url filename total_size fr w fr' w' :
  loop_body net self fuel url filename total_size fr w = Next fr' w' →
  temp_dir w' = temp_dir (try_fetch net url filename total_size fr w).2.
Proof.
  unfold loop_body.
  destruct (try_fetch net url filename total_size fr w) as [[[[]|e|] fr1] w1];
    cbn [fst snd]; try done.
  destruct (handle_exception_store fuel filename e fr1 w1) as (Ht & _).
  destruct (handle_exception net self fuel filename e fr1 w1) as [fr2 w2|r fr2 w2];
    cbn [step_world] in Ht; [|done].
  by intros [= <- <-].
Qed.

Lemma download_loop_never_counts url filename total_size :
  connection_lost_always net url →
  ∀ fuel fr w,
    is_Some (progress_bars w !! filename) →
    retries fr <= max_retries self →
    let run := download_loop net self fuel url filename total_size fr w in
    retries run.1.2 = retries fr
    ∧ (∀ x, run.1.1 ≠ Ret x)
    ∧ (0 <= retry_delay self → pings_never_escape net → run.1.1 = OutOfFuel).
Proof.
  intros Hlost fuel. cbn zeta. induction fuel as [|fuel IH]; intros fr w Hb Hr; [done|].
  cbn [download_loop]. rewrite (proj2 (Z.leb_le _ _)) by done.
  destruct (Hlost (gets_sent url (trace w)) (headers fr)) as (e & Ha & Hc).
  rewrite (loop_body_reconnects fuel _ _ _ _ _ _ Ha Hc Hb).
  pose proof (try_fetch_retries url filename total_size fr w) as Hn.
  pose proof (try_fetch_bars_dom url filename total_size fr w) as Hd.
  destruct (try_fetch net url filename total_size fr w) as [[r fr1] w1].
  cbn [fst snd] in *.
  pose proof (on_connection_lost_frame fuel filename fr1 w1) as Hf.
  pose proof (on_connection_lost_store fuel filename fr1 w1) as (_ & _ & Hs).
  pose proof (on_connection_lost_no_escape fuel filename fr1 w1) as Hesc.
  destruct (on_connection_lost net self fuel filename fr1 w1) as [[[[]|e'|] fr2] w2];
    cbn [fst snd] in *; destruct Hf as [Hf _].
  - destruct (IH fr2 w2) as (H1 & H2 & H3).
    + eapply bar_stays; [|exact Hb]. by rewrite Hs, Hd.
    + lia.
    + split; [lia|done].
  - split; [lia|]. split; [done|]. intros Hdelay Hp. by destruct (Hesc Hdelay Hp e').
  - split; [lia|done].
Qed.

Lemma download_loop_gets_le fuel url filename total_size fr w :
  (gets_sent url (trace w)
   ≤ gets_sent url (trace (download_loop net self fuel url filename total_size fr w).2))%nat.
Proof.
  destruct (download_loop_trace fuel url filename total_size fr w) as (ev & -> & _).
  rewrite gets_sent_app. lia.
Qed.

Lemma download_loop_keeps_trying url filename total_size :
  0 <= retry_delay self →
  connection_lost_always net url →
  pings_never_escape net → connectivity_returns net →
  ∀ (n : nat) fr w,
    is_Some (progress_bars w !! filename) →
    retries fr <= max_retries self →
    ∃ fuel0, ∀ fuel, (fuel0 ≤ fuel)%nat →
      (gets_sent url (trace w) + n
       ≤ gets_sent url (trace (download_loop net self fuel url filename total_size fr w).2))%nat.
Proof.
  intros Hdelay Hlost Hesc Hret n. induction n as [|n IH]; intros fr w Hb Hr.
  { exists 0%nat. intros fuel _. rewrite Nat.add_0_r. apply download_loop_gets_le. }
  destruct (Hlost (gets_sent url (trace w)) (headers fr)) as (e & Ha & Hc).
  pose proof (try_fetch_retries url filename total_size fr w) as Hn.
  pose proof (try_fetch_bars_dom url filename total_size fr w) as Hd.
  pose proof (try_fetch_gets url filename total_size fr w) as Hg.
  pose proof (λ fuel, loop_body_reconnects fuel _ _ total_size _ _ _ Ha Hc Hb) as Hbody.
  destruct (try_fetch net url filename total_size fr w) as [[r fr1] w1].
  cbn [fst snd] in *.
  set (w1' := _log (MsgConnectionLost filename (retries fr1) (max_retries self)) WARNING w1).
  destruct (first_answer (pings_sent (trace w1')) Hesc Hret) as (k & Hup & Hdown).
  destruct (wait_for_internet_returns k w1' (or_intror Hdelay) Hdown Hup) as (w2 & Hw2).
  set (fr2 := Frame (_get_existing_download_size filename true w2)
                (Some (_get_existing_download_size filename true w2)) (retries fr1)).
  assert (progress_bars w2 = progress_bars w1 ∧ gets_sent url (trace w2) = gets_sent url (trace w1))
    as [Hs Hg2].
  { pose proof (wait_for_internet_store (S k) w1') as (_ & _ & Hs).
    destruct (wait_for_internet_trace (S k) w1') as (ev & Ht & Hq).
    rewrite (Hw2 (S k)) in Hs, Ht by lia. cbn [snd] in *. split; [done|].
    rewrite Ht. subst w1'. unfold _log. rewrite trace_emit, !gets_sent_app.
    rewrite (gets_sent_quiet _ _ Hq), (gets_sent_quiet url [_]) by done. lia. }
  destruct (IH fr2 w2) as (f2 & Hf2).
  { eapply bar_stays; [|exact Hb]. by rewrite Hs, Hd. }
  { subst fr2. cbn. lia. }
  exists (S (Nat.max (S k) f2)). intros fuel Hfuel.
  destruct fuel as [|fuel]; [lia|]. cbn [download_loop].
  rewrite (proj2 (Z.leb_le _ _)) by done. rewrite Hbody.
  unfold on_connection_lost. fold w1'. rewrite Hw2 by lia. fold fr2.
  specialize (Hf2 fuel). rewrite Hg2, Hg in Hf2. lia.
Qed.

Lemma download_loop_exit fuel url filename total_size fr w x :
  (download_loop net self fuel url filename total_size fr w).1.1 = Ret x →
  x = Completed ∨ x = Failed.
Proof.
  revert fr w. induction fuel as [|fuel IH]; intros fr w; [done|].
  cbn [download_loop]. destruct (retries fr <=? max_retries self).
  - unfold loop_body, handle_exception.
    destruct (try_fetch net url filename total_size fr w) as [[[[]|e|] fr1] w1].
    + cbn. intros [= <-]. by left.
    + destruct (is_connection_lost e).
      * destruct (on_connection_lost net self fuel filename fr1 w1)
          as [[[[]|e'|] fr2] w2]; [apply IH|done|done].
      * destruct (is_RequestException e); [|done].
        unfold on_request_exception. destruct (sleep _ _); [apply IH|done].
    + done.
  - cbn. intros [= <-]. by right.
Qed.

Lemma download_loop_sends fuel url filename total_size fr w :
  retries fr <= max_retries self →
  (gets_sent url (trace w)
   < gets_sent url (trace (download_loop net self (S fuel) url filename total_size fr w).2))%nat.
Proof.
  intros Hr. cbn [download_loop]. rewrite (proj2 (Z.leb_le _ _)) by done.
  pose proof (loop_body_gets fuel url filename total_size fr w) as Hg.
  destruct (loop_body net self fuel url filename total_size fr w) as [fr1 w1|r fr1 w1];
    cbn [step_world] in Hg.
  - pose proof (download_loop_gets_le fuel url filename total_size fr1 w1). lia.
  - cbn [snd]. lia.
Qed.

Lemma already_downloaded_spec filename total_size w :
  already_downloaded filename total_size w = true
  ↔ ∃ content, download_dir w !! filename = Some content ∧ size_of content = total_size.
Proof.
  unfold already_downloaded, _get_existing_download_size.
  rewrite andb_true_iff, bool_decide_eq_true, Z.eqb_eq.
  destruct (download_dir w !! filename) as [content|].
  - split; [intros [_ <-]; eauto|]. intros (c & [= <-] & <-). eauto.
  - split; [by intros [[] _]|]. by intros (c & [=] & _).
Qed.

(** *** The offset invariant of the loop *)

Lemma try_fetch_offset_within url filename total_size fr w :
  offset_within fr →
  offset_within (try_fetch net url filename total_size fr w).1.2.
Proof.
  intros Hin.
  try_fetch_cases url filename total_size fr w; cbn [fst snd]; try done.
  all: assert (offset_within fr1) as Hin1
    by (unfold renegotiate in E1; destruct (_ && _); by inversion E1; subst).
  3: done.
  all: pose proof (stream_body_frame filename chunks fr1 w1) as H2;
    rewrite E2 in H2; cbn [fst] in H2; subst fr2;
    unfold offset_within in *; cbn [headers start_bytes];
    destruct (headers fr1); [|done];
    pose proof (size_of_nonneg (concat chunks)); lia.
Qed.

Lemma loop_body_offset_within fuel url filename total_size fr w fr' w' :
  offset_within fr →
  loop_body net self fuel url filename total_size fr w = Next fr' w' →
  offset_within fr'.
Proof.
  intros Hin. unfold loop_body, handle_exception.
  pose proof (try_fetch_offset_within url filename total_size fr w Hin) as H1.
  destruct (try_fetch net url filename total_size fr w) as [[[[]|e|] fr1] w1];
    cbn [fst snd] in H1; try done.
  destruct (is_connection_lost e).
  - unfold on_connection_lost.
    destruct (wait_for_internet net self fuel _) as [[[]|e'|] w2]; try done.
    intros [= <- <-]. unfold offset_within. cbn. lia.
  - destruct (is_RequestException e); [|done].
    unfold on_request_exception. destruct (sleep _ _); [|done]. by intros [= <- <-].
Qed.

Lemma at_loop_head_offset_within url filename total_size fr w :
  at_loop_head net self url filename total_size fr w → offset_within fr.
Proof.
  induction 1 as [start w|fuel fr w fr' w' _ IH _ Hstep].
  - unfold offset_within, initial_frame. cbn. by destruct (0 <? start).
  - by eapply loop_body_offset_within.
Qed.

(** *** [download_file] *)

Lemma _get_file_size_effects url w :
  let w1 := (_get_file_size net url w).2 in
  temp_dir w1 = temp_dir w ∧ download_dir w1 = download_dir w
  ∧ progress_bars w1 = progress_bars w
  ∧ ∃ ev, trace w1 = trace w ++ ev ∧ forallb quiet ev = true.
Proof.
  cbn zeta. unfold _get_file_size.
  destruct (head_reply net url (heads_sent url (trace w))) as [e|status len].
  - destruct (is_RequestException e); cbn; repeat split; try done.
    + exists [EvHead url; EvLog WARNING (MsgSizeFailed url e)]. by rewrite <- app_assoc.
    + by exists [EvHead url].
  - destruct (is_error_status status); [|destruct len as [text|]]; cbn;
      repeat split; try done.
    + exists [EvHead url; EvLog WARNING (MsgSizeFailed url HTTPError)].
      by rewrite <- app_assoc.
    + by exists [EvHead url].
    + by exists [EvHead url].
Qed.

Lemma already_downloaded_store filename total_size w w' :
  download_dir w' = download_dir w →
  already_downloaded filename total_size w' = already_downloaded filename total_size w.
Proof.
  intros H. unfold already_downloaded, _get_existing_download_size. by rewrite H.
Qed.

(** Past the probe and the early return, [download_file] is its loop. *)
Lemma download_file_loop fuel url w total_size :
  (_get_file_size net url w).1 = Ret total_size →
  already_downloaded (basename url) total_size w = false →
  let w1 := (_get_file_size net url w).2 in
  let start := _get_existing_download_size (basename url) true w in
  let run := download_loop net self fuel url (basename url) total_size
               (initial_frame start)
               (_log (MsgStarting (basename url) total_size start) INFO w1) in
  download_file net self fuel url w = (run.1.1, run.2).
Proof.
  intros Hp Ha. cbn zeta. unfold download_file.
  destruct (_get_file_size_effects url w) as (Ht & Hd & Hb & _).
  destruct (_get_file_size net url w) as [r w1]. cbn [fst snd] in *. subst r.
  rewrite (already_downloaded_store _ _ w); [|by cbn].
  rewrite Ha.
  assert (_get_existing_download_size (basename url) true w1
          = _get_existing_download_size (basename url) true w) as ->.
  { unfold _get_existing_download_size. by rewrite Ht. }
  by destruct (download_loop _ _ _ _ _ _ _ _) as [[r fr] w'].
Qed.

Lemma ranges_sent_app url t1 t2 :
  ranges_sent url (t1 ++ t2) = ranges_sent url t1 ++ ranges_sent url t2.
Proof.
  induction t1 as [|e t1 IH]; [done|]. destruct e; cbn; try done.
  case_bool_decide; cbn; by rewrite IH.
Qed.

Lemma ranges_sent_quiet url t : forallb quiet t = true → ranges_sent url t = [].
Proof.
  induction t as [|e t IH]; [done|]. cbn [forallb]. intros [He Ht]%andb_prop.
  destruct e; try discriminate He; cbn; auto.
Qed.

Lemma download_loop_first_get fuel url filename total_size fr w :
  retries fr <= max_retries self →
  ∃ ev, trace (download_loop net self (S fuel) url filename total_size fr w).2
        = trace w ++ EvGet url (headers fr) :: ev.
Proof.
  intros Hr. cbn [download_loop]. rewrite (proj2 (Z.leb_le _ _)) by done.
  destruct (loop_body_trace fuel url filename total_size fr w) as (ev & H & _).
  destruct (loop_body net self fuel url filename total_size fr w) as [fr1 w1|r fr1 w1];
    cbn [step_world] in H; [|cbn [snd]; eauto].
  destruct (download_loop_trace fuel url filename total_size fr1 w1) as (ev' & -> & _).
  rewrite H, <- app_assoc. cbn. eauto.
Qed.

(** Past the probe and the early return, the first request carries the
    header line 84 computed. *)
Lemma download_file_first_get fuel url w total_size :
  (_get_file_size net url w).1 = Ret total_size →
  already_downloaded (basename url) total_size w = false →
  0 <= max_retries self →
  ∃ ev rest,
    trace (download_file net self (S fuel) url w).2 = trace w ++ ev
    ∧ ranges_sent url ev
      = headers (initial_frame (_get_existing_download_size (basename url) true w))
        :: rest.
Proof.
  intros Hp Ha Hmax.
  rewrite (download_file_loop (S fuel) url w total_size Hp Ha). cbn [snd].
  destruct (_get_file_size_effects url w) as (_ & _ & _ & ev0 & Hev0 & Hq0).
  edestruct download_loop_first_get as (ev & ->); [by cbn|].
  unfold _log. rewrite trace_emit, Hev0, <- !app_assoc.
  eexists _, _. split; [done|].
  rewrite !ranges_sent_app, (ranges_sent_quiet _ _ Hq0). cbn.
  by rewrite bool_decide_eq_true_2.
Qed.

Lemma try_fetch_ret_succeeds url filename total_size fr w :
  (try_fetch net url filename total_size fr w).1.1 = Ret tt →
  attempt_succeeds (get_reply net url (gets_sent url (trace w)) (headers fr)).
Proof. try_fetch_cases url filename total_size fr w; cbn [fst snd]; done. Qed.

Lemma try_fetch_keeps_final url filename total_size fr w :
  (try_fetch net url filename total_size fr w).1.1 ≠ Ret tt →
  download_dir (try_fetch net url filename total_size fr w).2 = download_dir w.
Proof.
  try_fetch_cases url filename total_size fr w; cbn [fst snd]; try done.
  all: pose proof (renegotiate_dirs filename status fr
                     (emit (EvGet url (headers fr)) w)) as [_ H1];
    rewrite E1 in H1; cbn [snd] in H1.
  3: { by rewrite H1. }
  all: pose proof (stream_body_download_dir filename chunks fr1 w1) as H2;
    rewrite E2 in H2; cbn [snd] in H2.
  - by rewrite H2, H1.
  - unfold finalize, os_replace in E3. destruct (temp_dir w2 !! filename).
    + inversion E3. by subst.
    + inversion E3. subst. by rewrite H2, H1.
Qed.

(** The loop returns [Completed] only from a request that was answered
    to its end, and that request is the last one it sent. *)
Lemma download_loop_completed fuel url filename total_size fr w :
  (download_loop net self fuel url filename total_size fr w).1.1 = Ret Completed →
  ∃ before h after,
    trace (download_loop net self fuel url filename total_size fr w).2
    = trace w ++ before ++ EvGet url h :: after
    ∧ forallb quiet after = true
    ∧ attempt_succeeds (get_reply net url (gets_sent url (trace w ++ before)) h).
Proof.
  revert fr w. induction fuel as [|fuel IH]; intros fr w; [done|].
  cbn [download_loop]. destruct (retries fr <=? max_retries self); [|done].
  pose proof (loop_body_trace fuel url filename total_size fr w) as (ev & Hev & Hq).
  revert Hev. unfold loop_body.
  pose proof (try_fetch_ret_succeeds url filename total_size fr w) as Hs.
  destruct (try_fetch net url filename total_size fr w) as [[[[]|e|] fr1] w1];
    cbn [fst snd] in Hs.
  - cbn [step_world fst snd]. intros Hev _. exists [], (headers fr), ev.
    rewrite app_nil_r. cbn. auto.
  - destruct (handle_exception net self fuel filename e fr1 w1) as [fr2 w2|r fr2 w2] eqn:E.
    + cbn [step_world]. intros Hev Hc.
      destruct (IH fr2 w2 Hc) as (before & h & after & Ht & Hqa & Hok).
      exists (EvGet url (headers fr) :: ev ++ before), h, after.
      split; [|split; [done|]].
      * rewrite Ht, Hev. cbn. by rewrite <- !app_assoc.
      * rewrite Hev in Hok. cbn in Hok. rewrite <- !app_assoc in Hok. exact Hok.
    + cbn. intros _ ->. revert E. unfold handle_exception.
      destruct (is_connection_lost e).
      * by destruct (on_connection_lost net self fuel filename fr1 w1)
          as [[[[]|e'|] fr3] w3].
      * destruct (is_RequestException e); [|done].
        unfold on_request_exception. by destruct (sleep _ _).
  - done.
Qed.

Lemma download_loop_keeps_final fuel url filename total_size fr w :
  (download_loop net self fuel url filename total_size fr w).1.1 ≠ Ret Completed →
  download_dir (download_loop net self fuel url filename total_size fr w).2
  = download_dir w.
Proof.
  revert fr w. induction fuel as [|fuel IH]; intros fr w; [done|].
  cbn [download_loop]. destruct (retries fr <=? max_retries self); [|done].
  unfold loop_body.
  pose proof (try_fetch_keeps_final url filename total_size fr w) as Hk.
  destruct (try_fetch net url filename total_size fr w) as [[[[]|e|] fr1] w1];
    cbn [fst snd] in Hk.
  - done.
  - destruct (handle_exception_store fuel filename e fr1 w1) as (_ & Hd & _).
    destruct (handle_exception net self fuel filename e fr1 w1) as [fr2 w2|r fr2 w2];
      cbn [step_world] in Hd.
    + intros H. rewrite (IH _ _ H), Hd. by apply Hk.
    + intros _. cbn [snd]. rewrite Hd. by apply Hk.
  - intros _. by apply Hk.
Qed.

(** A target the server turns down with an error status each time: the
    loop gives up after the retries that were left, and nothing on disk or
    in the bars has changed. *)
Lemma download_loop_rejected url filename total_size :
  0 <= retry_delay self →
  ∀ (n fuel : nat) fr w,
    (∀ i, ∃ status chunks broken,
       get_reply net url i (headers fr) = GetResponse status chunks broken
       ∧ is_error_status status = true) →
    retries fr + Z.of_nat n = max_retries self + 1 →
    (n < fuel)%nat →
    ∃ fr' w',
      download_loop net self fuel url filename total_size fr w = (Ret Failed, fr', w')
      ∧ temp_dir w' = temp_dir w ∧ download_dir w' = download_dir w
      ∧ progress_bars w' = progress_bars w
      ∧ gets_sent url (trace w') = (gets_sent url (trace w) + n)%nat.
Proof.
  intros Hdelay n. induction n as [|n IH]; intros fuel fr w Hrej Hr Hfuel.
  - destruct fuel as [|fuel]; [lia|]. cbn [download_loop].
    rewrite (proj2 (Z.leb_gt _ _)) by lia.
    eexists _, _. split; [done|]. repeat split.
    unfold _log. rewrite trace_emit, gets_sent_app, (gets_sent_quiet url [_]) by done. lia.
  - destruct fuel as [|fuel]; [lia|]. cbn [download_loop].
    rewrite (proj2 (Z.leb_le _ _)) by lia.
    destruct (Hrej (gets_sent url (trace w))) as (status & chunks & broken & Hreply & Hs).
    unfold loop_body, try_fetch. rewrite Hreply, Hs.
    unfold handle_exception. cbn [is_connection_lost is_ConnectionError is_RequestException].
    unfold on_request_exception. rewrite sleep_some by done.
    edestruct (IH fuel) as (fr' & w' & -> & Ht & Hd & Hb & Hg); [exact Hrej|..].
    + cbn. lia.
    + lia.
    + eexists _, _. split; [done|]. rewrite Ht, Hd, Hb, Hg. repeat split.
      unfold _log. rewrite !trace_emit. unfold gets_sent.
      rewrite !List.filter_app, !length_app. cbn.
      rewrite bool_decide_eq_true_2 by done. cbn. lia.
Qed.

(** *** The batch *)

Lemma submitted_app t1 t2 : submitted (t1 ++ t2) = submitted t1 ++ submitted t2.
Proof.
  induction t1 as [|e t1 IH]; [done|]. destruct e; cbn; by rewrite ?IH.
Qed.

Lemma submitted_no_submit t : forallb no_submit t = true → submitted t = [].
Proof.
  induction t as [|e t IH]; [done|]. cbn [forallb]. intros [He Ht]%andb_prop.
  destruct e; try discriminate He; cbn; auto.
Qed.

Lemma download_file_trace fuel url w :
  ∃ ev, trace (download_file net self fuel url w).2 = trace w ++ ev
        ∧ forallb no_submit ev = true.
Proof.
  unfold download_file.
  destruct (_get_file_size_effects url w) as (_ & _ & _ & ev0 & Hev0 & Hq0%quiet_no_submit).
  destruct (_get_file_size net url w) as [[total|e|] w1]; cbn [snd] in *; eauto.
  destruct (already_downloaded _ _ _).
  - destruct (progress_bars _ !! _); cbn; rewrite Hev0, <- !app_assoc;
      (eexists; split; [done|]); rewrite forallb_app, Hq0; done.
  - destruct (download_loop_trace fuel url (basename url) total
                (initial_frame (_get_existing_download_size (basename url) true w1))
                (_log (MsgStarting (basename url) total
                         (_get_existing_download_size (basename url) true w1)) INFO w1))
      as (ev & H & Hq).
    destruct (download_loop _ _ _ _ _ _ _ _) as [[r fr] w']. cbn [snd] in *.
    rewrite H. unfold _log. rewrite trace_emit, Hev0, <- !app_assoc.
    eexists. split; [done|]. rewrite forallb_app, Hq0. cbn. done.
Qed.

Lemma download_file_bars_dom fuel url w :
  dom (progress_bars (download_file net self fuel url w).2) = dom (progress_bars w).
Proof.
  unfold download_file.
  destruct (_get_file_size_effects url w) as (_ & _ & Hb & _).
  destruct (_get_file_size net url w) as [[total|e|] w1]; cbn [snd] in *;
    [|by rewrite Hb..].
  destruct (already_downloaded _ _ _).
  - destruct (progress_bars _ !! _); cbn; by rewrite ?dom_alter_L, Hb.
  - pose proof (download_loop_bars_dom fuel url (basename url) total
                (initial_frame (_get_existing_download_size (basename url) true w1))
                (_log (MsgStarting (basename url) total
                         (_get_existing_download_size (basename url) true w1)) INFO w1))
      as H.
    destruct (download_loop _ _ _ _ _ _ _ _) as [[r fr] w']. cbn [snd] in *.
    rewrite H. cbn. by rewrite Hb.
Qed.

(** A healthy target is done after one request at most. *)
Lemma download_file_healthy fuel url w :
  healthy net url →
  is_Some (progress_bars w !! basename url) →
  0 <= max_retries self →
  ∃ x ev,
    (download_file net self (S fuel) url w).1 = Ret x
    ∧ trace (download_file net self (S fuel) url w).2 = trace w ++ ev
    ∧ (x = Completed ∧ EvLog INFO (MsgCompleted (basename url)) ∈ ev
       ∨ x = AlreadyDownloaded ∧ EvLog INFO (MsgAlreadyDownloaded (basename url)) ∈ ev).
Proof.
  intros [Hhead Hget] [n Hn] Hmax.
  assert (∃ total, (_get_file_size net url w).1 = Ret total) as [total Hp].
  { unfold _get_file_size. specialize (Hhead (heads_sent url (trace w))).
    destruct (head_reply net url (heads_sent url (trace w))) as [e|status len].
    - rewrite Hhead. eauto.
    - destruct (is_error_status status); [eauto|].
      destruct Hhead as [|Hlen]; [done|].
      destruct len as [[n0|]|]; cbn; eauto. done. }
  destruct (_get_file_size_effects url w) as (Ht & Hd & Hb & ev0 & Hev0 & Hq0).
  destruct (already_downloaded (basename url) total w) eqn:Ha.
  - exists AlreadyDownloaded. unfold download_file.
    destruct (_get_file_size net url w) as [r w1]. cbn [fst snd] in *. subst r.
    rewrite (already_downloaded_store _ _ w); [|by cbn]. rewrite Ha.
    cbn [progress_bars _log emit]. rewrite Hb, Hn. cbn.
    eexists. split; [done|]. rewrite Hev0, <- !app_assoc. split; [done|].
    right. split; [done|]. set_solver.
  - exists Completed.
    rewrite (download_file_loop (S fuel) url w total Hp Ha). cbn [fst snd].
    set (k := _get_existing_download_size (basename url) true w).
    set (w1 := _log (MsgStarting (basename url) total k) INFO (_get_file_size net url w).2).
    assert (progress_bars w1 !! basename url = Some n) as Hn1.
    { subst w1. cbn. by rewrite Hb. }
    specialize (Hget (gets_sent url (trace w1)) (headers (initial_frame k))).
    destruct (get_reply net url (gets_sent url (trace w1)) (headers (initial_frame k)))
      as [e|status chunks broken] eqn:Hr; [done|].
    destruct Hget as [Hs ->].
    destruct (try_fetch_streamed url (basename url) total (initial_frame k) w1
                status chunks None n Hr Hs Hn1) as (_ & Htr & Hret & _).
    cbn [download_loop]. rewrite (proj2 (Z.leb_le _ _)) by done.
    unfold loop_body.
    destruct (try_fetch net url (basename url) total (initial_frame k) w1)
      as [[r fr1] w2]. cbn [fst snd] in *. subst r. cbn [fst snd].
    rewrite Htr. subst w1. unfold _log. rewrite trace_emit, Hev0, <- !app_assoc.
    eexists. split; [done|]. split; [done|]. left. split; [done|].
    rewrite !elem_of_app. do 5 right. set_solver.
Qed.

(** Every url is handed to the pool once, in order, whatever becomes of
    the tasks. *)
Lemma run_tasks_trace fuel max_workers urls p w :
  ∃ ev, trace (run_tasks net self fuel max_workers urls p w).2 = trace w ++ ev
        ∧ submitted ev = urls.
Proof.
  revert p w. induction urls as [|url rest IH]; intros p w.
  { exists []. by rewrite app_nil_r. }
  cbn [run_tasks].
  set (w0 := emit (EvSubmit url) w).
  assert (∀ p' w1 ev1, trace w1 = trace w0 ++ ev1 → forallb no_submit ev1 = true →
            ∃ ev, trace (run_tasks net self fuel max_workers rest p' w1).2 = trace w ++ ev
                  ∧ submitted ev = url :: rest) as Hgo.
  { intros p' w1 ev1 H1 Hq1. destruct (IH p' w1) as (ev2 & -> & Hsub).
    exists (EvSubmit url :: ev1 ++ ev2). split.
    - rewrite H1. subst w0. rewrite trace_emit, <- !app_assoc. done.
    - cbn. by rewrite submitted_app, (submitted_no_submit _ Hq1), Hsub. }
  destruct (stuck p <? max_workers).
  - destruct (download_file_trace fuel url w0) as (ev1 & Hev1 & Hq1).
    destruct (download_file net self fuel url w0) as [[x|e|] w1]; cbn [snd] in Hev1.
    + by eapply Hgo.
    + destruct (fault p); [by eapply Hgo|].
      unfold sleep. destruct (retry_delay self <? 0).
      * apply (Hgo _ _ (ev1 ++ [EvLog ERROR (MsgWorker e)])).
        { unfold _log. by rewrite trace_emit, Hev1, <- app_assoc. }
        { by rewrite forallb_app, Hq1. }
      * apply (Hgo _ _ (ev1 ++ [EvLog ERROR (MsgWorker e); EvSleep (retry_delay self)])).
        { unfold _log. rewrite !trace_emit, Hev1, <- !app_assoc. done. }
        { by rewrite forallb_app, Hq1. }
    + by eapply Hgo.
  - apply (Hgo _ _ []); [by rewrite app_nil_r|done].
Qed.

Lemma run_tasks_bars_dom fuel max_workers urls p w :
  dom (progress_bars (run_tasks net self fuel max_workers urls p w).2)
  = dom (progress_bars w).
Proof.
  revert p w. induction urls as [|url rest IH]; intros p w; [done|].
  cbn [run_tasks]. destruct (stuck p <? max_workers); [|by rewrite IH].
  pose proof (download_file_bars_dom fuel url (emit (EvSubmit url) w)) as Hd.
  destruct (download_file net self fuel url (emit (EvSubmit url) w)) as [[x|e|] w1];
    cbn [snd] in Hd; [by rewrite IH, Hd| |by rewrite IH, Hd].
  destruct (fault p); [by rewrite IH, Hd|].
  unfold sleep. destruct (retry_delay self <? 0); by rewrite IH.
Qed.

(** The main thread leaves the loop of lines 151 to 156 only through the
    sleep of line 156, with the [ValueError] of a negative delay. *)
Lemma run_tasks_fault fuel max_workers urls p w e :
  fault (run_tasks net self fuel max_workers urls p w).1 = Some e →
  fault p = Some e ∨ e = ValueError ∧ retry_delay self < 0.
Proof.
  revert p w. induction urls as [|url rest IH]; intros p w; [by left|].
  cbn [run_tasks]. destruct (stuck p <? max_workers); [|apply IH].
  destruct (download_file net self fuel url (emit (EvSubmit url) w)) as [[x|e'|] w1];
    [apply IH| |].
  - destruct (fault p) eqn:Hp; [rewrite <- Hp; apply IH|].
    destruct (sleep _ _) eqn:Hs.
    + intros H. apply IH in H. by rewrite <- Hp.
    + intros [H|H]%IH; [|by right]. cbn in H. injection H as <-. right. split; [done|].
      unfold sleep in Hs. by destruct (Z.ltb_spec (retry_delay self) 0).
  - intros [H|H]%IH; [by left|by right].
Qed.

(** It does so only after a task raised: the record of a worker error
    is in the trace. *)
Lemma run_tasks_fault_logged fuel max_workers urls p w :
  fault p = None →
  is_Some (fault (run_tasks net self fuel max_workers urls p w).1) →
  ∃ e before after,
    trace (run_tasks net self fuel max_workers urls p w).2
    = before ++ EvLog ERROR (MsgWorker e) :: after.
Proof.
  revert p w. induction urls as [|url rest IH]; intros p w Hp.
  { cbn. rewrite Hp. by intros [? ?]. }
  cbn [run_tasks]. destruct (stuck p <? max_workers); [|by apply IH].
  destruct (download_file net self fuel url (emit (EvSubmit url) w)) as [[x|e'|] w1];
    [by apply IH| |by apply IH].
  rewrite Hp. destruct (sleep _ _); [by apply IH|]. intros _.
  destruct (run_tasks_trace fuel max_workers rest (Pool (stuck p) (Some ValueError))
              (_log (MsgWorker e') ERROR w1)) as (ev & -> & _).
  exists e', (trace w1), ev. unfold _log. by rewrite trace_emit, <- app_assoc.
Qed.

(** The workers held at the end are those of the tasks that did not
    end. *)
Lemma run_tasks_stuck fuel max_workers urls p w :
  (∀ url w0, url ∈ urls → (download_file net self fuel url w0).1 ≠ OutOfFuel) →
  stuck (run_tasks net self fuel max_workers urls p w).1 = stuck p.
Proof.
  revert p w. induction urls as [|url rest IH]; intros p w Hterm; [done|].
  assert (∀ u w0, u ∈ rest → (download_file net self fuel u w0).1 ≠ OutOfFuel) as Hrest.
  { intros u w0 Hu. apply Hterm. by right. }
  cbn [run_tasks]. destruct (stuck p <? max_workers); [|by apply IH].
  pose proof (Hterm url (emit (EvSubmit url) w)) as H.
  destruct (download_file net self fuel url (emit (EvSubmit url) w)) as [[x|e'|] w1].
  - by apply IH.
  - destruct (fault p); [by apply IH|]. destruct (sleep _ _); by rewrite IH.
  - exfalso. apply H; [by left|done].
Qed.

(** A healthy target that finds a worker is taken to its end, whatever
    the other targets do: fail, raise, or never end.  It finds a worker
    when the pool has one worker per task, or when every task ends. *)
Lemma run_tasks_healthy fuel max_workers urls p w url ev :
  0 <= max_retries self →
  stuck p + Z.of_nat (length urls) <= max_workers
  ∨ stuck p < max_workers
    ∧ (∀ u w0, u ∈ urls → (download_file net self (S fuel) u w0).1 ≠ OutOfFuel) →
  url ∈ urls → healthy net url →
  is_Some (progress_bars w !! basename url) →
  trace (run_tasks net self (S fuel) max_workers urls p w).2 = trace w ++ ev →
  EvLog INFO (MsgCompleted (basename url)) ∈ ev
  ∨ EvLog INFO (MsgAlreadyDownloaded (basename url)) ∈ ev.
Proof.
  intros Hmax. revert p w ev. induction urls as [|url0 rest IH]; intros p w ev Hroom Hin Hh Hb.
  { by apply elem_of_nil in Hin. }
  cbn [run_tasks].
  set (w0 := emit (EvSubmit url0) w).
  assert (stuck p < max_workers) as Hfree.
  { destruct Hroom as [H|[H _]]; [|done]. cbn [length] in H. lia. }
  rewrite (proj2 (Z.ltb_lt _ _)) by done.
  destruct (download_file_trace (S fuel) url0 w0) as (ev1 & Hev1 & Hq1).
  pose proof (download_file_bars_dom (S fuel) url0 w0) as Hdom.
  pose proof (download_file_healthy fuel url0 w0) as Hhealthy.
  assert (∀ p' w' extra,
            trace w' = trace w0 ++ ev1 ++ extra →
            dom (progress_bars w') = dom (progress_bars w) →
            (stuck p' = stuck p
             ∨ stuck p' = stuck p + 1
               ∧ (download_file net self (S fuel) url0 w0).1 = OutOfFuel) →
            (url = url0 →
             EvLog INFO (MsgCompleted (basename url)) ∈ ev1
             ∨ EvLog INFO (MsgAlreadyDownloaded (basename url)) ∈ ev1) →
            trace (run_tasks net self (S fuel) max_workers rest p' w').2 = trace w ++ ev →
            EvLog INFO (MsgCompleted (basename url)) ∈ ev
            ∨ EvLog INFO (MsgAlreadyDownloaded (basename url)) ∈ ev) as Hgo.
  { intros p' w' extra Hw' Hd' Hp' Hhere Hev.
    destruct (run_tasks_trace (S fuel) max_workers rest p' w') as (ev2 & Hev2 & _).
    rewrite Hev2, Hw' in Hev. unfold w0 in Hev. rewrite trace_emit, <- !app_assoc in Hev.
    apply app_inv_head in Hev. cbn in Hev. subst ev.
    apply elem_of_cons in Hin as [->|Hin].
    - destruct Hhere as [H|H]; [done|left|right];
        rewrite elem_of_cons, !elem_of_app; auto.
    - destruct (IH p' w' ev2) as [H|H]; try done.
      + destruct Hroom as [H|[H Hterm]].
        * left. cbn [length] in H. lia.
        * right. destruct Hp' as [->|[_ Hp']].
          { split; [done|]. intros u w1 Hu. apply Hterm. by right. }
          { exfalso. apply (Hterm url0 w0); [by left|done]. }
      + eapply bar_stays; [exact Hd'|done].
      + left. rewrite elem_of_cons, !elem_of_app. auto.
      + right. rewrite elem_of_cons, !elem_of_app. auto. }
  assert (dom (progress_bars w0) = dom (progress_bars w)) as Hd0 by done.
  assert (url = url0 →
          ∃ x, (download_file net self (S fuel) url0 w0).1 = Ret x
               ∧ (EvLog INFO (MsgCompleted (basename url)) ∈ ev1
                  ∨ EvLog INFO (MsgAlreadyDownloaded (basename url)) ∈ ev1)) as Hhere.
  { intros ->. destruct Hhealthy as (x & ev' & Hx & Hev' & Hlog); [done|done|done|].
    rewrite Hev1 in Hev'. apply app_inv_head in Hev'. subst ev'.
    exists x. split; [done|]. destruct Hlog as [[_ H]|[_ H]]; auto. }
  destruct (download_file net self (S fuel) url0 w0) as [[x|e|] w1] eqn:Hrun;
    cbn [fst snd] in *.
  - apply (Hgo p w1 []); [by rewrite app_nil_r|exact Hdom|by left|].
    intros Hu. by destruct (Hhere Hu) as (_ & _ & H).
  - assert (url ≠ url0) as Hne.
    { intros Hu. by destruct (Hhere Hu) as (x & Hx & _). }
    destruct (fault p).
    + apply (Hgo p w1 []); [by rewrite app_nil_r|exact Hdom|by left|done].
    + unfold sleep. destruct (retry_delay self <? 0).
      * apply (Hgo _ _ [EvLog ERROR (MsgWorker e)]);
          [unfold _log; by rewrite trace_emit, Hev1, <- app_assoc
          |exact Hdom|by left|done].
      * apply (Hgo _ _ [EvLog ERROR (MsgWorker e); EvSleep (retry_delay self)]);
          [unfold _log; by rewrite !trace_emit, Hev1, <- !app_assoc
          |exact Hdom|by left|done].
  - assert (url ≠ url0) as Hne.
    { intros Hu. by destruct (Hhere Hu) as (x & Hx & _). }
    apply (Hgo _ w1 []); [by rewrite app_nil_r|exact Hdom|by right|done].
Qed.

Lemma run_pool_raises fuel max_workers urls w e :
  (run_pool net self fuel max_workers urls w).1 = Raise e →
  e = ValueError ∧ (max_workers <= 0 ∨ retry_delay self < 0).
Proof.
  unfold run_pool. destruct (Z.leb_spec max_workers 0).
  { intros [= <-]. split; [done|by left]. }
  pose proof (run_tasks_fault fuel max_workers urls (Pool 0 None) w) as Hf.
  destruct (run_tasks net self fuel max_workers urls (Pool 0 None) w) as [p w1].
  cbn [fst snd] in *. destruct (0 <? stuck p); [done|].
  destruct (fault p) as [e'|]; [|done]. intros [= <-].
  destruct (Hf e' eq_refl) as [H'|[-> H']]; [done|]. split; [done|by right].
Qed.

Lemma run_pool_returns fuel max_workers urls w :
  0 < max_workers →
  0 <= retry_delay self →
  (∀ url w0, url ∈ urls → (download_file net self fuel url w0).1 ≠ OutOfFuel) →
  (run_pool net self fuel max_workers urls w).1 = Ret tt.
Proof.
  intros Hw Hdelay Hterm. unfold run_pool. rewrite (proj2 (Z.leb_gt _ _)) by done.
  pose proof (run_tasks_fault fuel max_workers urls (Pool 0 None) w) as Hf.
  pose proof (run_tasks_stuck fuel max_workers urls (Pool 0 None) w Hterm) as Hs.
  destruct (run_tasks net self fuel max_workers urls (Pool 0 None) w) as [p w1].
  cbn [fst snd stuck] in *. rewrite Hs. cbn.
  destruct (fault p) as [e|]; [|done].
  destruct (Hf e eq_refl) as [H|[_ H]]; [done|lia].
Qed.

(** The world a pool with workers leaves is the one its tasks leave. *)
Lemma run_pool_world fuel max_workers urls w :
  0 < max_workers →
  (run_pool net self fuel max_workers urls w).2
  = (run_tasks net self fuel max_workers urls (Pool 0 None) w).2.
Proof.
  intros Hw. unfold run_pool. rewrite (proj2 (Z.leb_gt _ _)) by done.
  destruct (run_tasks net self fuel max_workers urls (Pool 0 None) w) as [p w1].
  cbn [snd]. destruct (0 <? stuck p); [done|]. by destruct (fault p).
Qed.

Lemma probe_sizes_trace urls file_sizes w :
  ∃ ev, trace (probe_sizes net urls file_sizes w).2 = trace w ++ ev
        ∧ forallb no_submit ev = true.
Proof.
  revert file_sizes w. induction urls as [|url rest IH]; intros file_sizes w.
  { exists []. by rewrite app_nil_r. }
  cbn [probe_sizes].
  destruct (_get_file_size_effects url w) as (_ & _ & _ & ev0 & Hev0 & Hq0%quiet_no_submit).
  destruct (_get_file_size net url w) as [[n|e|] w1]; cbn [snd] in *; eauto.
  destruct (IH (<[basename url := n]> file_sizes) w1) as (ev & -> & Hq).
  rewrite Hev0, <- app_assoc. eexists. split; [done|]. by rewrite forallb_app, Hq0, Hq.
Qed.

Lemma make_bars_trace urls file_sizes bars w :
  ∃ ev, trace (make_bars urls file_sizes bars w).2 = trace w ++ ev
        ∧ forallb no_submit ev = true.
Proof.
  revert bars w. induction urls as [|url rest IH]; intros bars w.
  { exists []. by rewrite app_nil_r. }
  cbn [make_bars].
  destruct (IH (<[basename url :=
                   _get_existing_download_size (basename url) true w]> bars)
              (emit (EvBarCreate (basename url)
                       (default 0 (file_sizes !! basename url))
                       (_get_existing_download_size (basename url) true w)) w))
    as (ev & -> & Hq).
  rewrite trace_emit, <- app_assoc. eexists. split; [done|]. done.
Qed.

Lemma make_bars_lookup urls file_sizes bars w url :
  url ∈ urls ∨ is_Some (bars !! basename url) →
  is_Some ((make_bars urls file_sizes bars w).1 !! basename url).
Proof.
  revert bars w. induction urls as [|u rest IH]; intros bars w.
  { intros [Hin|H]; [by apply elem_of_nil in Hin|done]. }
  cbn [make_bars]. intros [[->|Hin]%elem_of_cons|H]; apply IH.
  - right. rewrite lookup_insert_eq. eauto.
  - by left.
  - right. rewrite lookup_insert_is_Some. destruct (decide (basename u = basename url)); auto.
Qed.

Lemma close_bars_trace urls w :
  ∃ ev, trace (close_bars urls w) = trace w ++ ev ∧ forallb no_submit ev = true.
Proof.
  unfold close_bars. generalize (dict_keys [] (basename <$> urls)). intros names.
  revert w. induction names as [|name names IH]; intros w.
  { exists []. by rewrite app_nil_r. }
  cbn [foldl]. destruct (IH (emit (EvBarClose name) w)) as (ev & -> & Hq).
  rewrite trace_emit, <- app_assoc. eexists. split; [done|]. done.
Qed.

(** Past the probes, a batch is its pool: the bars are made, the pool
    is run, and the bars are closed if the pool returns. *)
Lemma download_files_pool fuel urls max_workers w file_sizes :
  (probe_sizes net urls ∅ w).1 = Ret file_sizes →
  let w1 := (probe_sizes net urls ∅ w).2 in
  let made := make_bars urls file_sizes ∅ w1 in
  let pool := run_pool net self fuel max_workers urls (set_progress_bars made.1 made.2) in
  download_files net self fuel urls max_workers w
  = match pool.1 with
    | Ret _ => (Ret tt, close_bars urls pool.2)
    | Raise e => (Raise e, pool.2)
    | OutOfFuel => (OutOfFuel, pool.2)
    end.
Proof.
  intros Hp. cbn zeta. unfold download_files.
  destruct (probe_sizes net urls ∅ w) as [r w1]. cbn [fst snd] in *. subst r.
  destruct (make_bars urls file_sizes ∅ w1) as [bars w2]. cbn [fst snd].
  by destruct (run_pool net self fuel max_workers urls (set_progress_bars bars w2))
    as [[[]|e|] w3].
Qed.

(** What a batch whose probes returned has done, whether or not it
    returns: every url was handed to the pool once, in order, and every
    healthy target that found a worker completed. *)
Lemma download_files_trace fuel urls max_workers w file_sizes :
  0 <= max_retries self →
  0 < max_workers →
  (probe_sizes net urls ∅ w).1 = Ret file_sizes →
  ∃ ev,
    trace (download_files net self (S fuel) urls max_workers w).2 = trace w ++ ev
    ∧ submitted ev = urls
    ∧ (Z.of_nat (length urls) <= max_workers
       ∨ (∀ u w0, u ∈ urls → (download_file net self (S fuel) u w0).1 ≠ OutOfFuel) →
       ∀ url, url ∈ urls → healthy net url →
         EvLog INFO (MsgCompleted (basename url)) ∈ ev
         ∨ EvLog INFO (MsgAlreadyDownloaded (basename url)) ∈ ev).
Proof.
  intros Hmax Hw Hp. rewrite (download_files_pool _ _ _ _ _ Hp). cbn zeta.
  destruct (probe_sizes_trace urls ∅ w) as (evp & Hevp & Hqp).
  set (w1 := (probe_sizes net urls ∅ w).2) in *.
  destruct (make_bars_trace urls file_sizes ∅ w1) as (evb & Hevb & Hqb).
  pose proof (λ url, make_bars_lookup urls file_sizes ∅ w1 url) as Hbars.
  destruct (make_bars urls file_sizes ∅ w1) as [bars w2]. cbn [fst snd] in *.
  set (w3 := set_progress_bars bars w2).
  pose proof (run_pool_world (S fuel) max_workers urls w3 Hw) as Hworld.
  destruct (run_tasks_trace (S fuel) max_workers urls (Pool 0 None) w3)
    as (evt & Hevt & Hsub).
  assert (Z.of_nat (length urls) <= max_workers
          ∨ (∀ u w0, u ∈ urls → (download_file net self (S fuel) u w0).1 ≠ OutOfFuel) →
          ∀ url, url ∈ urls → healthy net url →
            EvLog INFO (MsgCompleted (basename url)) ∈ evt
            ∨ EvLog INFO (MsgAlreadyDownloaded (basename url)) ∈ evt) as Hh.
  { intros Hroom url Hin Hhl.
    apply (run_tasks_healthy fuel max_workers urls (Pool 0 None) w3 url evt Hmax);
      try done.
    - cbn [stuck]. destruct Hroom as [H|H]; [left; lia|right; by split].
    - subst w3. cbn. apply Hbars. by left. }
  rewrite <- Hworld in Hevt.
  destruct (run_pool net self (S fuel) max_workers urls w3) as [r w4]. cbn [fst snd] in *.
  assert (trace w4 = trace w ++ evp ++ evb ++ evt) as Hw4.
  { rewrite Hevt. subst w3. cbn. rewrite Hevb, Hevp, <- !app_assoc. done. }
  assert (∃ evc, trace (match r with
                        | Ret _ => (Ret tt, close_bars urls w4)
                        | Raise e => (Raise e, w4)
                        | OutOfFuel => (OutOfFuel, w4)
                        end).2 = trace w4 ++ evc
                 ∧ forallb no_submit evc = true) as (evc & Hevc & Hqc).
  { destruct r as [[]|e|]; cbn [snd];
      [apply close_bars_trace|exists []; by rewrite app_nil_r..]. }
  exists (evp ++ evb ++ evt ++ evc). split; [|split].
  - rewrite Hevc, Hw4, <- !app_assoc. done.
  - rewrite !submitted_app, (submitted_no_submit _ Hqp), (submitted_no_submit _ Hqb),
      (submitted_no_submit _ Hqc), Hsub, app_nil_r. done.
  - intros Hroom url Hin Hhl. rewrite !elem_of_app.
    destruct (Hh Hroom url Hin Hhl) as [H|H]; auto.
Qed.

End Facts.

(** ** The claims *)

(** Finds an event in a trace that computes to a list of events. *)
Ltac in_trace :=
  vm_compute; repeat first [apply list_elem_of_here | apply list_elem_of_further].

(** C1.  The code at an input where the claim fails.  4 of the 10 bytes
    are in the temporary file and the server honours [Range].  The first
    response is cut short after 2 bytes, which [iter_content] raises as
    [ChunkedEncodingError].  The second [except] clause counts a retry
    and, unlike the first (lines 117 and 118), leaves [headers] as it was:
    the request is repeated with the old [Range: bytes=4-] while the
    temporary file holds 6 bytes, the 6 bytes of the answer are appended,
    and the transfer ends [Completed] with a final file of 12 bytes for a
    size of 10. *)
Example stale_range_after_counted_retry :
  (_get_file_size server_breaks_once video world_with_partial).1 = Ret 10
  ∧ get_reply server_breaks_once video 0 (Some 4)
    = GetResponse 206 [body 2] (Some (raised_for TruncatedBody))
  ∧ size_of <$> temp_dir
                  (step_world (loop_body server_breaks_once impatient 1 video "video.mp4"
                                 10 (initial_frame 4) world_with_partial)) !! "video.mp4"
    = Some 6
  ∧ headers (step_frame (loop_body server_breaks_once impatient 1 video "video.mp4"
                           10 (initial_frame 4) world_with_partial))
    = Some 4
  ∧ (download_file server_breaks_once impatient 3 video world_with_partial).1 = Ret Completed
  ∧ ranges_sent video
      (trace (download_file server_breaks_once impatient 3 video world_with_partial).2)
    = [Some 4; Some 4]
  ∧ size_of <$> download_dir
                  (download_file server_breaks_once impatient 3 video
                     world_with_partial).2 !! "video.mp4"
    = Some 12.
Proof. repeat split; reflexivity. Qed.

(** Beside it, the header after a connectivity recovery is set whatever
    the size: nothing is in the temporary directory, the first request
    (sent without [Range]) meets a reset connection, the connectivity
    probe is answered, and the request is sent again with
    [Range: bytes=0-] although the temporary file still has size 0. *)
Example range_header_sent_at_offset_zero :
  loop_body server_reset_once impatient 1 video "video.mp4" 10 (initial_frame 0) fresh_world
  = Next (Frame 0 (Some 0) 0)
      (World ∅ ∅ {[ "video.mp4" := 0 ]}
         [EvGet video None; EvLog WARNING (MsgConnectionLost "video.mp4" 0 2); EvPing])
  ∧ _get_existing_download_size "video.mp4" true
      (step_world (loop_body server_reset_once impatient 1 video "video.mp4" 10
                     (initial_frame 0) fresh_world)) = 0
  ∧ (download_file server_reset_once impatient 3 video fresh_world).1 = Ret Completed
  ∧ ranges_sent video
      (trace (download_file server_reset_once impatient 3 video fresh_world).2)
    = [None; Some 0].
Proof. repeat split; reflexivity. Qed.

(** C2.  The code at an input where the claim fails.  Every response is
    cut short after 2 bytes, a truncated read.  The first [except] clause
    names urllib3's [ProtocolError] and [IncompleteRead], but
    [iter_content] raises [ChunkedEncodingError] in their place, which
    the second clause takes: each attempt adds one to the retry counter
    and sleeps, no connectivity probe is sent, and after
    [max_retries + 1 = 3] requests the transfer ends with the outcome
    [Failed]. *)
Example truncated_read_is_counted :
  is_connection_lost ProtocolError = true
  ∧ is_connection_lost IncompleteRead = true
  ∧ is_connection_lost (raised_for ResetInBody) = false
  ∧ is_connection_lost (raised_for TruncatedBody) = false
  ∧ retry_counted (raised_for ResetInBody) = true
  ∧ retry_counted (raised_for TruncatedBody) = true
  ∧ loop_body server_truncates impatient 1 video "video.mp4" 10 (initial_frame 0) fresh_world
    = Next (Frame 2 None 1)
        (World {[ "video.mp4" := body 2 ]} ∅ {[ "video.mp4" := 2 ]}
           [EvGet video None; EvOpen "video.mp4" wb; EvBarUpdate "video.mp4" 2;
            EvLog ERROR (MsgError "video.mp4" ChunkedEncodingError 1 2); EvSleep 5])
  ∧ (download_file server_truncates impatient 4 video fresh_world).1 = Ret Failed
  ∧ gets_sent video (trace (download_file server_truncates impatient 4 video fresh_world).2)
    = 3%nat
  ∧ pings_sent (trace (download_file server_truncates impatient 4 video fresh_world).2)
    = 0%nat.
Proof. repeat split; reflexivity. Qed.

(** C3, as the code has it.  A failure of the streaming fetch that is a
    [RequestException] outside the first [except] clause (an HTTP error
    status, a timeout while waiting for the response) adds exactly one to
    the retry counter, is logged as an error and is followed by a sleep of
    [retry_delay]; when [retry_delay] is negative that sleep raises and the
    [ValueError] leaves the function.  A failure raised as a
    [ConnectionError] (a DNS failure, a timeout while connecting) takes
    the first [except] clause instead: it is handled as a connectivity
    loss and the counter does not move. *)
Theorem request_failures_are_counted (net : network) (self : FileDownloader)
    (fuel : nat) (url filename : string) (total_size : Z) (fr : frame) (w : world)
    (e : exn) :
  attempt_raises (get_reply net url (gets_sent url (trace w)) (headers fr)) e →
  is_Some (progress_bars w !! filename) →
  let t := try_fetch net url filename total_size fr w in
  (retry_counted e = true →
   0 <= retry_delay self →
   loop_body net self fuel url filename total_size fr w
   = Next (Frame (start_bytes t.1.2) (headers t.1.2) (retries fr + 1))
       (emit (EvSleep (retry_delay self))
          (emit (EvLog ERROR (MsgError filename e (retries fr + 1) (max_retries self)))
             t.2)))
  ∧ (retry_counted e = true →
     retry_delay self < 0 →
     loop_body net self fuel url filename total_size fr w
     = Stop (Raise ValueError)
         (Frame (start_bytes t.1.2) (headers t.1.2) (retries fr + 1))
         (emit (EvLog ERROR (MsgError filename e (retries fr + 1) (max_retries self)))
            t.2))
  ∧ (is_connection_lost e = true →
     loop_body net self fuel url filename total_size fr w
     = match on_connection_lost net self fuel filename t.1.2 t.2 with
       | (Ret _, fr, w) => Next fr w
       | (Raise e', fr, w) => Stop (Raise e') fr w
       | (OutOfFuel, fr, w) => Stop OutOfFuel fr w
       end
     ∧ retries (step_frame (loop_body net self fuel url filename total_size fr w))
       = retries fr)
  ∧ retry_counted (raised_for ErrorStatus) = true
  ∧ retry_counted (raised_for TimeoutAwaitingResponse) = true
  ∧ is_connection_lost (raised_for DnsFailure) = true
  ∧ is_connection_lost (raised_for TimeoutConnecting) = true.
Proof.
  intros Ha Hb. cbn zeta. split; [|split; [|split; [|done]]].
  - intros Hc Hdelay. by apply (loop_body_counts net self).
  - intros Hc Hdelay. by apply (loop_body_bad_delay net self).
  - intros Hc. rewrite (loop_body_reconnects net self fuel _ _ _ _ _ _ Ha Hc Hb).
    split; [done|].
    pose proof (try_fetch_retries net url filename total_size fr w) as Hn.
    destruct (try_fetch net url filename total_size fr w) as [[r fr1] w1].
    cbn [fst snd] in *.
    pose proof (on_connection_lost_frame net self fuel filename fr1 w1) as Hf.
    destruct (on_connection_lost net self fuel filename fr1 w1) as [[[[]|e'|] fr2] w2];
      cbn [step_frame]; destruct Hf as [Hf _]; lia.
Qed.

Lemma request_failures_are_counted_witness :
  loop_body server_always_500 impatient 1 video "video.mp4" 10 (initial_frame 0) fresh_world
  = Next (Frame 0 None 1)
      (World ∅ ∅ {[ "video.mp4" := 0 ]}
         [EvGet video None; EvLog ERROR (MsgError "video.mp4" HTTPError 1 2); EvSleep 5])
  ∧ loop_body server_always_500 hasty 1 video "video.mp4" 10 (initial_frame 0) fresh_world
    = Stop (Raise ValueError) (Frame 0 None 1)
        (World ∅ ∅ {[ "video.mp4" := 0 ]}
           [EvGet video None; EvLog ERROR (MsgError "video.mp4" HTTPError 1 2)]).
Proof.
  split.
  - destruct (request_failures_are_counted server_always_500 impatient 1 video "video.mp4"
                10 (initial_frame 0) fresh_world HTTPError) as (Hcounted & _).
    + reflexivity.
    + vm_compute. eauto.
    + rewrite Hcounted; [reflexivity|reflexivity|vm_compute; discriminate].
  - destruct (request_failures_are_counted server_always_500 hasty 1 video "video.mp4"
                10 (initial_frame 0) fresh_world HTTPError) as (_ & Hraises & _).
    + reflexivity.
    + vm_compute. eauto.
    + rewrite Hraises; reflexivity.
Defined.

(** C3 as stated fails: with the network up (the probe is answered), a
    DNS failure of the target's host leaves the retry counter at 0, is
    logged as a lost connection and no sleep follows. *)
Lemma dns_failure_is_not_counted :
  get_reply server_unreachable video 0 None = GetRaises (raised_for DnsFailure)
  ∧ ping_reply server_unreachable 0 = PingAnswered
  ∧ loop_body server_unreachable impatient 1 video "video.mp4" 10
      (initial_frame 0) fresh_world
    = Next (Frame 0 (Some 0) 0)
        (World ∅ ∅ {[ "video.mp4" := 0 ]}
           [EvGet video None; EvLog WARNING (MsgConnectionLost "video.mp4" 0 2); EvPing]).
Proof. repeat split; reflexivity. Qed.

(** C4.  With a delay between retries that is not negative, a target all
    of whose fetch attempts fail with a request-level error (one the
    second [except] clause counts) ends at the line after the loop, the
    [Failed] outcome, and by then exactly [max_retries + 1] requests for it
    were sent: with fuel for fewer turns of the loop the transfer is still
    running, with more the outcome and the count are the same. *)
Theorem bounded_retries (net : network) (self : FileDownloader)
    (url : string) (w : world) (total_size : Z) (fuel : nat) :
  0 <= max_retries self →
  0 <= retry_delay self →
  (_get_file_size net url w).1 = Ret total_size →
  already_downloaded (basename url) total_size w = false →
  is_Some (progress_bars w !! basename url) →
  (∀ i h, ∃ e, attempt_raises (get_reply net url i h) e ∧ retry_counted e = true) →
  let run := download_file net self fuel url w in
  ((fuel ≤ Z.to_nat (max_retries self) + 1)%nat → run.1 = OutOfFuel)
  ∧ ((Z.to_nat (max_retries self) + 1 < fuel)%nat →
     run.1 = Ret Failed
     ∧ gets_sent url (trace run.2)
       = (gets_sent url (trace w) + Z.to_nat (max_retries self + 1))%nat).
Proof.
  intros Hmax Hdelay Hp Ha Hb Hfail. cbn zeta.
  rewrite (download_file_loop net self fuel url w total_size Hp Ha). cbn [fst snd].
  destruct (_get_file_size_effects net url w) as (_ & _ & Hbars & ev & Ht & Hq).
  set (w1 := _log _ INFO (_get_file_size net url w).2).
  assert (is_Some (progress_bars w1 !! basename url)) as Hb1.
  { subst w1. cbn. by rewrite Hbars. }
  split; intros Hfuel.
  - apply (download_loop_pending net self url (basename url) total_size Hdelay Hfail
             (Z.to_nat (max_retries self + 1))); [done| |lia].
    unfold initial_frame. cbn [retries]. lia.
  - edestruct (download_loop_exhausts net self url (basename url) total_size Hdelay Hfail
                 (Z.to_nat (max_retries self + 1)) fuel
                 (initial_frame (_get_existing_download_size (basename url) true w)) w1)
      as (fr' & w' & -> & _ & Hg); [done| |lia|].
    { unfold initial_frame. cbn [retries]. lia. }
    cbn [fst snd]. split; [done|]. rewrite Hg. f_equal.
    subst w1. unfold _log. rewrite trace_emit, Ht, !gets_sent_app.
    rewrite (gets_sent_quiet _ _ Hq), (gets_sent_quiet url [_]) by done. lia.
Qed.

Lemma bounded_retries_witness :
  (download_file server_always_500 impatient 3 video fresh_world).1 = OutOfFuel
  ∧ (download_file server_always_500 impatient 4 video fresh_world).1 = Ret Failed
  ∧ gets_sent video (trace (download_file server_always_500 impatient 4 video
                              fresh_world).2) = 3%nat.
Proof.
  split.
  - apply (bounded_retries server_always_500 impatient video fresh_world 10 3).
    + vm_compute. discriminate.
    + vm_compute. discriminate.
    + reflexivity.
    + reflexivity.
    + vm_compute. eauto.
    + intros i h. exists HTTPError. split; reflexivity.
    + vm_compute. lia.
  - apply (bounded_retries server_always_500 impatient video fresh_world 10 4).
    + vm_compute. discriminate.
    + vm_compute. discriminate.
    + reflexivity.
    + reflexivity.
    + vm_compute. eauto.
    + intros i h. exists HTTPError. split; reflexivity.
    + vm_compute. lia.
Defined.

(** C5, as the code has it.  [download_file] takes the early return,
    sending no GET, exactly when a file exists at the final location whose
    size equals the probed size, whatever that size is: with a probed size
    of 0 an empty final file triggers it. *)
Theorem short_circuit_iff_final_matches (net : network) (self : FileDownloader)
    (fuel : nat) (url : string) (w : world) (total_size : Z) :
  (_get_file_size net url w).1 = Ret total_size →
  is_Some (progress_bars w !! basename url) →
  0 <= max_retries self →
  let final_matches :=
    ∃ content, download_dir w !! basename url = Some content
               ∧ size_of content = total_size in
  let run := download_file net self (S fuel) url w in
  (final_matches →
   run.1 = Ret AlreadyDownloaded
   ∧ gets_sent url (trace run.2) = gets_sent url (trace w)
   ∧ progress_bars run.2 !! basename url = Some total_size
   ∧ temp_dir run.2 = temp_dir w ∧ download_dir run.2 = download_dir w)
  ∧ (¬ final_matches →
     run.1 ≠ Ret AlreadyDownloaded
     ∧ (gets_sent url (trace w) < gets_sent url (trace run.2))%nat).
Proof.
  intros Hp Hb Hmax. cbn zeta. split.
  - intros Hf%already_downloaded_spec. unfold download_file.
    destruct (_get_file_size_effects net url w) as (Ht & Hd & Hbars & ev & Hev & Hq).
    destruct (_get_file_size net url w) as [r w1]. cbn [fst snd] in *. subst r.
    rewrite (already_downloaded_store _ _ w); [|by cbn]. rewrite Hf.
    cbn [progress_bars _log emit]. rewrite Hbars. destruct Hb as [n Hn]. rewrite Hn.
    cbn. split; [done|]. rewrite Hev, Ht, Hd, Hbars, lookup_alter_eq, Hn.
    repeat split; try done.
    pose proof (gets_sent_quiet url ev Hq) as H0. unfold gets_sent in *.
    rewrite !List.filter_app, !length_app. cbn [List.filter is_get length]. lia.
  - intros Hf. assert (already_downloaded (basename url) total_size w = false) as Ha.
    { destruct (already_downloaded _ _ _) eqn:E; [|done].
      by apply already_downloaded_spec in E. }
    rewrite (download_file_loop net self (S fuel) url w total_size Hp Ha).
    cbn [fst snd]. split.
    + intros E. by destruct (download_loop_exit net self _ _ _ _ _ _ _ E).
    + destruct (_get_file_size_effects net url w) as (_ & _ & _ & ev & Hev & Hq).
      eapply Nat.le_lt_trans; [|apply download_loop_sends; by cbn].
      unfold _log. rewrite trace_emit, Hev, !gets_sent_app. lia.
Qed.

Lemma short_circuit_iff_final_matches_witness :
  (download_file server_unknown_size impatient 1 video world_with_empty_final).1
  = Ret AlreadyDownloaded
  ∧ (download_file server_unknown_size impatient 1 video fresh_world).1
    ≠ Ret AlreadyDownloaded.
Proof.
  split.
  - apply (short_circuit_iff_final_matches server_unknown_size impatient 0 video
             world_with_empty_final 0); [reflexivity|vm_compute; eauto|vm_compute; discriminate|].
    exists []. split; reflexivity.
  - apply (short_circuit_iff_final_matches server_unknown_size impatient 0 video
             fresh_world 0); [reflexivity|vm_compute; eauto|vm_compute; discriminate|].
    intros (content & Hc & _). vm_compute in Hc. discriminate.
Defined.

(** C5 as stated fails: the probed size is 0 (unknown), a final file
    exists, and the early return is taken without any GET. *)
Lemma short_circuit_with_unknown_size :
  (_get_file_size server_unknown_size video world_with_empty_final).1 = Ret 0
  ∧ download_dir world_with_empty_final !! "video.mp4" = Some []
  ∧ (download_file server_unknown_size impatient 5 video world_with_empty_final).1
    = Ret AlreadyDownloaded
  ∧ gets_sent video
      (trace (download_file server_unknown_size impatient 5 video world_with_empty_final).2)
    = 0%nat.
Proof. repeat split; reflexivity. Qed.

(** C6.  At any turn of the loop in which a [Range] header with a
    positive offset is sent and the server answers with a successful status
    other than 206: the offset restarts from 0 and the header is dropped,
    the temporary file is opened with [wb], the whole body is written to
    it (what was there before is gone), and the retry counter is what it
    was.  When the body ends the file is moved and the loop returns
    [Completed]. *)
Theorem resume_refused_restarts (net : network) (self : FileDownloader)
    (fuel : nat) (url filename : string) (total_size : Z) (fr : frame) (w : world)
    (offset status : Z) (chunks : list (list byte)) (broken : option exn) :
  at_loop_head net self url filename total_size fr w →
  headers fr = Some offset →
  0 < offset →
  get_reply net url (gets_sent url (trace w)) (Some offset)
  = GetResponse status chunks broken →
  is_error_status status = false →
  status ≠ 206 →
  is_Some (progress_bars w !! filename) →
  let t := try_fetch net url filename total_size fr w in
  headers t.1.2 = None
  ∧ start_bytes t.1.2 = 0 + size_of (concat chunks)
  ∧ retries t.1.2 = retries fr
  ∧ (∃ ev, trace t.2
           = trace w ++ [EvGet url (Some offset); EvLog INFO (MsgNoResume filename);
                         EvOpen filename wb]
               ++ chunk_updates filename chunks ++ ev)
  ∧ match broken with
    | Some e =>
        t.1.1 = Raise e ∧ temp_dir t.2 !! filename = Some (concat chunks)
    | None =>
        t.1.1 = Ret tt
        ∧ temp_dir t.2 !! filename = None
        ∧ download_dir t.2 !! filename = Some (concat chunks)
        ∧ loop_body net self fuel url filename total_size fr w
          = Stop (Ret Completed) t.1.2 t.2
    end.
Proof.
  intros Hhead Hh Hpos Hr Hs H206 [n Hn]. cbn zeta.
  pose proof (at_loop_head_offset_within net self _ _ _ _ _ Hhead) as Hin.
  unfold offset_within in Hin. rewrite Hh in Hin. rewrite <- Hh in Hr.
  pose proof (try_fetch_streamed net url filename total_size fr w status chunks broken n
                Hr Hs Hn) as H.
  cbn zeta in H.
  rewrite (proj2 (Z.ltb_lt 0 (start_bytes fr))) in H by lia.
  rewrite (proj2 (Z.eqb_neq status 206)) in H by done.
  cbn [andb negb] in H. change (0 <? 0) with false in H. cbn [app] in H.
  destruct H as (Hfr & Ht & Hres). rewrite Hfr. cbn [headers start_bytes retries].
  repeat split; try done.
  - rewrite Ht, Hh. eexists. cbn. done.
  - unfold loop_body.
    destruct (try_fetch net url filename total_size fr w) as [[r fr1] w1].
    cbn [fst snd] in *. destruct broken as [e|].
    + by destruct Hres as (-> & ? & _).
    + destruct Hres as (-> & ? & ? & _). rewrite <- Hfr. done.
Qed.

Lemma resume_refused_restarts_witness :
  (try_fetch server_no_resume video "video.mp4" 10 (initial_frame 4) world_with_partial).1
  = (Ret tt, Frame 10 None 0)
  ∧ download_dir
      (try_fetch server_no_resume video "video.mp4" 10 (initial_frame 4)
         world_with_partial).2 !! "video.mp4"
    = Some (body 10)
  ∧ EvOpen "video.mp4" wb
    ∈ trace (try_fetch server_no_resume video "video.mp4" 10 (initial_frame 4)
               world_with_partial).2.
Proof.
  destruct (resume_refused_restarts server_no_resume impatient 0 video "video.mp4" 10
              (initial_frame 4) world_with_partial 4 200 [body 5; body 5] None)
    as (Hh & Hs & Hr & (ev & Ht) & Hret & _ & Hfinal & _).
  - apply head_first.
  - reflexivity.
  - reflexivity.
  - reflexivity.
  - reflexivity.
  - discriminate.
  - vm_compute. eauto.
  - split; [|split].
    + destruct (try_fetch _ _ _ _ _ _) as [[r fr1] w1]. cbn [fst snd] in *.
      subst r. f_equal. destruct fr1; cbn in *. by subst.
    + exact Hfinal.
    + in_trace.
Defined.

(** C7, as the code has it.  While the body is streamed the bar only
    receives the chunk updates, so the values the progress sink observes
    never go down.  When the server refuses the resume, the byte counter of
    the transfer restarts from 0 and the temporary file is truncated, but
    nothing resets the bar: it goes on from the value it had. *)
Theorem progress_is_monotone_and_not_reset (net : network)
    (url filename : string) (total_size : Z) (fr : frame) (w : world)
    (status : Z) (chunks : list (list byte)) (broken : option exn) (n : Z) :
  get_reply net url (gets_sent url (trace w)) (headers fr)
  = GetResponse status chunks broken →
  is_error_status status = false →
  progress_bars w !! filename = Some n →
  let restart := (0 <? start_bytes fr) && negb (status =? 206) in
  let t := try_fetch net url filename total_size fr w in
  let streamed := chunk_updates filename chunks in
  (∃ before after,
     trace t.2 = trace w ++ before ++ streamed ++ after
     ∧ bar_values filename n before = []
     ∧ (broken ≠ None → after = []))
  ∧ nondecreasing_from n (bar_values filename n streamed)
  ∧ (restart = true →
     start_bytes t.1.2 = 0 + size_of (concat chunks)
     ∧ EvOpen filename wb ∈ trace t.2
     ∧ Forall (λ v, n <= v) (bar_values filename n streamed)
     ∧ match broken with
       | Some _ =>
           temp_dir t.2 !! filename = Some (concat chunks)
           ∧ progress_bars t.2 !! filename = Some (size_of (concat chunks) + n)
       | None => download_dir t.2 !! filename = Some (concat chunks)
       end).
Proof.
  intros Hr Hs Hn. cbn zeta.
  destruct (try_fetch_streamed net url filename total_size fr w status chunks broken n
              Hr Hs Hn) as (Hfr & Ht & Hres).
  split; [|split].
  - exists ([EvGet url (headers fr)]
            ++ (if (0 <? start_bytes fr) && negb (status =? 206)
                then [EvLog INFO (MsgNoResume filename)] else [])
            ++ [EvOpen filename
                  (if 0 <? (if (0 <? start_bytes fr) && negb (status =? 206)
                            then 0 else start_bytes fr) then ab else wb)]),
           (match broken with
            | None => [EvReplace filename; EvLog INFO (MsgCompleted filename);
                       EvBarRefresh filename total_size]
            | Some _ => []
            end).
    split; [|split].
    + rewrite Ht, <- !app_assoc. done.
    + by destruct (_ && _).
    + by destruct broken.
  - apply chunk_updates_nondecreasing.
  - intros Hrestart. rewrite Hrestart in *. change (0 <? 0) with false in *.
    rewrite Hfr, Ht. cbn [start_bytes app]. split; [done|]. split; [set_solver|].
    split; [apply chunk_updates_nondecreasing|].
    destruct broken.
    + destruct Hres as (_ & Htmp & _ & Hbar). done.
    + destruct Hres as (_ & _ & Hdl & _). done.
Qed.

Lemma progress_is_monotone_and_not_reset_witness :
  nondecreasing_from 4 (bar_values "video.mp4" 4 (chunk_updates "video.mp4" [body 5; body 5]))
  ∧ start_bytes (try_fetch server_no_resume video "video.mp4" 10 (initial_frame 4)
                   world_with_partial).1.2 = 10
  ∧ Forall (λ v, 4 <= v)
      (bar_values "video.mp4" 4 (chunk_updates "video.mp4" [body 5; body 5])).
Proof.
  destruct (progress_is_monotone_and_not_reset server_no_resume video "video.mp4" 10
              (initial_frame 4) world_with_partial 200 [body 5; body 5] None 4)
    as (_ & Hmono & Hrestart); [reflexivity|reflexivity|reflexivity|].
  destruct Hrestart as (Hstart & _ & Hall & _); [reflexivity|].
  split; [exact Hmono|]. split; [exact Hstart|exact Hall].
Defined.

(** C7 as stated fails: the temporary file holds 4 bytes, the bar stands
    at 4, the server ignores the [Range] header and sends the 10 bytes with
    status 200.  The file is truncated and rewritten, yet the sink sees
    9, 14 and, on the closing refresh, 10; it never sees a reset to 0. *)
Lemma restart_does_not_reset_the_bar :
  ranges_sent video (trace (try_fetch server_no_resume video "video.mp4" 10
                              (initial_frame 4) world_with_partial).2) = [Some 4]
  ∧ EvLog INFO (MsgNoResume "video.mp4")
    ∈ trace (try_fetch server_no_resume video "video.mp4" 10 (initial_frame 4)
               world_with_partial).2
  ∧ EvOpen "video.mp4" wb
    ∈ trace (try_fetch server_no_resume video "video.mp4" 10 (initial_frame 4)
               world_with_partial).2
  ∧ bar_values "video.mp4" 4
      (trace (try_fetch server_no_resume video "video.mp4" 10 (initial_frame 4)
                world_with_partial).2)
    = [9; 14; 10].
Proof. split; [reflexivity|]. split; [in_trace|]. split; [in_trace|reflexivity]. Qed.

(** C8, as the code has it.  When the body was read to its end the
    temporary file is moved onto the final one, and then the bar is set to
    [total_size] and refreshed, whatever [total_size] is: with an unknown
    size the bar is set to 0, not to the number of bytes written. *)
Theorem success_sets_bar_to_total_size (net : network)
    (url filename : string) (total_size : Z) (fr : frame) (w : world)
    (status : Z) (chunks : list (list byte)) (n : Z) :
  get_reply net url (gets_sent url (trace w)) (headers fr)
  = GetResponse status chunks None →
  is_error_status status = false →
  progress_bars w !! filename = Some n →
  let t := try_fetch net url filename total_size fr w in
  t.1.1 = Ret tt
  ∧ temp_dir t.2 !! filename = None
  ∧ (∃ kept, download_dir t.2 !! filename = Some (kept ++ concat chunks))
  ∧ progress_bars t.2 !! filename = Some total_size
  ∧ (∃ earlier, trace t.2
                = earlier ++ [EvReplace filename; EvLog INFO (MsgCompleted filename);
                              EvBarRefresh filename total_size]).
Proof.
  intros Hr Hs Hn. cbn zeta.
  destruct (try_fetch_streamed net url filename total_size fr w status chunks None n
              Hr Hs Hn) as (Hfr & Ht & Hret & Htmp & Hdl & Hbar).
  repeat split; try done.
  - eauto.
  - rewrite Ht. eexists. rewrite !app_assoc. done.
Qed.

Lemma success_sets_bar_to_total_size_witness :
  (try_fetch server_unknown_size video "video.mp4" 0 (initial_frame 0) fresh_world).1.1
  = Ret tt
  ∧ progress_bars
      (try_fetch server_unknown_size video "video.mp4" 0 (initial_frame 0) fresh_world).2
    !! "video.mp4" = Some 0.
Proof.
  destruct (success_sets_bar_to_total_size server_unknown_size video "video.mp4" 0
              (initial_frame 0) fresh_world 200 [body 5] 0)
    as (Hret & _ & _ & Hbar & _); [reflexivity|reflexivity|reflexivity|].
  split; [exact Hret|exact Hbar].
Defined.

(** C8 as stated fails: the size is unknown (no [Content-Length]), 5
    bytes are written and moved to the final file, and the closing refresh
    sets the bar to 0. *)
Lemma unknown_size_closes_at_zero :
  (_get_file_size server_unknown_size video fresh_world).1 = Ret 0
  ∧ (download_file server_unknown_size impatient 3 video fresh_world).1 = Ret Completed
  ∧ download_dir (download_file server_unknown_size impatient 3 video fresh_world).2
    !! "video.mp4" = Some (body 5)
  ∧ progress_bars (download_file server_unknown_size impatient 3 video fresh_world).2
    !! "video.mp4" = Some 0
  ∧ last (trace (download_file server_unknown_size impatient 3 video fresh_world).2)
    = Some (EvBarRefresh "video.mp4" 0).
Proof. repeat split; reflexivity. Qed.

(** C9, as the code has it.  For a batch of distinct file names (its
    tasks then work on different files and bars), run by a pool with at
    least one worker and with a delay that is not negative:
    - every url is handed to the pool exactly once, in order;
    - the pool never lets a task's exception out: what a task raises is
      logged as a worker error, a sleep follows, and the next task is run;
    - every healthy target that finds a worker completes, whatever the
      other targets do (use up their retries, raise, never end); it finds
      one when the pool has a worker per target or when every task ends;
    - a batch all of whose tasks end returns.
    The same holds of [download_files] once its size probes have
    returned; when a probe raises, the batch raises with it and hands
    nothing to the pool. *)
Theorem batch_isolation (net : network) (self : FileDownloader)
    (fuel : nat) (urls : list string) (max_workers : Z) (w : world) :
  NoDup (basename <$> urls) →
  0 <= max_retries self →
  0 <= retry_delay self →
  0 < max_workers →
  let pool := run_pool net self (S fuel) max_workers urls w in
  let batch := download_files net self (S fuel) urls max_workers w in
  let all_end :=
    ∀ url w0, url ∈ urls → (download_file net self (S fuel) url w0).1 ≠ OutOfFuel in
  let room := Z.of_nat (length urls) <= max_workers ∨ all_end in
  (∀ e, pool.1 ≠ Raise e)
  ∧ (all_end → pool.1 = Ret tt)
  ∧ (∀ url rest p w0 e w1,
       stuck p < max_workers →
       fault p = None →
       download_file net self (S fuel) url (emit (EvSubmit url) w0) = (Raise e, w1) →
       run_tasks net self (S fuel) max_workers (url :: rest) p w0
       = run_tasks net self (S fuel) max_workers rest p
           (emit (EvSleep (retry_delay self)) (emit (EvLog ERROR (MsgWorker e)) w1)))
  ∧ (∃ ev, trace pool.2 = trace w ++ ev
           ∧ submitted ev = urls
           ∧ (room →
              ∀ url, url ∈ urls → healthy net url →
                is_Some (progress_bars w !! basename url) →
                EvLog INFO (MsgCompleted (basename url)) ∈ ev
                ∨ EvLog INFO (MsgAlreadyDownloaded (basename url)) ∈ ev))
  ∧ (∀ file_sizes,
       (probe_sizes net urls ∅ w).1 = Ret file_sizes →
       (∀ e, batch.1 ≠ Raise e)
       ∧ (all_end → batch.1 = Ret tt)
       ∧ ∃ ev, trace batch.2 = trace w ++ ev
               ∧ submitted ev = urls
               ∧ (room →
                  ∀ url, url ∈ urls → healthy net url →
                    EvLog INFO (MsgCompleted (basename url)) ∈ ev
                    ∨ EvLog INFO (MsgAlreadyDownloaded (basename url)) ∈ ev))
  ∧ (∀ e,
       (probe_sizes net urls ∅ w).1 = Raise e →
       batch.1 = Raise e
       ∧ ∃ ev, trace batch.2 = trace w ++ ev ∧ submitted ev = []).
Proof.
  intros _ Hmax Hdelay Hw. cbn zeta.
  assert (∀ w0 e, (run_pool net self (S fuel) max_workers urls w0).1 ≠ Raise e) as Hquiet.
  { intros w0 e [_ [H|H]]%run_pool_raises; lia. }
  split; [|split; [|split; [|split; [|split]]]].
  - apply Hquiet.
  - by apply run_pool_returns.
  - intros url rest p w0 e w1 Hfree Hfault Hrun. cbn [run_tasks].
    rewrite (proj2 (Z.ltb_lt _ _)) by done. rewrite Hrun, Hfault.
    by rewrite sleep_some.
  - rewrite run_pool_world by done.
    destruct (run_tasks_trace net self (S fuel) max_workers urls (Pool 0 None) w)
      as (ev & Hev & Hsub).
    exists ev. split; [done|]. split; [done|].
    intros Hroom url Hin Hh Hb.
    apply (run_tasks_healthy net self fuel max_workers urls (Pool 0 None) w url ev Hmax);
      try done.
    cbn [stuck]. destruct Hroom as [H|H]; [left; lia|right; by split].
  - intros file_sizes Hp. split; [|split].
    + intros e. rewrite (download_files_pool net self _ _ _ _ _ Hp). cbn zeta.
      pose proof (Hquiet (set_progress_bars
                          (make_bars urls file_sizes ∅ (probe_sizes net urls ∅ w).2).1
                          (make_bars urls file_sizes ∅ (probe_sizes net urls ∅ w).2).2))
        as H.
      destruct (run_pool _ _ _ _ _ _) as [[[]|e'|] w4]; cbn [fst] in *; done.
    + intros Hend. rewrite (download_files_pool net self _ _ _ _ _ Hp). cbn zeta.
      by rewrite (run_pool_returns net self _ _ _ _ Hw Hdelay Hend).
    + by apply (download_files_trace net self fuel urls max_workers w file_sizes).
  - intros e Hp. unfold download_files.
    destruct (probe_sizes_trace net urls ∅ w) as (ev & Hev & Hq).
    destruct (probe_sizes net urls ∅ w) as [r w1]. cbn [fst snd] in *. subst r.
    split; [done|]. exists ev. split; [done|]. by apply submitted_no_submit.
Qed.

Lemma batch_isolation_witness :
  (download_files server_mixed impatient 4 [refused; video; faulty] MAX_WORKERS
     empty_world).1 = Ret tt
  ∧ EvLog ERROR (MsgExceeded "refused.mp4")
    ∈ trace (download_files server_mixed impatient 4 [refused; video; faulty] MAX_WORKERS
               empty_world).2
  ∧ EvLog ERROR (MsgWorker OSError)
    ∈ trace (download_files server_mixed impatient 4 [refused; video; faulty] MAX_WORKERS
               empty_world).2
  ∧ (∃ ev,
       trace (download_files server_mixed impatient 4 [refused; video; faulty] MAX_WORKERS
                empty_world).2 = trace empty_world ++ ev
       ∧ submitted ev = [refused; video; faulty]
       ∧ (EvLog INFO (MsgCompleted "video.mp4") ∈ ev
          ∨ EvLog INFO (MsgAlreadyDownloaded "video.mp4") ∈ ev))
  ∧ (download_files server_one_unreachable impatient 4 [refused; video] MAX_WORKERS
       empty_world).1 = OutOfFuel
  ∧ ∃ ev,
      trace (download_files server_one_unreachable impatient 4 [refused; video] MAX_WORKERS
               empty_world).2 = trace empty_world ++ ev
      ∧ submitted ev = [refused; video]
      ∧ (EvLog INFO (MsgCompleted "video.mp4") ∈ ev
         ∨ EvLog INFO (MsgAlreadyDownloaded "video.mp4") ∈ ev).
Proof.
  destruct (batch_isolation server_mixed impatient 3 [refused; video; faulty] MAX_WORKERS
              empty_world)
    as (_ & _ & _ & _ & Hbatch & _).
  { apply (bool_decide_unpack (NoDup (basename <$> [refused; video; faulty]))).
    vm_compute. exact I. }
  { vm_compute. discriminate. }
  { vm_compute. discriminate. }
  { reflexivity. }
  destruct (batch_isolation server_one_unreachable impatient 3 [refused; video] MAX_WORKERS
              empty_world)
    as (_ & _ & _ & _ & Hstuck & _).
  { apply (bool_decide_unpack (NoDup (basename <$> [refused; video]))).
    vm_compute. exact I. }
  { vm_compute. discriminate. }
  { vm_compute. discriminate. }
  { reflexivity. }
  edestruct Hbatch as (_ & _ & ev & Hev & Hsub & Hall); [vm_compute; reflexivity|].
  edestruct Hstuck as (_ & _ & ev' & Hev' & Hsub' & Hall'); [vm_compute; reflexivity|].
  split; [vm_compute; reflexivity|]. split; [in_trace|]. split; [in_trace|].
  split; [|split].
  - exists ev. split; [exact Hev|]. split; [exact Hsub|].
    assert (Z.of_nat (length [refused; video; faulty]) <= MAX_WORKERS) as Hroom
      by (vm_compute; discriminate).
    apply (Hall (or_introl Hroom) video);
      [apply list_elem_of_further, list_elem_of_here|].
    split.
    + intros i. right. discriminate.
    + intros i [offset|]; split; reflexivity.
  - vm_compute. reflexivity.
  - exists ev'. split; [exact Hev'|]. split; [exact Hsub'|].
    assert (Z.of_nat (length [refused; video]) <= MAX_WORKERS) as Hroom
      by (vm_compute; discriminate).
    apply (Hall' (or_introl Hroom) video);
      [apply list_elem_of_further, list_elem_of_here|].
    split.
    + intros i. right. discriminate.
    + intros i [offset|]; split; reflexivity.
Defined.

(** C9 as stated fails: the answer to the size probe of one target
    carries a [Content-Length] that is no number.  [int] raises
    [ValueError] at line 127, outside every [try]: the batch raises, no
    target is handed to the pool, no GET is sent, and the healthy sibling
    is not downloaded. *)
Lemma probe_fault_aborts_the_batch :
  healthy server_one_bad_length video
  ∧ (download_files server_one_bad_length impatient 4 [video; faulty] MAX_WORKERS
       empty_world).1 = Raise ValueError
  ∧ submitted (trace (download_files server_one_bad_length impatient 4 [video; faulty]
                        MAX_WORKERS empty_world).2) = []
  ∧ gets_sent video (trace (download_files server_one_bad_length impatient 4
                              [video; faulty] MAX_WORKERS empty_world).2) = 0%nat
  ∧ download_dir (download_files server_one_bad_length impatient 4 [video; faulty]
                    MAX_WORKERS empty_world).2 !! "video.mp4" = None.
Proof.
  split; [|repeat split; reflexivity].
  split.
  - intros i. right. discriminate.
  - intros i [offset|]; split; reflexivity.
Qed.

(** C10.  The temporary file already holds all [total_size] bytes and the
    final file does not match.  [download_file] still sends a GET with
    [Range: bytes=total_size-]; it returns [Completed] only if the last
    request it sent was answered to its end, and otherwise leaves the
    download directory as it was; and when the server answers that request
    with an error status each time, and the delay between retries is not
    negative, the retries are used up and the outcome is [Failed], with
    the whole file still in the temporary directory. *)
Theorem whole_temp_is_fetched_again (net : network) (self : FileDownloader)
    (fuel : nat) (url : string) (w : world) (total_size : Z) (content : list byte) :
  (_get_file_size net url w).1 = Ret total_size →
  0 < total_size →
  temp_dir w !! basename url = Some content →
  size_of content = total_size →
  already_downloaded (basename url) total_size w = false →
  0 <= max_retries self →
  let run := download_file net self (S fuel) url w in
  (∃ ev rest, trace run.2 = trace w ++ ev
              ∧ ranges_sent url ev = Some total_size :: rest)
  ∧ (run.1 = Ret Completed →
     ∃ before h after,
       trace run.2 = trace w ++ before ++ EvGet url h :: after
       ∧ forallb quiet after = true
       ∧ attempt_succeeds (get_reply net url (gets_sent url (trace w ++ before)) h))
  ∧ (run.1 ≠ Ret Completed → download_dir run.2 = download_dir w)
  ∧ ((∀ i, ∃ status chunks broken,
        get_reply net url i (Some total_size) = GetResponse status chunks broken
        ∧ is_error_status status = true) →
     0 <= retry_delay self →
     (Z.to_nat (max_retries self) < fuel)%nat →
     run.1 = Ret Failed
     ∧ temp_dir run.2 !! basename url = Some content
     ∧ download_dir run.2 = download_dir w
     ∧ gets_sent url (trace run.2)
       = (gets_sent url (trace w) + Z.to_nat (max_retries self + 1))%nat).
Proof.
  intros Hp Hpos Htemp Hsize Ha Hmax. cbn zeta.
  assert (_get_existing_download_size (basename url) true w = total_size) as Hstart.
  { unfold _get_existing_download_size. by rewrite Htemp. }
  assert (initial_frame total_size = Frame total_size (Some total_size) 0) as Hinit.
  { unfold initial_frame. by rewrite (proj2 (Z.ltb_lt 0 total_size)). }
  split; [|split; [|split]].
  - destruct (download_file_first_get net self fuel url w total_size Hp Ha Hmax)
      as (ev & rest & Ht & Hranges).
    rewrite Hstart, Hinit in Hranges. eauto.
  - rewrite (download_file_loop net self (S fuel) url w total_size Hp Ha). cbn [fst snd].
    intros Hc. apply download_loop_completed in Hc
      as (before & h & after & Ht & Hq & Hok).
    destruct (_get_file_size_effects net url w) as (_ & _ & _ & ev & Hev & _).
    exists (ev ++ [EvLog INFO (MsgStarting (basename url) total_size
                                (_get_existing_download_size (basename url) true w))]
            ++ before), h, after.
    unfold _log in Ht, Hok. rewrite trace_emit, Hev, <- !app_assoc in Ht, Hok.
    rewrite <- !app_assoc. done.
  - rewrite (download_file_loop net self (S fuel) url w total_size Hp Ha). cbn [fst snd].
    intros H. rewrite (download_loop_keeps_final net self _ _ _ _ _ _ H).
    destruct (_get_file_size_effects net url w) as (_ & Hd & _). by rewrite <- Hd.
  - intros Hrej Hdelay Hfuel.
    rewrite (download_file_loop net self (S fuel) url w total_size Hp Ha). cbn [fst snd].
    rewrite Hstart, Hinit.
    destruct (_get_file_size_effects net url w) as (Ht & Hd & _ & ev & Hev & Hq).
    edestruct (download_loop_rejected net self url (basename url) total_size Hdelay
                 (Z.to_nat (max_retries self + 1)) (S fuel)
                 (Frame total_size (Some total_size) 0))
      as (fr' & w' & -> & Ht' & Hd' & _ & Hg'); [exact Hrej|cbn; lia|lia|].
    cbn [fst snd]. rewrite Ht', Hd', Hg'. cbn [temp_dir download_dir _log emit].
    rewrite Ht, Hd, Htemp. repeat split.
    unfold _log. rewrite trace_emit, Hev, !gets_sent_app.
    rewrite (gets_sent_quiet _ _ Hq), (gets_sent_quiet url [_]) by done. lia.
Qed.

Lemma whole_temp_is_fetched_again_witness :
  (∃ ev rest,
     trace (download_file server_range_unsatisfiable impatient 4 video
              world_with_whole_temp).2
     = trace world_with_whole_temp ++ ev
     ∧ ranges_sent video ev = Some 10 :: rest)
  ∧ (download_file server_range_unsatisfiable impatient 4 video world_with_whole_temp).1
    = Ret Failed
  ∧ temp_dir (download_file server_range_unsatisfiable impatient 4 video
                world_with_whole_temp).2 !! "video.mp4" = Some (body 10).
Proof.
  destruct (whole_temp_is_fetched_again server_range_unsatisfiable impatient 3 video
              world_with_whole_temp 10 (body 10))
    as (Hfirst & _ & _ & Hfailed); try reflexivity.
  - vm_compute. discriminate.
  - destruct Hfailed as (Hexit & Htemp & _).
    + intros i. exists 416, [], None. split; reflexivity.
    + vm_compute. discriminate.
    + vm_compute. lia.
    + split; [exact Hfirst|]. split; [exact Hexit|exact Htemp].
Defined.

(** ** Further properties of the code *)

(** *** The size probe *)

(** X1.  [_get_file_size] sends one HEAD request for the url and nothing
    else, and leaves the files and the bars alone.  It answers 0 whenever
    the request raises a [RequestException] or the status is an error
    status, and logs a warning in exactly those cases; otherwise it
    answers the number in the [Content-Length] header, or 0 when there
    is no such header.  The only exceptions that leave it are those of
    the request that are no [RequestException], and the [ValueError] of
    [int] for a [Content-Length] that is no number on a response without
    error status. *)
Theorem size_probe_degrades_to_zero (net : network) (url : string) (w : world) :
  let reply := head_reply net url (heads_sent url (trace w)) in
  let probe := _get_file_size net url w in
  let failed :=
    match reply with
    | HeadRaises e => is_RequestException e
    | HeadResponse status _ => is_error_status status
    end in
  probe.1 ≠ OutOfFuel
  ∧ (∀ e, probe.1 = Raise e
          ↔ reply = HeadRaises e ∧ is_RequestException e = false
            ∨ e = ValueError
              ∧ ∃ status, reply = HeadResponse status (Some Garbage)
                          ∧ is_error_status status = false)
  ∧ (failed = true → probe.1 = Ret 0)
  ∧ (∀ status n,
       reply = HeadResponse status (Some (Digits n)) →
       is_error_status status = false → probe.1 = Ret n)
  ∧ (∀ status,
       reply = HeadResponse status None →
       is_error_status status = false → probe.1 = Ret 0)
  ∧ (∃ ev, trace probe.2 = trace w ++ EvHead url :: ev
           ∧ (ev = [] ∨ ∃ e, ev = [EvLog WARNING (MsgSizeFailed url e)])
           ∧ (ev ≠ [] ↔ failed = true))
  ∧ temp_dir probe.2 = temp_dir w
  ∧ download_dir probe.2 = download_dir w
  ∧ progress_bars probe.2 = progress_bars w.
Proof.
  cbn zeta. unfold _get_file_size.
  destruct (head_reply net url (heads_sent url (trace w))) as [e|status len].
  - destruct (is_RequestException e) eqn:He; cbn [fst snd].
    + split; [done|]. split.
      { intros e'. split; [done|]. intros [[[= ->] H]|[_ (? & [=] & _)]]. congruence. }
      split; [done|]. split; [done|]. split; [done|]. split; [|done].
      exists [EvLog WARNING (MsgSizeFailed url e)]. unfold _log.
      rewrite !trace_emit, <- app_assoc. split; [done|]. split; [eauto|done].
    + split; [done|]. split.
      { intros e'. split; [intros [= ->]; by left|].
        by intros [[[= ->] _]|[_ (? & [=] & _)]]. }
      split; [done|]. split; [done|]. split; [done|]. split; [|done].
      exists []. rewrite trace_emit. split; [done|]. split; [auto|done].
  - destruct (is_error_status status) eqn:Hs; cbn [fst snd].
    + split; [done|]. split.
      { intros e'. split; [done|].
        intros [[[=] _]|[_ (? & [= <- _] & H)]]. congruence. }
      split; [done|]. split; [intros ? ? [= <- _]; congruence|].
      split; [intros ? [= <- _]; congruence|]. split; [|done].
      exists [EvLog WARNING (MsgSizeFailed url HTTPError)]. unfold _log.
      rewrite !trace_emit, <- app_assoc. split; [done|]. split; [eauto|done].
    + assert (∃ ev, trace (emit (EvHead url) w) = trace w ++ EvHead url :: ev
                    ∧ (ev = [] ∨ ∃ e, ev = [EvLog WARNING (MsgSizeFailed url e)])
                    ∧ (ev ≠ [] ↔ false = true)) as Htrace.
      { exists []. rewrite trace_emit. split; [done|]. split; [auto|done]. }
      destruct len as [[n|]|]; cbn [fst snd int].
      * split; [done|]. split.
        { intros e'. split; [done|]. by intros [[[=] _]|[_ (? & [=] & _)]]. }
        split; [done|]. split; [by intros ? ? [= _ <-]|]. split; [done|]. by split.
      * split; [done|]. split.
        { intros e'. split; [intros [= <-]; right; eauto|].
          by intros [[[=] _]|[-> _]]. }
        split; [done|]. split; [done|]. split; [done|]. by split.
      * split; [done|]. split.
        { intros e'. split; [done|]. by intros [[[=] _]|[_ (? & [=] & _)]]. }
        split; [done|]. split; [done|]. split; [done|]. by split.
Qed.

(** *** The connectivity gate *)

Lemma wait_for_internet_polls (net : network) (self : FileDownloader) (k : nat) :
  0 <= retry_delay self →
  ∀ (w : world) (fuel : nat),
    (∀ j, (j < k)%nat → ∃ e, ping_reply net (pings_sent (trace w) + j) = PingRaises e
                             ∧ is_ConnectionError e = true) →
    ping_reply net (pings_sent (trace w) + k) = PingAnswered →
    ((fuel ≤ k)%nat → (wait_for_internet net self fuel w).1 = OutOfFuel)
    ∧ ((k < fuel)%nat →
       wait_for_internet net self fuel w
       = (Ret tt,
          World (temp_dir w) (download_dir w) (progress_bars w)
            (trace w ++ polling k (retry_delay self) ++ [EvPing]))).
Proof.
  intros Hdelay. induction k as [|k IH]; intros w fuel Hdown Hup.
  - rewrite Nat.add_0_r in Hup. split; intros Hfuel.
    + by replace fuel with 0%nat by lia.
    + destruct fuel as [|fuel]; [lia|]. cbn [wait_for_internet]. unfold _check_internet.
      by rewrite Hup.
  - destruct (Hdown 0%nat) as (e & He & Hc); [lia|]. rewrite Nat.add_0_r in He.
    set (w1 := emit (EvSleep (retry_delay self))
                 (_log MsgNoInternet WARNING (emit EvPing w))).
    assert (pings_sent (trace w1) = S (pings_sent (trace w))) as Hp.
    { subst w1. unfold _log. rewrite !trace_emit, !pings_sent_app. cbn. lia. }
    destruct (IH w1 (Nat.pred fuel)) as [IHout IHret].
    { intros j Hj. destruct (Hdown (S j)) as (e' & He' & Hc'); [lia|].
      exists e'. split; [|done]. rewrite <- He'. f_equal. lia. }
    { rewrite <- Hup. f_equal. lia. }
    split; intros Hfuel.
    + destruct fuel as [|fuel]; [done|]. cbn [wait_for_internet]. unfold _check_internet.
      rewrite He, Hc. cbn zeta. rewrite sleep_some by done. apply IHout. cbn. lia.
    + destruct fuel as [|fuel]; [lia|]. cbn [wait_for_internet]. unfold _check_internet.
      rewrite He, Hc. cbn zeta. rewrite sleep_some by done. fold w1.
      cbn [Nat.pred] in IHret. rewrite IHret by lia.
      f_equal. subst w1. cbn. by rewrite <- !app_assoc.
Qed.

(** X2.  The wait of lines 114 to 116 when the network is down for [k]
    probes and then up.  With a delay that is not negative the probe is
    sent [k + 1] times, each failed probe is followed by a warning and a
    sleep of [retry_delay], nothing is slept after the answered one, no
    file or bar is touched, and until the answer the wait does not end.
    With a negative delay the sleep after the first failed probe raises:
    the wait ends with [ValueError] after one probe and one warning. *)
Theorem connectivity_gate_polls (net : network) (self : FileDownloader)
    (k fuel : nat) (w : world) :
  (∀ j, (j < k)%nat → ∃ e, ping_reply net (pings_sent (trace w) + j) = PingRaises e
                           ∧ is_ConnectionError e = true) →
  ping_reply net (pings_sent (trace w) + k) = PingAnswered →
  (0 <= retry_delay self →
   ((fuel ≤ k)%nat → (wait_for_internet net self fuel w).1 = OutOfFuel)
   ∧ ((k < fuel)%nat →
      wait_for_internet net self fuel w
      = (Ret tt,
         World (temp_dir w) (download_dir w) (progress_bars w)
           (trace w ++ polling k (retry_delay self) ++ [EvPing]))))
  ∧ (retry_delay self < 0 → (0 < k)%nat → (0 < fuel)%nat →
     wait_for_internet net self fuel w
     = (Raise ValueError,
        World (temp_dir w) (download_dir w) (progress_bars w)
          (trace w ++ [EvPing; EvLog WARNING MsgNoInternet]))).
Proof.
  intros Hdown Hup. split.
  - intros Hdelay. by apply wait_for_internet_polls.
  - intros Hdelay Hk Hfuel. destruct fuel as [|fuel]; [lia|].
    destruct (Hdown 0%nat) as (e & He & Hc); [lia|]. rewrite Nat.add_0_r in He.
    cbn [wait_for_internet]. unfold _check_internet. rewrite He, Hc. cbn zeta.
    rewrite sleep_none by done. f_equal. unfold _log, emit. cbn.
    by rewrite <- app_assoc.
Qed.

Lemma connectivity_gate_polls_witness :
  (wait_for_internet server_down_twice impatient 2 fresh_world).1 = OutOfFuel
  ∧ wait_for_internet server_down_twice impatient 3 fresh_world
    = (Ret tt,
       World ∅ ∅ {[ "video.mp4" := 0 ]}
         [EvPing; EvLog WARNING MsgNoInternet; EvSleep 5;
          EvPing; EvLog WARNING MsgNoInternet; EvSleep 5; EvPing])
  ∧ wait_for_internet server_down_twice hasty 3 fresh_world
    = (Raise ValueError,
       World ∅ ∅ {[ "video.mp4" := 0 ]} [EvPing; EvLog WARNING MsgNoInternet]).
Proof.
  assert (∀ j, (j < 2)%nat →
            ∃ e, ping_reply server_down_twice (pings_sent (trace fresh_world) + j)
                 = PingRaises e ∧ is_ConnectionError e = true) as Hdown.
  { intros [|[|j]] Hj; [exists ConnectionError; split; reflexivity..|lia]. }
  split; [|split].
  - apply (connectivity_gate_polls server_down_twice impatient 2 2 fresh_world);
      [exact Hdown|reflexivity|vm_compute; discriminate|lia].
  - apply (connectivity_gate_polls server_down_twice impatient 2 3 fresh_world);
      [exact Hdown|reflexivity|vm_compute; discriminate|lia].
  - apply (connectivity_gate_polls server_down_twice hasty 2 3 fresh_world);
      [exact Hdown|reflexivity|reflexivity|lia|lia].
Defined.

(** X3.  [_check_internet] catches [ConnectionError] only.  When an
    attempt has lost the connection and the connectivity probe then raises
    anything else (a read timeout, say), that exception is raised inside
    the [except] clause and leaves the loop: the transfer ends with it,
    without a retry being counted and without the [Failed] record. *)
Theorem probe_exception_escapes (net : network) (self : FileDownloader)
    (fuel : nat) (url filename : string) (total_size : Z) (fr : frame) (w : world)
    (e e' : exn) :
  attempt_raises (get_reply net url (gets_sent url (trace w)) (headers fr)) e →
  is_connection_lost e = true →
  is_Some (progress_bars w !! filename) →
  retries fr <= max_retries self →
  let t := try_fetch net url filename total_size fr w in
  ping_reply net (pings_sent (trace t.2)) = PingRaises e' →
  is_ConnectionError e' = false →
  download_loop net self (S (S fuel)) url filename total_size fr w
  = (Raise e', t.1.2,
     emit EvPing
       (emit (EvLog WARNING
                (MsgConnectionLost filename (retries fr) (max_retries self))) t.2)).
Proof.
  intros Ha Hc Hb Hr. cbn zeta. intros Hping He'.
  cbn [download_loop]. rewrite (proj2 (Z.leb_le _ _)) by done.
  rewrite (loop_body_reconnects net self (S fuel) _ _ _ _ _ _ Ha Hc Hb).
  pose proof (try_fetch_retries net url filename total_size fr w) as Hn.
  destruct (try_fetch net url filename total_size fr w) as [[r fr1] w1].
  cbn [fst snd] in *. unfold on_connection_lost. cbn [wait_for_internet].
  unfold _check_internet, _log. rewrite trace_emit, pings_sent_app. cbn [pings_sent].
  change (pings_sent [EvLog WARNING (MsgConnectionLost filename (retries fr1) (max_retries self))])
    with 0%nat.
  rewrite Nat.add_0_r, Hping, He', Hn. done.
Qed.

Lemma probe_exception_escapes_witness :
  (download_loop server_probe_times_out impatient 2 video "video.mp4" 10
     (initial_frame 0) fresh_world).1
  = (Raise ReadTimeout, Frame 0 None 0).
Proof.
  rewrite (probe_exception_escapes server_probe_times_out impatient 0 video "video.mp4" 10
             (initial_frame 0) fresh_world ConnectionError ReadTimeout).
  - reflexivity.
  - reflexivity.
  - reflexivity.
  - vm_compute. eauto.
  - vm_compute. discriminate.
  - reflexivity.
  - reflexivity.
Defined.

(** *** What a transfer leaves alone *)

Ltac fetch_cases net url filename total_size fr w :=
  unfold try_fetch;
  destruct (get_reply net url (gets_sent url (trace w)) (headers fr))
    as [?e|?status ?chunks ?broken] eqn:?Hreply;
  [|destruct (is_error_status status) eqn:?Hstatus;
    [|let fr1 := fresh "fr1" in
      let w1 := fresh "w1" in
      let E1 := fresh "E1" in
      destruct (renegotiate filename status fr (emit (EvGet url (headers fr)) w))
        as [fr1 w1] eqn:E1;
      destruct (progress_bars w1 !! filename) eqn:?Hbar;
      [let fr2 := fresh "fr2" in
       let w2 := fresh "w2" in
       let E2 := fresh "E2" in
       destruct (stream_body filename chunks fr1 w1) as [fr2 w2] eqn:E2;
       destruct broken as [?e|];
       [|let r := fresh "r" in
         let w3 := fresh "w3" in
         let E3 := fresh "E3" in
         destruct (finalize filename total_size w2) as [r w3] eqn:E3]|]]].

Lemma same_at_refl g w : same_at g w w.
Proof. done. Qed.

Lemma same_at_trans g w1 w2 w3 : same_at g w1 w2 → same_at g w2 w3 → same_at g w1 w3.
Proof. intros (? & ? & ?) (? & ? & ?). repeat split; congruence. Qed.

Lemma same_at_store g w w' :
  temp_dir w' = temp_dir w → download_dir w' = download_dir w →
  progress_bars w' = progress_bars w → same_at g w w'.
Proof. intros H1 H2 H3. unfold same_at. by rewrite H1, H2, H3. Qed.

Lemma renegotiate_same_at g filename status fr w :
  same_at g w (renegotiate filename status fr w).2.
Proof.
  destruct (renegotiate_dirs filename status fr w) as [H1 H2].
  apply same_at_store; [done|done|apply renegotiate_bars].
Qed.

Lemma stream_body_same_at g filename chunks fr w :
  g ≠ filename → same_at g w (stream_body filename chunks fr w).2.
Proof.
  intros Hne. split; [|split].
  - by apply stream_body_temp_other.
  - by rewrite stream_body_download_dir.
  - rewrite stream_body_bar. by rewrite decide_False.
Qed.

Lemma finalize_same_at g filename total_size w :
  g ≠ filename → same_at g w (finalize filename total_size w).2.
Proof.
  intros Hne. unfold finalize, os_replace. destruct (temp_dir w !! filename); [|done].
  split; [|split]; cbn.
  - by rewrite lookup_delete_ne.
  - by rewrite lookup_insert_ne.
  - by rewrite lookup_alter_ne.
Qed.

Lemma try_fetch_same_at (net : network) g url filename total_size fr w :
  g ≠ filename → same_at g w (try_fetch net url filename total_size fr w).2.
Proof.
  intros Hne. fetch_cases net url filename total_size fr w; cbn [fst snd]; try done.
  all: pose proof (renegotiate_same_at g filename status fr
                     (emit (EvGet url (headers fr)) w)) as H1;
    rewrite E1 in H1; cbn [snd] in H1.
  3: done.
  all: pose proof (stream_body_same_at g filename chunks fr1 w1 Hne) as H2;
    rewrite E2 in H2; cbn [snd] in H2.
  - eapply same_at_trans; [exact H1|exact H2].
  - pose proof (finalize_same_at g filename total_size w2 Hne) as H3.
    rewrite E3 in H3; cbn [snd] in H3.
    eapply same_at_trans; [exact H1|]. eapply same_at_trans; [exact H2|exact H3].
Qed.

Lemma loop_body_same_at (net : network) (self : FileDownloader)
    g fuel url filename total_size fr w :
  g ≠ filename →
  same_at g w (step_world (loop_body net self fuel url filename total_size fr w)).
Proof.
  intros Hne. unfold loop_body.
  pose proof (try_fetch_same_at net g url filename total_size fr w Hne) as H.
  destruct (try_fetch net url filename total_size fr w) as [[[[]|e|] fr1] w1];
    cbn [fst snd step_world] in *; try done.
  destruct (handle_exception_store net self fuel filename e fr1 w1) as (H1 & H2 & H3).
  eapply same_at_trans; [exact H|]. by apply same_at_store.
Qed.

Lemma download_loop_same_at (net : network) (self : FileDownloader)
    g fuel url filename total_size fr w :
  g ≠ filename →
  same_at g w (download_loop net self fuel url filename total_size fr w).2.
Proof.
  intros Hne. revert fr w. induction fuel as [|fuel IH]; intros fr w; [done|].
  cbn [download_loop]. destruct (retries fr <=? max_retries self); [|done].
  pose proof (loop_body_same_at net self g fuel url filename total_size fr w Hne) as H.
  destruct (loop_body net self fuel url filename total_size fr w) as [fr1 w1|r fr1 w1];
    cbn [step_world snd] in *; [|done].
  eapply same_at_trans; [exact H|apply IH].
Qed.

(** X4.  [download_file] works under one name only: whatever happens to
    the transfer, the temporary file, the final file and the bar of every
    other name are what they were, and no bar is added to or removed from
    [progress_bars]. *)
Theorem download_file_keeps_to_its_name (net : network) (self : FileDownloader)
    (fuel : nat) (url g : string) (w : world) :
  g ≠ basename url →
  same_at g w (download_file net self fuel url w).2
  ∧ dom (progress_bars (download_file net self fuel url w).2) = dom (progress_bars w).
Proof.
  intros Hne. split; [|apply download_file_bars_dom].
  unfold download_file.
  destruct (_get_file_size_effects net url w) as (Ht & Hd & Hb & _).
  destruct (_get_file_size net url w) as [[total|e|] w1]; cbn [snd] in *;
    [|by apply same_at_store..].
  destruct (already_downloaded _ _ _).
  - destruct (progress_bars _ !! _); [|by apply same_at_store].
    unfold same_at. cbn. by rewrite lookup_alter_ne, Ht, Hd, Hb.
  - pose proof (download_loop_same_at net self g fuel url (basename url) total
                  (initial_frame (_get_existing_download_size (basename url) true w1))
                  (_log (MsgStarting (basename url) total
                           (_get_existing_download_size (basename url) true w1)) INFO w1)
                  Hne) as H.
    destruct (download_loop _ _ _ _ _ _ _ _) as [[r fr] w']. cbn [snd] in *.
    eapply same_at_trans; [|exact H]. by apply same_at_store.
Qed.

Lemma download_file_keeps_to_its_name_witness :
  (download_file server_honest impatient 3 video world_with_neighbour).1 = Ret Completed
  ∧ same_at "other.mp4" world_with_neighbour
      (download_file server_honest impatient 3 video world_with_neighbour).2.
Proof.
  split; [reflexivity|].
  apply (download_file_keeps_to_its_name server_honest impatient 3 video "other.mp4"
           world_with_neighbour).
  vm_compute. discriminate.
Defined.

(** *** What the outcomes mean *)

Lemma try_fetch_ret_moved (net : network) url filename total_size fr w :
  (try_fetch net url filename total_size fr w).1.1 = Ret tt →
  let w' := (try_fetch net url filename total_size fr w).2 in
  temp_dir w' !! filename = None
  ∧ is_Some (download_dir w' !! filename)
  ∧ progress_bars w' !! filename = Some total_size
  ∧ ∃ earlier,
      trace w' = earlier ++ [EvReplace filename; EvLog INFO (MsgCompleted filename);
                             EvBarRefresh filename total_size].
Proof.
  cbn zeta. fetch_cases net url filename total_size fr w; cbn [fst snd]; try done.
  intros ->. unfold finalize, os_replace in E3.
  pose proof (stream_body_bar filename chunks fr1 w1 filename) as Hb2.
  rewrite E2, decide_True, Hbar in Hb2 by done. cbn [snd fmap option_fmap option_map] in Hb2.
  destruct (temp_dir w2 !! filename) as [content|]; [|done].
  inversion E3; subst. cbn. rewrite lookup_delete_eq, lookup_insert_eq, lookup_alter_eq, Hb2.
  repeat split; [eauto|]. exists (trace w2). by rewrite <- !app_assoc.
Qed.

Lemma loop_body_stop (net : network) (self : FileDownloader)
    fuel url filename total_size fr w r fr' w' :
  loop_body net self fuel url filename total_size fr w = Stop r fr' w' →
  r ≠ Ret Failed ∧ r ≠ Ret AlreadyDownloaded
  ∧ (r = Ret Completed →
     (try_fetch net url filename total_size fr w).1.1 = Ret tt
     ∧ w' = (try_fetch net url filename total_size fr w).2).
Proof.
  unfold loop_body, handle_exception.
  destruct (try_fetch net url filename total_size fr w) as [[[[]|e|] fr1] w1];
    cbn [fst snd].
  - by intros [= <- <- <-].
  - destruct (is_connection_lost e).
    + by destruct (on_connection_lost net self fuel filename fr1 w1)
        as [[[[]|e'|] fr2] w2]; intros [= <- <- <-].
    + destruct (is_RequestException e); [|by intros [= <- <- <-]].
      unfold on_request_exception. by destruct (sleep _ _); intros [= <- <- <-].
  - by intros [= <- <- <-].
Qed.

Lemma download_loop_completed_moved (net : network) (self : FileDownloader)
    fuel url filename total_size fr w :
  (download_loop net self fuel url filename total_size fr w).1.1 = Ret Completed →
  let w' := (download_loop net self fuel url filename total_size fr w).2 in
  temp_dir w' !! filename = None
  ∧ is_Some (download_dir w' !! filename)
  ∧ progress_bars w' !! filename = Some total_size
  ∧ ∃ earlier,
      trace w' = earlier ++ [EvReplace filename; EvLog INFO (MsgCompleted filename);
                             EvBarRefresh filename total_size].
Proof.
  cbn zeta. revert fr w. induction fuel as [|fuel IH]; intros fr w; [done|].
  cbn [download_loop]. destruct (retries fr <=? max_retries self); [|done].
  pose proof (loop_body_stop net self fuel url filename total_size fr w) as Hstop.
  destruct (loop_body net self fuel url filename total_size fr w) as [fr1 w1|r fr1 w1].
  - apply IH.
  - cbn [fst snd]. intros ->.
    destruct (Hstop _ _ _ eq_refl) as (_ & _ & H). destruct H as [Hret ->]; [done|].
    by apply try_fetch_ret_moved.
Qed.

(** X5.  What [Completed] means.  When [download_file] returns after the
    move, the temporary file is gone, a final file is there, the bar
    stands at the probed size, and the last three things that happened are
    the move, the completion record and the closing refresh of the bar. *)
Theorem completed_means_moved (net : network) (self : FileDownloader)
    (fuel : nat) (url : string) (w : world) (total_size : Z) :
  (_get_file_size net url w).1 = Ret total_size →
  (download_file net self fuel url w).1 = Ret Completed →
  let w' := (download_file net self fuel url w).2 in
  temp_dir w' !! basename url = None
  ∧ is_Some (download_dir w' !! basename url)
  ∧ progress_bars w' !! basename url = Some total_size
  ∧ ∃ earlier,
      trace w' = earlier ++ [EvReplace (basename url);
                             EvLog INFO (MsgCompleted (basename url));
                             EvBarRefresh (basename url) total_size].
Proof.
  intros Hp. cbn zeta. unfold download_file.
  destruct (_get_file_size net url w) as [r w1]. cbn [fst] in Hp. subst r.
  destruct (already_downloaded _ _ _).
  - by destruct (progress_bars _ !! _).
  - pose proof (download_loop_completed_moved net self fuel url (basename url) total_size
                  (initial_frame (_get_existing_download_size (basename url) true w1))
                  (_log (MsgStarting (basename url) total_size
                           (_get_existing_download_size (basename url) true w1)) INFO w1))
      as H.
    destruct (download_loop _ _ _ _ _ _ _ _) as [[r fr] w']. cbn [fst snd] in *.
    exact H.
Qed.

Lemma completed_means_moved_witness :
  temp_dir (download_file server_honest impatient 1 video world_with_partial).2
  !! "video.mp4" = None
  ∧ is_Some (download_dir (download_file server_honest impatient 1 video
                             world_with_partial).2 !! "video.mp4")
  ∧ progress_bars (download_file server_honest impatient 1 video world_with_partial).2
    !! "video.mp4" = Some 10.
Proof.
  destruct (completed_means_moved server_honest impatient 1 video world_with_partial 10)
    as (Htemp & Hfinal & Hbar & _); [reflexivity|reflexivity|].
  split; [exact Htemp|]. split; [exact Hfinal|exact Hbar].
Defined.

(** X6.  Nothing unfinished is ever visible in the download directory:
    unless [download_file] returns after the move, whether it returns
    early, gives up, raises or is still running, the download directory is
    exactly what it was. *)
Theorem download_dir_changes_only_on_completion (net : network) (self : FileDownloader)
    (fuel : nat) (url : string) (w : world) :
  (download_file net self fuel url w).1 ≠ Ret Completed →
  download_dir (download_file net self fuel url w).2 = download_dir w.
Proof.
  unfold download_file.
  destruct (_get_file_size_effects net url w) as (_ & Hd & _).
  destruct (_get_file_size net url w) as [[total|e|] w1]; cbn [fst snd] in *; try done.
  destruct (already_downloaded _ _ _).
  - by destruct (progress_bars _ !! _).
  - pose proof (download_loop_keeps_final net self fuel url (basename url) total
                  (initial_frame (_get_existing_download_size (basename url) true w1))
                  (_log (MsgStarting (basename url) total
                           (_get_existing_download_size (basename url) true w1)) INFO w1))
      as H.
    destruct (download_loop _ _ _ _ _ _ _ _) as [[r fr] w']. cbn [fst snd] in *.
    intros Hr. by rewrite H.
Qed.

Lemma download_dir_changes_only_on_completion_witness :
  (download_file server_breaks_once impatient 1 video world_with_neighbour).1 = OutOfFuel
  ∧ temp_dir (download_file server_breaks_once impatient 1 video world_with_neighbour).2
    !! "video.mp4" = Some (body 6)
  ∧ download_dir (download_file server_breaks_once impatient 1 video
                    world_with_neighbour).2
    = download_dir world_with_neighbour.
Proof.
  split; [reflexivity|]. split; [reflexivity|].
  apply (download_dir_changes_only_on_completion server_breaks_once impatient 1 video
           world_with_neighbour).
  vm_compute. discriminate.
Defined.

(** *** The retry budget *)

(** X7.  With a negative [max_retries] the loop condition fails at once:
    a target that is not already downloaded is given up without a single
    GET, and no file or bar changes. *)
Theorem negative_budget_sends_nothing (net : network) (self : FileDownloader)
    (fuel : nat) (url : string) (w : world) (total_size : Z) :
  max_retries self < 0 →
  (_get_file_size net url w).1 = Ret total_size →
  already_downloaded (basename url) total_size w = false →
  let run := download_file net self (S fuel) url w in
  run.1 = Ret Failed
  ∧ gets_sent url (trace run.2) = gets_sent url (trace w)
  ∧ last (trace run.2) = Some (EvLog ERROR (MsgExceeded (basename url)))
  ∧ temp_dir run.2 = temp_dir w
  ∧ download_dir run.2 = download_dir w
  ∧ progress_bars run.2 = progress_bars w.
Proof.
  intros Hneg Hp Ha. cbn zeta.
  rewrite (download_file_loop net self (S fuel) url w total_size Hp Ha).
  cbn [download_loop initial_frame retries]. rewrite (proj2 (Z.leb_gt _ _)) by lia.
  cbn [fst snd].
  destruct (_get_file_size_effects net url w) as (Ht & Hd & Hb & ev & Hev & Hq).
  split; [done|]. split; [|split; [|done]].
  - unfold _log. rewrite !trace_emit, Hev, !gets_sent_app.
    rewrite (gets_sent_quiet _ _ Hq), !(gets_sent_quiet url [_]) by done. lia.
  - unfold _log. rewrite trace_emit. apply last_snoc.
Qed.

Lemma negative_budget_sends_nothing_witness :
  (download_file server_honest forbidding 1 video world_with_partial).1 = Ret Failed
  ∧ gets_sent video (trace (download_file server_honest forbidding 1 video
                              world_with_partial).2) = 0%nat.
Proof.
  destruct (negative_budget_sends_nothing server_honest forbidding 0 video
              world_with_partial 10) as (Hexit & Hgets & _).
  - vm_compute. reflexivity.
  - reflexivity.
  - reflexivity.
  - split; [exact Hexit|exact Hgets].
Defined.

Lemma loop_body_retries (net : network) (self : FileDownloader)
    fuel url filename total_size fr w fr' w' :
  loop_body net self fuel url filename total_size fr w = Next fr' w' →
  retries fr' = retries fr ∨ retries fr' = retries fr + 1.
Proof.
  unfold loop_body, handle_exception.
  pose proof (try_fetch_retries net url filename total_size fr w) as Hn.
  destruct (try_fetch net url filename total_size fr w) as [[[[]|e|] fr1] w1];
    cbn [fst snd] in *; try done.
  destruct (is_connection_lost e).
  - pose proof (on_connection_lost_frame net self fuel filename fr1 w1) as Hf.
    destruct (on_connection_lost net self fuel filename fr1 w1) as [[[[]|e'|] fr2] w2];
      try done.
    intros [= <- <-]. left. destruct Hf as [Hf _]. lia.
  - destruct (is_RequestException e); [|done].
    unfold on_request_exception. destruct (sleep _ _); [|done].
    intros [= <- <-]. right. cbn. lia.
Qed.

(** X8.  The loop gives up only with the budget used up: however lost
    connections and counted failures alternate, when the loop ends at the
    line after it the retry counter stands at [max_retries + 1], or at the
    value the loop was entered with if that was larger already (the
    transfer enters it at 0, so that takes a [max_retries] below -1); the
    last record is the one of that line. *)
Theorem gives_up_with_budget_used_up (net : network) (self : FileDownloader)
    (fuel : nat) (url filename : string) (total_size : Z) (fr : frame) (w : world) :
  (download_loop net self fuel url filename total_size fr w).1.1 = Ret Failed →
  retries (download_loop net self fuel url filename total_size fr w).1.2
  = Z.max (retries fr) (max_retries self + 1)
  ∧ last (trace (download_loop net self fuel url filename total_size fr w).2)
    = Some (EvLog ERROR (MsgExceeded filename)).
Proof.
  revert fr w. induction fuel as [|fuel IH]; intros fr w; [done|].
  cbn [download_loop]. destruct (retries fr <=? max_retries self) eqn:Hle.
  - apply Z.leb_le in Hle.
    pose proof (loop_body_retries net self fuel url filename total_size fr w) as Hstep.
    pose proof (loop_body_stop net self fuel url filename total_size fr w) as Hstop.
    destruct (loop_body net self fuel url filename total_size fr w) as [fr1 w1|r fr1 w1].
    + intros Hf. destruct (IH fr1 w1 Hf) as [-> Hlast]. split; [|done].
      destruct (Hstep _ _ eq_refl); lia.
    + cbn [fst snd]. intros ->. by destruct (Hstop _ _ _ eq_refl) as (? & _).
  - apply Z.leb_gt in Hle. cbn [fst snd]. intros _. split; [lia|].
    unfold _log. rewrite trace_emit. apply last_snoc.
Qed.

Lemma gives_up_with_budget_used_up_witness :
  retries (download_loop server_always_500 impatient 5 video "video.mp4" 10
             (initial_frame 0) fresh_world).1.2 = 3
  ∧ last (trace (download_loop server_always_500 impatient 5 video "video.mp4" 10
                   (initial_frame 0) fresh_world).2)
    = Some (EvLog ERROR (MsgExceeded "video.mp4")).
Proof.
  apply (gives_up_with_budget_used_up server_always_500 impatient 5 video "video.mp4" 10
           (initial_frame 0) fresh_world).
  reflexivity.
Defined.

(** *** The byte counter *)

Lemma size_of_default (o : option (list byte)) :
  size_of (default [] o) = match o with Some content => size_of content | None => 0 end.
Proof. by destruct o. Qed.

(** X9.  Between turns of the loop [start_bytes] is the size of the
    temporary file: if it is when a turn begins, it is when the turn hands
    back to the loop condition, whether the attempt failed before or in
    the middle of the body and whichever [except] clause took it.  (This
    is what makes opening with [ab] and counting from [start_bytes]
    agree.) *)
Theorem byte_counter_is_temp_size (net : network) (self : FileDownloader)
    (fuel : nat) (url filename : string) (total_size : Z)
    (fr fr' : frame) (w w' : world) :
  start_bytes fr = _get_existing_download_size filename true w →
  loop_body net self fuel url filename total_size fr w = Next fr' w' →
  start_bytes fr' = _get_existing_download_size filename true w'.
Proof.
  intros Hinv. unfold loop_body.
  assert (∀ e fr1 w1,
    start_bytes fr1 = _get_existing_download_size filename true w1 →
    handle_exception net self fuel filename e fr1 w1 = Next fr' w' →
    start_bytes fr' = _get_existing_download_size filename true w') as Hhandle.
  { intros e fr1 w1 H1. unfold handle_exception. destruct (is_connection_lost e).
    - pose proof (on_connection_lost_frame net self fuel filename fr1 w1) as Hf.
      destruct (on_connection_lost net self fuel filename fr1 w1)
        as [[[[]|e'|] fr2] w2]; try done.
      intros [= <- <-]. by apply Hf.
    - destruct (is_RequestException e); [|done].
      unfold on_request_exception. destruct (sleep _ _) as [w0|] eqn:Hs; [|done].
      apply sleep_inv in Hs as [_ ->]. intros [= <- <-]. exact H1. }
  fetch_cases net url filename total_size fr w; cbn [fst snd].
  - by apply Hhandle.
  - by apply Hhandle.
  - apply Hhandle.
    pose proof (stream_body_frame filename chunks fr1 w1) as Hf2.
    pose proof (stream_body_temp filename chunks fr1 w1) as Ht2.
    rewrite E2 in Hf2, Ht2. cbn [fst snd] in *. subst fr2. cbn [start_bytes].
    unfold _get_existing_download_size at 1. rewrite Ht2, size_of_app. f_equal.
    unfold renegotiate in E1.
    destruct ((0 <? start_bytes fr) && negb (status =? 206)) eqn:Hre;
      inversion E1; subst; cbn [start_bytes temp_dir _log emit].
    + done.
    + unfold _get_existing_download_size in Hinv.
      destruct (0 <? start_bytes fr1) eqn:Hpos.
      { rewrite size_of_default. exact Hinv. }
      { apply Z.ltb_ge in Hpos. rewrite Hinv in *.
        destruct (temp_dir w !! filename) as [c|]; [|done].
        pose proof (size_of_nonneg c). unfold size_of at 2. cbn. lia. }
  - destruct r as [[]|e|]; [done| |done].
    unfold finalize, os_replace in E3. destruct (temp_dir w2 !! filename); [done|].
    inversion E3; subst. done.
  - unfold handle_exception. done.
Qed.

Lemma byte_counter_is_temp_size_witness :
  loop_body server_breaks_once impatient 1 video "video.mp4" 10 (initial_frame 4)
    world_with_partial
  = Next (Frame 6 (Some 4) 1)
      (step_world (loop_body server_breaks_once impatient 1 video "video.mp4" 10
                     (initial_frame 4) world_with_partial))
  ∧ _get_existing_download_size "video.mp4" true
      (step_world (loop_body server_breaks_once impatient 1 video "video.mp4" 10
                     (initial_frame 4) world_with_partial)) = 6.
Proof.
  split; [reflexivity|]. symmetry.
  apply (byte_counter_is_temp_size server_breaks_once impatient 1 video "video.mp4" 10
           (initial_frame 4) (Frame 6 (Some 4) 1) world_with_partial); reflexivity.
Defined.

(** X10.  A target the server turns down with an error status every
    time, with [k] retries left and a delay that is not negative: the loop
    sends the same request [k] times, each followed by an error record
    carrying the new count and by a sleep of [retry_delay] (also after the
    last one), then writes the record of the line after the loop; the
    offset, the header, the files and the bars are what they were. *)
Theorem refused_target_trace (net : network) (self : FileDownloader)
    (url filename : string) (total_size : Z) (k : nat) :
  0 <= retry_delay self →
  ∀ (fuel : nat) (fr : frame) (w : world),
    (∀ i, ∃ status chunks broken,
       get_reply net url i (headers fr) = GetResponse status chunks broken
       ∧ is_error_status status = true) →
    retries fr + Z.of_nat k = max_retries self + 1 →
    (k < fuel)%nat →
    download_loop net self fuel url filename total_size fr w
    = (Ret Failed,
       Frame (start_bytes fr) (headers fr) (max_retries self + 1),
       World (temp_dir w) (download_dir w) (progress_bars w)
         (trace w ++ refusals self url filename (headers fr) k (retries fr)
            ++ [EvLog ERROR (MsgExceeded filename)])).
Proof.
  intros Hdelay. induction k as [|k IH]; intros fuel fr w Hrej Hr Hfuel.
  - destruct fuel as [|fuel]; [lia|]. cbn [download_loop].
    rewrite (proj2 (Z.leb_gt _ _)) by lia. destruct fr as [sb h r]. cbn in *.
    replace r with (max_retries self + 1) by lia. done.
  - destruct fuel as [|fuel]; [lia|]. cbn [download_loop].
    rewrite (proj2 (Z.leb_le _ _)) by lia.
    destruct (Hrej (gets_sent url (trace w))) as (status & chunks & broken & Hreply & Hs).
    unfold loop_body, try_fetch. rewrite Hreply, Hs.
    unfold handle_exception. cbn [is_connection_lost is_ConnectionError is_RequestException].
    unfold on_request_exception. rewrite sleep_some by done.
    rewrite IH; [|exact Hrej|cbn; lia|lia].
    cbn [start_bytes headers retries temp_dir download_dir progress_bars trace
         _log emit refusals].
    do 2 f_equal. rewrite <- !app_assoc. done.
Qed.

Lemma refused_target_trace_witness :
  download_loop server_range_unsatisfiable impatient 3 video "video.mp4" 10
    (Frame 10 (Some 10) 1) world_with_whole_temp
  = (Ret Failed, Frame 10 (Some 10) 3,
     World {[ "video.mp4" := body 10 ]} ∅ {[ "video.mp4" := 10 ]}
       [EvGet video (Some 10); EvLog ERROR (MsgError "video.mp4" HTTPError 2 2); EvSleep 5;
        EvGet video (Some 10); EvLog ERROR (MsgError "video.mp4" HTTPError 3 2); EvSleep 5;
        EvLog ERROR (MsgExceeded "video.mp4")]).
Proof.
  apply (refused_target_trace server_range_unsatisfiable impatient video "video.mp4" 10 2);
    [vm_compute; discriminate| | |].
  - intros i. exists 416, [], None. split; reflexivity.
  - reflexivity.
  - lia.
Defined.

(** *** A missing bar *)

(** X11.  [download_file] needs the bar of its file in [progress_bars].
    Without it, a target that is already downloaded, or whose first request
    is answered with a status that is no error, ends with a [KeyError]:
    raised at line 80 or at line 96, which no [except] clause of the loop
    catches.  The temporary file is not opened, so no file changes. *)
Theorem missing_bar_raises_key_error (net : network) (self : FileDownloader)
    (fuel : nat) (url : string) (w : world) (total_size : Z) :
  progress_bars w !! basename url = None →
  (_get_file_size net url w).1 = Ret total_size →
  0 <= max_retries self →
  let start := _get_existing_download_size (basename url) true w in
  already_downloaded (basename url) total_size w = true
  ∨ (∃ status chunks broken,
       get_reply net url (gets_sent url (trace w)) (headers (initial_frame start))
       = GetResponse status chunks broken
       ∧ is_error_status status = false) →
  let run := download_file net self (S fuel) url w in
  run.1 = Raise KeyError
  ∧ temp_dir run.2 = temp_dir w
  ∧ download_dir run.2 = download_dir w
  ∧ progress_bars run.2 = progress_bars w.
Proof.
  intros Hnone Hp Hmax. cbn zeta. intros Hcase.
  destruct (_get_file_size_effects net url w) as (Ht & Hd & Hb & ev & Hev & Hq).
  destruct (already_downloaded (basename url) total_size w) eqn:Ha.
  - unfold download_file.
    destruct (_get_file_size net url w) as [r w1]. cbn [fst snd] in *. subst r.
    rewrite (already_downloaded_store _ _ w); [|by cbn]. rewrite Ha.
    cbn [progress_bars _log emit]. rewrite Hb, Hnone. done.
  - destruct Hcase as [|(status & chunks & broken & Hreply & Hs)]; [done|].
    rewrite (download_file_loop net self (S fuel) url w total_size Hp Ha). cbn [fst snd].
    set (start := _get_existing_download_size (basename url) true w) in *.
    set (w1 := _log (MsgStarting (basename url) total_size start) INFO
                 (_get_file_size net url w).2).
    assert (gets_sent url (trace w1) = gets_sent url (trace w)) as Hg.
    { subst w1. unfold _log. rewrite trace_emit, Hev, !gets_sent_app.
      rewrite (gets_sent_quiet _ _ Hq), (gets_sent_quiet url [_]) by done. lia. }
    cbn [download_loop]. rewrite (proj2 (Z.leb_le _ _)) by done.
    unfold loop_body, try_fetch. rewrite Hg, Hreply, Hs.
    pose proof (renegotiate_bars (basename url) status (initial_frame start)
                  (emit (EvGet url (headers (initial_frame start))) w1)) as Hrb.
    destruct (renegotiate_dirs (basename url) status (initial_frame start)
                (emit (EvGet url (headers (initial_frame start))) w1)) as [Hrt Hrd].
    destruct (renegotiate (basename url) status (initial_frame start)
                (emit (EvGet url (headers (initial_frame start))) w1)) as [fr1 w2].
    cbn [fst snd] in *. rewrite Hrb. subst w1. cbn [progress_bars _log emit].
    rewrite Hb, Hnone. unfold handle_exception. cbn [is_connection_lost is_ConnectionError
      is_RequestException fst snd].
    rewrite Hrt, Hrd, Hrb. cbn [temp_dir download_dir progress_bars _log emit].
    by rewrite Ht, Hd, Hb.
Qed.

Lemma missing_bar_raises_key_error_witness :
  (download_file server_honest impatient 1 video world_without_bar).1 = Raise KeyError
  ∧ temp_dir (download_file server_honest impatient 1 video world_without_bar).2
    = temp_dir world_without_bar.
Proof.
  destruct (missing_bar_raises_key_error server_honest impatient 0 video
              world_without_bar 10) as (Hexit & Htemp & _).
  - reflexivity.
  - reflexivity.
  - vm_compute. discriminate.
  - right. exists 206, [body 6], None. split; reflexivity.
  - split; [exact Hexit|exact Htemp].
Defined.

(** *** Setting up and closing the batch *)

Lemma heads_of_app t1 t2 : heads_of (t1 ++ t2) = heads_of t1 ++ heads_of t2.
Proof. induction t1 as [|e t1 IH]; [done|]. destruct e; cbn; by rewrite ?IH. Qed.

Lemma probe_sizes_spec (net : network) (urls : list string) :
  ∀ (file_sizes : gmap string Z) (w : world),
    let probe := probe_sizes net urls file_sizes w in
    probe.1 ≠ OutOfFuel
    ∧ (∀ e, probe.1 = Raise e → is_RequestException e = false)
    ∧ (∀ sizes, probe.1 = Ret sizes →
         (∀ url, url ∈ urls → is_Some (sizes !! basename url))
         ∧ (∀ g, g ∉ basename <$> urls → sizes !! g = file_sizes !! g)
         ∧ ∃ ev, trace probe.2 = trace w ++ ev ∧ heads_of ev = urls)
    ∧ temp_dir probe.2 = temp_dir w
    ∧ download_dir probe.2 = download_dir w
    ∧ progress_bars probe.2 = progress_bars w.
Proof.
  induction urls as [|url rest IH]; intros file_sizes w; cbn zeta.
  { cbn. split; [done|]. split; [done|]. split; [|done].
    intros sizes [= <-]. split; [intros url Hin; by apply elem_of_nil in Hin|].
    split; [done|]. exists []. by rewrite app_nil_r. }
  cbn [probe_sizes].
  destruct (_get_file_size_effects net url w) as (Ht & Hd & Hb & _).
  assert (∃ ev0, trace (_get_file_size net url w).2 = trace w ++ ev0
                 ∧ heads_of ev0 = [url]) as (ev0 & Hev0 & Hh0).
  { unfold _get_file_size.
    destruct (head_reply net url (heads_sent url (trace w))) as [e|status len].
    - destruct (is_RequestException e); cbn.
      + exists [EvHead url; EvLog WARNING (MsgSizeFailed url e)]. by rewrite <- app_assoc.
      + by exists [EvHead url].
    - destruct (is_error_status status); [|destruct len as [text|]]; cbn.
      + exists [EvHead url; EvLog WARNING (MsgSizeFailed url HTTPError)].
        by rewrite <- app_assoc.
      + by exists [EvHead url].
      + by exists [EvHead url]. }
  assert (∀ e, (_get_file_size net url w).1 = Raise e → is_RequestException e = false)
    as Hraise.
  { intros e. unfold _get_file_size.
    destruct (head_reply net url (heads_sent url (trace w))) as [e0|status len].
    - destruct (is_RequestException e0) eqn:He0; [done|]. by intros [= <-].
    - destruct (is_error_status status); [done|].
      destruct len as [[n|]|]; cbn; [done| |done]. by intros [= <-]. }
  assert ((_get_file_size net url w).1 ≠ OutOfFuel) as Hfuel.
  { unfold _get_file_size.
    destruct (head_reply net url (heads_sent url (trace w))) as [e0|status len].
    - by destruct (is_RequestException e0).
    - destruct (is_error_status status); [done|]. by destruct len as [[n|]|]. }
  destruct (_get_file_size net url w) as [[n|e|] w1]; cbn [fst snd] in *.
  - destruct (IH (<[basename url := n]> file_sizes) w1) as (H1 & H2 & H3 & H4 & H5 & H6).
    split; [done|]. split; [done|]. split; [|by rewrite H4, H5, H6].
    intros sizes Hret. destruct (H3 sizes Hret) as (Hall & Hother & ev & Hev & Hheads).
    split; [|split].
    + intros u [->|Hu]%elem_of_cons; [|by apply Hall].
      destruct (decide (basename url ∈ basename <$> rest)) as [Hin|Hnin].
      * apply list_elem_of_fmap in Hin as (u' & -> & Hu'). by apply Hall.
      * rewrite (Hother _ Hnin), lookup_insert_eq. eauto.
    + intros g Hg. rewrite fmap_cons, not_elem_of_cons in Hg. destruct Hg as [Hne Hg].
      by rewrite (Hother g Hg), lookup_insert_ne.
    + exists (ev0 ++ ev). rewrite Hev, Hev0, <- app_assoc. split; [done|].
      by rewrite heads_of_app, Hh0, Hheads.
  - split; [done|]. split; [intros e' [= <-]; by apply Hraise|]. done.
  - done.
Qed.

(** X12.  The sizes are probed once per url, in the order of the list,
    before anything else happens, and no file or bar is touched.  The probe
    of a batch raises only what is no [RequestException] (raised by a
    HEAD request, or by [int]); when it returns, the dictionary has a size for the
    file name of every url (so that line 131 finds its key) and is
    unchanged at every other name. *)
Theorem probe_sizes_covers_the_batch (net : network) (urls : list string) :
  ∀ (file_sizes : gmap string Z) (w : world),
    let probe := probe_sizes net urls file_sizes w in
    probe.1 ≠ OutOfFuel
    ∧ (∀ e, probe.1 = Raise e → is_RequestException e = false)
    ∧ (∀ sizes, probe.1 = Ret sizes →
         (∀ url, url ∈ urls → is_Some (sizes !! basename url))
         ∧ (∀ g, g ∉ basename <$> urls → sizes !! g = file_sizes !! g)
         ∧ ∃ ev, trace probe.2 = trace w ++ ev ∧ heads_of ev = urls)
    ∧ temp_dir probe.2 = temp_dir w
    ∧ download_dir probe.2 = download_dir w
    ∧ progress_bars probe.2 = progress_bars w.
Proof. apply probe_sizes_spec. Qed.

(** X13.  One bar is made per file name, and each bar starts at the
    number of bytes the temporary file of that name holds when the bars
    are made (0 if there is none), whatever the download directory holds.
    Making the bars touches no file; bars under other names are kept. *)
Theorem bars_start_at_temp_size (urls : list string) (file_sizes : gmap string Z) :
  ∀ (bars : gmap string Z) (w : world),
    let made := make_bars urls file_sizes bars w in
    let in_temp g :=
      match temp_dir w !! g with
      | Some content => size_of content
      | None => 0
      end in
    (∀ url, url ∈ urls → made.1 !! basename url = Some (in_temp (basename url)))
    ∧ (∀ g, g ∉ basename <$> urls → made.1 !! g = bars !! g)
    ∧ trace made.2
      = trace w ++ ((λ url, EvBarCreate (basename url)
                              (default 0 (file_sizes !! basename url))
                              (in_temp (basename url)))
                    <$> urls)
    ∧ temp_dir made.2 = temp_dir w
    ∧ download_dir made.2 = download_dir w
    ∧ progress_bars made.2 = progress_bars w.
Proof.
  induction urls as [|url rest IH]; intros bars w; cbn zeta.
  { cbn. rewrite app_nil_r. split; [intros url Hin; by apply elem_of_nil in Hin|done]. }
  cbn [make_bars]. unfold _get_existing_download_size.
  set (n := match temp_dir w !! basename url with
            | Some content => size_of content
            | None => 0
            end).
  set (w1 := emit (EvBarCreate (basename url) (default 0 (file_sizes !! basename url)) n) w).
  destruct (IH (<[basename url := n]> bars) w1) as (Hall & Hother & Htrace & Ht & Hd & Hb).
  assert (temp_dir w1 = temp_dir w) as Hsame by done. rewrite Hsame in *.
  split; [|split; [|split; [|done]]].
  - intros u [->|Hu]%elem_of_cons.
    + destruct (decide (basename url ∈ basename <$> rest)) as [Hin|Hnin].
      * apply list_elem_of_fmap in Hin as (u' & Heq & Hu').
        pose proof (Hall u' Hu') as H. rewrite <- Heq in H. exact H.
      * by rewrite (Hother _ Hnin), lookup_insert_eq.
    + exact (Hall u Hu).
  - intros g Hg. rewrite fmap_cons, not_elem_of_cons in Hg. destruct Hg as [Hne Hg].
    by rewrite (Hother g Hg), lookup_insert_ne.
  - rewrite Htrace. subst w1. rewrite trace_emit, <- app_assoc. done.
Qed.

Lemma bars_start_at_temp_size_witness :
  (make_bars [video; "https://host.example/media/other.mp4";
              "https://host.example/media/new.mp4"]
     {[ "video.mp4" := 10 ]} ∅ world_with_neighbour).1
  = {[ "video.mp4" := 4; "other.mp4" := 3; "new.mp4" := 0 ]}
  ∧ trace (make_bars [video; "https://host.example/media/other.mp4";
                      "https://host.example/media/new.mp4"]
             {[ "video.mp4" := 10 ]} ∅ world_with_neighbour).2
    = [EvBarCreate "video.mp4" 10 4; EvBarCreate "other.mp4" 0 3;
       EvBarCreate "new.mp4" 0 0].
Proof.
  destruct (bars_start_at_temp_size
              [video; "https://host.example/media/other.mp4";
               "https://host.example/media/new.mp4"]
              {[ "video.mp4" := 10 ]} ∅ world_with_neighbour)
    as (_ & _ & Htrace & _).
  split; [vm_compute; reflexivity|]. rewrite Htrace. vm_compute. reflexivity.
Defined.

Lemma dict_keys_spec (names : list string) :
  ∀ seen, NoDup seen →
    NoDup (dict_keys seen names)
    ∧ ∀ g, g ∈ dict_keys seen names ↔ g ∈ seen ∨ g ∈ names.
Proof.
  induction names as [|name rest IH]; intros seen Hnd.
  { split; [done|]. intros g. rewrite elem_of_nil. tauto. }
  cbn [dict_keys]. case_bool_decide as Hin.
  - destruct (IH seen Hnd) as [H1 H2]. split; [done|].
    intros g. rewrite H2, elem_of_cons. split; [tauto|].
    intros [?|[->|?]]; auto.
  - destruct (IH (seen ++ [name])) as [H1 H2].
    { apply NoDup_app. split; [done|]. split; [|apply NoDup_singleton].
      intros x Hx ->%list_elem_of_singleton. done. }
    split; [done|]. intros g. rewrite H2, elem_of_app, list_elem_of_singleton, elem_of_cons.
    tauto.
Qed.

(** X14.  When a batch returns, the last thing it did was to close the
    bars: every bar once, in the order in which the file names first occur
    in the list of urls; and no file or bar value changes by it. *)
Theorem batch_closes_each_bar_once (net : network) (self : FileDownloader)
    (fuel : nat) (urls : list string) (max_workers : Z) (w : world) :
  (download_files net self fuel urls max_workers w).1 = Ret tt →
  let names := dict_keys [] (basename <$> urls) in
  NoDup names
  ∧ (∀ g, g ∈ names ↔ g ∈ basename <$> urls)
  ∧ ∃ earlier,
      trace (download_files net self fuel urls max_workers w).2
      = earlier ++ (EvBarClose <$> names).
Proof.
  intros Hret. cbn zeta.
  destruct (dict_keys_spec (basename <$> urls) [] (NoDup_nil_2)) as [Hnd Hin].
  split; [done|]. split.
  { intros g. rewrite Hin, elem_of_nil. tauto. }
  revert Hret. unfold download_files.
  destruct (probe_sizes net urls ∅ w) as [[file_sizes|e|] w1]; [|done..].
  destruct (make_bars urls file_sizes ∅ w1) as [bars w2].
  destruct (run_pool net self fuel max_workers urls (set_progress_bars bars w2))
    as [[[]|e|] w3]; [|done..].
  intros _. cbn [snd]. unfold close_bars.
  generalize (dict_keys [] (basename <$> urls)). intros names.
  exists (trace w3). revert w3. induction names as [|name names IH]; intros w3.
  { cbn. by rewrite app_nil_r. }
  cbn [foldl]. rewrite IH, trace_emit, <- app_assoc. done.
Qed.

Lemma batch_closes_each_bar_once_witness :
  ∃ earlier,
    trace (download_files server_mixed impatient 4 [refused; video; refused] MAX_WORKERS
             empty_world).2
    = earlier ++ [EvBarClose "refused.mp4"; EvBarClose "video.mp4"].
Proof.
  destruct (batch_closes_each_bar_once server_mixed impatient 4 [refused; video; refused]
              MAX_WORKERS empty_world) as (_ & _ & Hclose).
  - vm_compute. reflexivity.
  - exact Hclose.
Defined.

(** X15.  What [download_files] lets out.  An exception leaves the batch
    in three ways only:
    - from the size probes of line 127: it is then one that is no
      [RequestException], the batch ends where the probes ended, and no
      bar was made and no transfer started;
    - from [ThreadPoolExecutor] at line 145, the [ValueError] for a
      [max_workers] that is not positive: the probes were sent and the
      bars made, and no transfer started;
    - from the sleep of line 156, the [ValueError] for a negative
      [retry_delay], after a task raised and its error was logged.
    So with a positive [max_workers] and a delay that is not negative,
    nothing a transfer raises leaves the batch. *)
Theorem what_leaves_the_batch (net : network) (self : FileDownloader)
    (fuel : nat) (urls : list string) (max_workers : Z) (w : world) (e : exn) :
  let batch := download_files net self fuel urls max_workers w in
  let probe := probe_sizes net urls ∅ w in
  batch.1 = Raise e →
  probe.1 = Raise e ∧ is_RequestException e = false ∧ batch = (Raise e, probe.2)
  ∨ e = ValueError
    ∧ ∃ file_sizes,
        probe.1 = Ret file_sizes
        ∧ let made := make_bars urls file_sizes ∅ probe.2 in
          (max_workers <= 0
           ∧ batch = (Raise ValueError, set_progress_bars made.1 made.2)
           ∨ 0 < max_workers ∧ retry_delay self < 0
             ∧ ∃ e' before after,
                 trace batch.2 = before ++ EvLog ERROR (MsgWorker e') :: after).
Proof.
  cbn zeta. intros Hrun.
  destruct (probe_sizes_spec net urls ∅ w) as (Hfuel & Hraise & _). cbn zeta in *.
  destruct ((probe_sizes net urls ∅ w).1) as [file_sizes|e'|] eqn:Hp; [| |done].
  - right.
    pose proof (download_files_pool net self fuel urls max_workers w file_sizes Hp) as Hdf.
    cbn zeta in Hdf. rewrite Hdf in Hrun |- *. clear Hdf.
    set (w3 := set_progress_bars
                 (make_bars urls file_sizes ∅ (probe_sizes net urls ∅ w).2).1
                 (make_bars urls file_sizes ∅ (probe_sizes net urls ∅ w).2).2) in *.
    pose proof (run_pool_raises net self fuel max_workers urls w3) as Hpool.
    destruct (run_pool net self fuel max_workers urls w3) as [r w4] eqn:Hrp.
    cbn [fst snd] in *. destruct r as [[]|e'|]; cbn [fst snd] in *; try done.
    injection Hrun as ->. destruct (Hpool e eq_refl) as [-> _]. clear Hpool.
    split; [done|]. exists file_sizes. split; [done|].
    revert Hrp. unfold run_pool. destruct (Z.leb_spec max_workers 0) as [Hw|Hw].
    + intros [= <-]. by left.
    + pose proof (run_tasks_fault net self fuel max_workers urls (Pool 0 None) w3) as Hf.
      pose proof (run_tasks_fault_logged net self fuel max_workers urls (Pool 0 None) w3
                    eq_refl) as Hlog.
      destruct (run_tasks net self fuel max_workers urls (Pool 0 None) w3) as [p w5].
      cbn [fst snd] in *. destruct (0 <? stuck p); [done|].
      destruct (fault p) as [e'|] eqn:Hfault; [|done]. intros [= -> <-]. right.
      split; [done|]. split; [|by apply Hlog].
      destruct (Hf ValueError eq_refl) as [H|[_ H]]; done.
  - assert (download_files net self fuel urls max_workers w
            = (Raise e', (probe_sizes net urls ∅ w).2)) as Hdf.
    { revert Hp. unfold download_files.
      destruct (probe_sizes net urls ∅ w) as [r w1]. cbn [fst snd]. by intros ->. }
    rewrite Hdf in Hrun. cbn [fst] in Hrun. injection Hrun as ->.
    left. split; [done|]. split; [by apply Hraise|done].
Qed.

Lemma what_leaves_the_batch_witness :
  download_files server_bad_length impatient 4 [video; refused] MAX_WORKERS empty_world
  = (Raise ValueError, World ∅ ∅ ∅ [EvHead video])
  ∧ download_files server_mixed impatient 4 [video] 0 empty_world
    = (Raise ValueError,
       World ∅ ∅ {[ "video.mp4" := 0 ]} [EvHead video; EvBarCreate "video.mp4" 10 0])
  ∧ (download_files server_mixed hasty 4 [faulty; video] MAX_WORKERS empty_world).1
    = Raise ValueError
  ∧ EvLog INFO (MsgCompleted "video.mp4")
    ∈ trace (download_files server_mixed hasty 4 [faulty; video] MAX_WORKERS
               empty_world).2.
Proof.
  split; [|split; [|split]].
  - destruct (what_leaves_the_batch server_bad_length impatient 4
                [video; refused] MAX_WORKERS empty_world ValueError)
      as [(_ & _ & Hrun)|(_ & sizes & Hsizes & _)].
    + vm_compute. reflexivity.
    + rewrite Hrun. vm_compute. reflexivity.
    + vm_compute in Hsizes. discriminate Hsizes.
  - vm_compute. reflexivity.
  - vm_compute. reflexivity.
  - in_trace.
Defined.

(** *** File names *)

Lemma append_snoc (acc : string) (c : ascii) (s : string) :
  (acc +:+ String c EmptyString) +:+ s = acc +:+ String c s.
Proof.
  induction acc as [|a acc IH]; [done|].
  change (String a ((acc +:+ String c EmptyString) +:+ s) = String a (acc +:+ String c s)).
  by rewrite IH.
Qed.

Lemma slash_free_app (s t : string) :
  slash_free (s +:+ t) = slash_free s && slash_free t.
Proof.
  induction s as [|c s IH]; [done|].
  change (negb (Ascii.eqb c "/") && slash_free (s +:+ t)
          = negb (Ascii.eqb c "/") && slash_free s && slash_free t).
  rewrite IH. by rewrite andb_assoc.
Qed.

Lemma basename_from_slash_free (s : string) :
  ∀ acc, slash_free s = true → basename_from acc s = acc +:+ s.
Proof.
  induction s as [|c s IH]; intros acc.
  - intros _. change (acc = acc +:+ EmptyString).
    induction acc as [|a acc IHa]; [done|].
    change (String a acc = String a (acc +:+ EmptyString)). by rewrite <- IHa.
  - cbn. intros [Hc Hs]%andb_prop. apply negb_true_iff in Hc. rewrite Hc.
    rewrite IH by done. apply append_snoc.
Qed.

Lemma basename_from_after_slash (s t : string) :
  ∀ acc, basename_from acc (s +:+ String "/" t) = basename_from EmptyString t.
Proof.
  induction s as [|c s IH]; intros acc; [done|].
  change (String c s +:+ String "/" t) with (String c (s +:+ String "/" t)).
  cbn [basename_from]. destruct (Ascii.eqb c "/"); apply IH.
Qed.

Lemma basename_from_is_slash_free (s : string) :
  ∀ acc, slash_free acc = true → slash_free (basename_from acc s) = true.
Proof.
  induction s as [|c s IH]; intros acc Hacc; [done|].
  cbn. destruct (Ascii.eqb c "/") eqn:Hc; [by apply IH|].
  apply IH. rewrite slash_free_app, Hacc. cbn. by rewrite Hc.
Qed.

(** X16.  The file name of a target is what follows the last slash of
    its url.  It never holds a slash itself, so the temporary and the final
    file lie directly in their directories; a url of the form
    [prefix/name] with no slash in [name] gives [name], a url without any
    slash gives itself, and a url that ends in a slash gives the empty
    name. *)
Theorem basename_is_the_last_segment (url prefix name : string) :
  slash_free (basename url) = true
  ∧ (slash_free name = true → basename (prefix +:+ String "/" name) = name)
  ∧ (slash_free url = true → basename url = url)
  ∧ basename (prefix +:+ String "/" EmptyString) = EmptyString.
Proof.
  unfold basename. split; [by apply basename_from_is_slash_free|].
  split; [|split].
  - intros Hn. rewrite basename_from_after_slash. by apply basename_from_slash_free.
  - intros Hu. by apply basename_from_slash_free.
  - by rewrite basename_from_after_slash.
Qed.

(** *** Resuming *)

(** X17.  Resuming, at any request of the loop.  For a target that is
    not already downloaded:
    - the first request carries [Range: bytes=k-] when the temporary file
      holds [k > 0] bytes and no [Range] header when it holds none;
    - after a connectivity recovery the offset and the header are the
      size the temporary file has then (the recovery itself leaves the
      file alone), and the next request carries that header;
    - whenever a request is sent with [start_bytes] at the size of the
      temporary file and the server answers it to its end, with 206 if
      that size is positive, and the body holds the bytes that were
      missing, the turn ends [Completed] and the final file is what the
      temporary file held followed by the body, [total_size] bytes in
      all. *)
Theorem resume_from_temp_size (net : network) (self : FileDownloader)
    (url filename : string) (total_size : Z) :
  (∀ fuel w,
     (_get_file_size net url w).1 = Ret total_size →
     already_downloaded (basename url) total_size w = false →
     0 <= max_retries self →
     let k := match temp_dir w !! basename url with
              | Some content => size_of content
              | None => 0
              end in
     ∃ ev rest,
       trace (download_file net self (S fuel) url w).2 = trace w ++ ev
       ∧ ranges_sent url ev = (if 0 <? k then Some k else None) :: rest)
  ∧ (∀ fuel fr w,
       let back := on_connection_lost net self fuel filename fr w in
       let size := match temp_dir back.2 !! filename with
                   | Some content => size_of content
                   | None => 0
                   end in
       back.1.1 = Ret tt →
       temp_dir back.2 = temp_dir w
       ∧ start_bytes back.1.2 = size
       ∧ headers back.1.2 = Some size
       ∧ (retries fr <= max_retries self →
          ∀ fuel', ∃ ev,
            trace (download_loop net self (S fuel') url filename total_size
                     back.1.2 back.2).2
            = trace back.2 ++ EvGet url (Some size) :: ev))
  ∧ (∀ fuel fr w status chunks,
       let content := default [] (temp_dir w !! filename) in
       start_bytes fr = size_of content →
       is_Some (progress_bars w !! filename) →
       get_reply net url (gets_sent url (trace w)) (headers fr)
       = GetResponse status chunks None →
       is_error_status status = false →
       (0 < size_of content → status = 206) →
       size_of (concat chunks) = total_size - size_of content →
       ∃ fr' w',
         loop_body net self fuel url filename total_size fr w
         = Stop (Ret Completed) fr' w'
         ∧ temp_dir w' !! filename = None
         ∧ download_dir w' !! filename = Some (content ++ concat chunks)
         ∧ size_of (content ++ concat chunks) = total_size).
Proof.
  split; [|split].
  - intros fuel w Hp Ha Hmax. cbn zeta.
    destruct (download_file_first_get net self fuel url w total_size Hp Ha Hmax)
      as (ev & rest & Ht & Hranges).
    exists ev, rest. split; [done|]. rewrite Hranges. done.
  - intros fuel fr w. cbn zeta.
    pose proof (on_connection_lost_frame net self fuel filename fr w) as Hf.
    pose proof (on_connection_lost_store net self fuel filename fr w) as (Ht & _ & _).
    destruct (on_connection_lost net self fuel filename fr w) as [[r fr'] w'].
    cbn [fst snd] in *. intros ->. destruct Hf as [Hr [Hs Hh]]; [done|].
    unfold _get_existing_download_size in Hs, Hh.
    split; [done|]. split; [done|]. split; [done|].
    intros Hle fuel'.
    destruct (download_loop_first_get net self fuel' url filename total_size fr' w')
      as (ev & Hev); [lia|].
    rewrite Hh in Hev. eauto.
  - intros fuel fr w status chunks. cbn zeta. intros Hstart [n Hn] Hr Hs H206 Hsize.
    pose proof (try_fetch_streamed net url filename total_size fr w
                  status chunks None n Hr Hs Hn) as H.
    cbn zeta in H.
    assert ((0 <? start_bytes fr) && negb (status =? 206) = false) as Hno.
    { destruct (0 <? start_bytes fr) eqn:Hk; [|done]. apply Z.ltb_lt in Hk.
      rewrite H206 by lia. done. }
    rewrite Hno in H. destruct H as (_ & _ & Hret & Htmp & Hdl & _).
    assert ((if 0 <? start_bytes fr then default [] (temp_dir w !! filename) else [])
            = default [] (temp_dir w !! filename)) as Hkept.
    { destruct (0 <? start_bytes fr) eqn:Hk; [done|]. apply Z.ltb_ge in Hk.
      rewrite Hstart in Hk.
      destruct (temp_dir w !! filename) as [[|b c]|]; [done| |done].
      unfold size_of in Hk. cbn in Hk. lia. }
    rewrite Hkept in Hdl. unfold loop_body.
    destruct (try_fetch net url filename total_size fr w) as [[r fr1] w2].
    cbn [fst snd] in *. subst r.
    eexists _, _. split; [done|]. split; [done|]. split; [done|].
    rewrite size_of_app. lia.
Qed.

Lemma resume_from_temp_size_witness :
  (∃ fr' w',
     loop_body server_stalls_once impatient 1 video "video.mp4" 10 (Frame 6 (Some 6) 0)
       (step_world (loop_body server_stalls_once impatient 1 video "video.mp4" 10
                      (initial_frame 4) world_with_partial))
     = Stop (Ret Completed) fr' w'
     ∧ temp_dir w' !! "video.mp4" = None
     ∧ download_dir w' !! "video.mp4" = Some (body 6 ++ body 4)
     ∧ size_of (body 6 ++ body 4) = 10)
  ∧ loop_body server_stalls_once impatient 1 video "video.mp4" 10 (initial_frame 4)
      world_with_partial
    = Next (Frame 6 (Some 6) 0)
        (step_world (loop_body server_stalls_once impatient 1 video "video.mp4" 10
                       (initial_frame 4) world_with_partial))
  ∧ ranges_sent video
      (trace (download_file server_stalls_once impatient 3 video world_with_partial).2)
    = [Some 4; Some 6]
  ∧ size_of <$> download_dir
                  (download_file server_stalls_once impatient 3 video
                     world_with_partial).2 !! "video.mp4"
    = Some 10.
Proof.
  destruct (resume_from_temp_size server_stalls_once impatient video "video.mp4" 10)
    as (_ & _ & Hfetch).
  split; [|repeat split; vm_compute; reflexivity].
  apply (Hfetch 1%nat (Frame 6 (Some 6) 0)
           (step_world (loop_body server_stalls_once impatient 1 video "video.mp4" 10
                          (initial_frame 4) world_with_partial))
           206 [body 4]).
  - vm_compute. reflexivity.
  - vm_compute. eauto.
  - vm_compute. reflexivity.
  - reflexivity.
  - reflexivity.
  - vm_compute. reflexivity.
Defined.

(** *** Lost connections *)

(** X18.  A target whose fetch attempts leave the [try] body only with
    exceptions of the first [except] clause ([ConnectionError], with its
    subclasses, [ProtocolError], [IncompleteRead]): the retry counter
    never moves and the loop never returns, in particular never with
    [Failed].  Each turn waits at the connectivity gate until a probe is
    answered, then takes the offset and the [Range] header from the size
    of the temporary file, which is what the attempt left there (what it
    kept of the file it found, followed by the chunks it received), and
    the next request carries that header.  With a delay that is not
    negative, and as long as connectivity keeps coming back, the number of
    requests sent grows without bound. *)
Theorem connectivity_loss_never_exhausts (net : network) (self : FileDownloader)
    (url filename : string) (total_size : Z) (fr : frame) (w : world) :
  connection_lost_always net url →
  is_Some (progress_bars w !! filename) →
  retries fr <= max_retries self →
  (∀ fuel,
     let run := download_loop net self fuel url filename total_size fr w in
     retries run.1.2 = retries fr
     ∧ (∀ x, run.1.1 ≠ Ret x)
     ∧ (0 <= retry_delay self → pings_never_escape net → run.1.1 = OutOfFuel))
  ∧ (∀ fuel fr' w',
       loop_body net self fuel url filename total_size fr w = Next fr' w' →
       let size := match temp_dir w' !! filename with
                   | Some content => size_of content
                   | None => 0
                   end in
       retries fr' = retries fr
       ∧ start_bytes fr' = size
       ∧ headers fr' = Some size
       ∧ (∃ t, trace w' = t ++ [EvPing] ∧ ping_reply net (pings_sent t) = PingAnswered)
       ∧ (∀ fuel', ∃ ev,
            trace (download_loop net self (S fuel') url filename total_size fr' w').2
            = trace w' ++ EvGet url (Some size) :: ev)
       ∧ (∀ status chunks broken,
            get_reply net url (gets_sent url (trace w)) (headers fr)
            = GetResponse status chunks broken →
            let restart := (0 <? start_bytes fr) && negb (status =? 206) in
            let start := if restart then 0 else start_bytes fr in
            let kept := if 0 <? start then default [] (temp_dir w !! filename) else [] in
            temp_dir w' !! filename = Some (kept ++ concat chunks)
            ∧ size = size_of kept + size_of (concat chunks)))
  ∧ (0 <= retry_delay self →
     pings_never_escape net → connectivity_returns net →
     ∀ n : nat, ∃ fuel0, ∀ fuel, (fuel0 ≤ fuel)%nat →
       (gets_sent url (trace w) + n
        ≤ gets_sent url
            (trace (download_loop net self fuel url filename total_size fr w).2))%nat)
  ∧ (0 <= max_retries self →
     ∀ fuel w0, is_Some (progress_bars w0 !! basename url) →
       (download_file net self fuel url w0).1 ≠ Ret Failed).
Proof.
  intros Hlost Hb Hr. split; [|split; [|split]].
  - intros fuel. by apply download_loop_never_counts.
  - intros fuel fr' w' Hstep. cbn zeta.
    destruct (loop_body_turn net self fuel url filename total_size fr w fr' w'
                Hlost Hb Hstep) as (Hr' & Hs & Hh & Hping).
    unfold _get_existing_download_size in Hs, Hh.
    split; [done|]. split; [done|]. split; [done|]. split; [done|]. split.
    + intros fuel'.
      destruct (download_loop_first_get net self fuel' url filename total_size fr' w')
        as (ev & Hev); [lia|].
      rewrite Hh in Hev. eauto.
    + intros status chunks broken Hreply.
      destruct (Hlost (gets_sent url (trace w)) (headers fr)) as (e & Ha & Hc).
      rewrite Hreply in Ha. cbn in Ha.
      destruct (is_error_status status) eqn:Hstatus; [by subst e|]. subst broken.
      destruct Hb as [n Hn].
      pose proof (try_fetch_streamed net url filename total_size fr w
                    status chunks (Some e) n Hreply Hstatus Hn) as H.
      cbn zeta in H. destruct H as (_ & _ & _ & Htmp & _).
      rewrite (loop_body_temp net self _ _ _ _ _ _ _ _ Hstep), Htmp.
      split; [done|]. by rewrite size_of_app.
  - intros Hdelay Hesc Hret n. by apply download_loop_keeps_trying.
  - intros Hmax fuel w0 Hb0. unfold download_file.
    destruct (_get_file_size_effects net url w0) as (_ & _ & Hbars & _).
    destruct (_get_file_size net url w0) as [[total|e|] w1]; cbn [fst snd] in *; try done.
    destruct (already_downloaded _ _ _).
    + by case_match.
    + pose proof (download_loop_never_counts net self url (basename url) total Hlost fuel
        (initial_frame (_get_existing_download_size (basename url) true w1))
        (_log (MsgStarting (basename url) total
                 (_get_existing_download_size (basename url) true w1)) INFO w1)) as H.
      cbn zeta in H. destruct H as (_ & H & _).
      * cbn. by rewrite Hbars.
      * by cbn.
      * destruct (download_loop _ _ _ _ _ _ _ _) as [[r fr'] w']. cbn [fst snd] in *.
        apply H.
Qed.

Lemma connectivity_loss_never_exhausts_witness :
  (download_loop server_unreachable impatient 7 video "video.mp4" 10
     (initial_frame 0) fresh_world).1.1 = OutOfFuel
  ∧ retries (download_loop server_unreachable impatient 7 video "video.mp4" 10
               (initial_frame 0) fresh_world).1.2 = 0
  ∧ (download_file server_unreachable impatient 7 video fresh_world).1 ≠ Ret Failed.
Proof.
  destruct (connectivity_loss_never_exhausts server_unreachable impatient
              video "video.mp4" 10 (initial_frame 0) fresh_world)
    as (Hloop & _ & _ & Hfile).
  - intros i h. exists ConnectionError. split; reflexivity.
  - vm_compute. eauto.
  - vm_compute. discriminate.
  - destruct (Hloop 7%nat) as (Hretries & _ & Hpending).
    split; [|split].
    + apply Hpending; [vm_compute; discriminate|]. intros i. exact I.
    + exact Hretries.
    + apply Hfile; [vm_compute; discriminate|vm_compute; eauto].
Defined.
